(** * Query orchestration pipeline of [src/services/queryService.ts]

    A shallow embedding of the retry wrapper, the vector-store adapter, the
    two [NodeCache] instances and the [queryEmbeddings] orchestrator, with
    the properties the specification states about them. *)

From Stdlib Require Import ZArith QArith String Ascii List Lia Bool.
From Stdlib Require Import Decimal DecimalString Sorting.Sorted Sorting.Permutation.
From stdpp Require Import base option gmap strings list.

Local Open Scope Z_scope.
Local Open Scope string_scope.
Local Open Scope list_scope.

#[local] Set Warnings "-register-all".

(** ** JavaScript values *)

(** A JavaScript [number]. [Fin z] stands for an integral value in the safe
    range; fractional values are not represented. *)
Inductive jsnum : Type :=
| Fin (z : Z)
| NaN
| PosInf
| NegInf.

(** The values an [any]-typed field may hold, as far as [JSON.stringify]
    and truthiness tell them apart. Objects keep their properties in
    insertion order. *)
Inductive jsval : Type :=
| JUndefined
| JNull
| JBool (b : bool)
| JNum (n : jsnum)
| JStr (s : string)
| JArr (elems : list jsval)
| JObj (props : list (string * jsval)).

Definition num_truthy (n : jsnum) : bool :=
  match n with
  | Fin z => negb (z =? 0)%Z
  | NaN => false
  | PosInf | NegInf => true
  end.

Definition str_truthy (s : string) : bool :=
  match s with
  | EmptyString => false
  | String _ _ => true
  end.

(** [ToBoolean]. *)
Definition truthy (v : jsval) : bool :=
  match v with
  | JUndefined | JNull => false
  | JBool b => b
  | JNum n => num_truthy n
  | JStr s => str_truthy s
  | JArr _ | JObj _ => true
  end.

(** Property lookup [o.k] on an object's own properties. *)
Fixpoint assoc (k : string) (props : list (string * jsval)) : option jsval :=
  match props with
  | [] => None
  | (k', v) :: rest => if String.eqb k k' then Some v else assoc k rest
  end.

(** Assignment [o.k = v]: an existing property keeps its position. *)
Fixpoint assoc_set (k : string) (v : jsval) (props : list (string * jsval))
  : list (string * jsval) :=
  match props with
  | [] => [(k, v)]
  | (k', v') :: rest =>
      if String.eqb k k' then (k, v) :: rest else (k', v') :: assoc_set k v rest
  end.

(** Object spread [{...base, ...more}]. *)
Definition spread (base more : list (string * jsval)) : list (string * jsval) :=
  fold_left (fun acc kv => assoc_set (fst kv) (snd kv) acc) more base.

(** ** [JSON.stringify] *)

Module JSON.

Definition nl : string := String (ascii_of_nat 10) EmptyString.

Definition dq : string := String (ascii_of_nat 34) EmptyString.

Definition backslash : string := String (ascii_of_nat 92) EmptyString.

Definition hex_digit (n : nat) : ascii :=
  match n with
  | 0 => "0" | 1 => "1" | 2 => "2" | 3 => "3" | 4 => "4" | 5 => "5" | 6 => "6"
  | 7 => "7" | 8 => "8" | 9 => "9" | 10 => "a" | 11 => "b" | 12 => "c"
  | 13 => "d" | 14 => "e" | _ => "f"
  end%nat%char.

(** One code unit of [QuoteJSONString]. *)
Definition escape_char (c : ascii) : string :=
  let n := nat_of_ascii c in
  if (n =? 8)%nat then "\b"
  else if (n =? 9)%nat then "\t"
  else if (n =? 10)%nat then "\n"
  else if (n =? 12)%nat then "\f"
  else if (n =? 13)%nat then "\r"
  else if (n =? 34)%nat then backslash +:+ dq
  else if (n =? 92)%nat then backslash +:+ backslash
  else if (n <? 32)%nat then
    "\u00" +:+ String (hex_digit (n / 16)) (String (hex_digit (n mod 16)) EmptyString)
  else String c EmptyString.

Fixpoint escape (s : string) : string :=
  match s with
  | EmptyString => EmptyString
  | String c rest => escape_char c +:+ escape rest
  end.

Definition quote (s : string) : string := dq +:+ escape s +:+ dq.

(** A template literal's ["${s}"]: the text between quotes, as it is. *)
Definition quoted (s : string) : string := dq +:+ s +:+ dq.

Definition number (n : jsnum) : string :=
  match n with
  | Fin z => NilZero.string_of_int (Z.to_int z)
  | NaN | PosInf | NegInf => "null"
  end.

Fixpoint join (sep : string) (parts : list string) : string :=
  match parts with
  | [] => EmptyString
  | [p] => p
  | p :: rest => p +:+ sep +:+ join sep rest
  end.

(** [SerializeJSONProperty]: [None] is the [undefined] result, which drops
    a property and prints as [null] inside an array. *)
Fixpoint serialize (v : jsval) : option string :=
  match v with
  | JUndefined => None
  | JNull => Some "null"
  | JBool b => Some (if b then "true" else "false")
  | JNum n => Some (number n)
  | JStr s => Some (quote s)
  | JArr elems =>
      Some ("[" +:+ join "," (map (fun x => default "null" (serialize x)) elems) +:+ "]")
  | JObj props =>
      Some ("{" +:+
            join "," (omap (fun kv =>
                              match serialize (snd kv) with
                              | Some s => Some (quote (fst kv) +:+ ":" +:+ s)
                              | None => None
                              end) props)
            +:+ "}")
  end.

End JSON.


Import JSON.

(** ** Interfaces of the module *)

Record QueryVectorStoreOptions : Type := mkStoreOptions {
  topK : option jsnum
}.

(** [QueryEmbeddingsOptions extends QueryVectorStoreOptions]; a field is
    [None] when the property is absent or [undefined]. *)
Record QueryEmbeddingsOptions : Type := mkOptions {
  base : QueryVectorStoreOptions;
  enableAPIQuery : option bool;
  context : option jsval;
  language : option string;
  userId : option string;
  messageId : option string
}.

(** The default argument [options = {}]. *)
Definition noOptions : QueryEmbeddingsOptions :=
  mkOptions (mkStoreOptions None) None None None None None.

(** An element of [QueryEmbeddingsResponse.matches]. *)
Record Match : Type := mkMatch {
  text : jsval;
  language_of : jsval;
  source : jsval;
  score_of : jsval
}.

(** [answer] is what the completion held as content, [None] when that is
    [null]. *)
Record QueryEmbeddingsResponse : Type := mkResponse {
  matches : list Match;
  apiResults : list jsval;
  answer : option string
}.

Record VectorSearchResult : Type := mkResult {
  metadata : list (string * jsval);
  score : Q
}.

(** What the [$project] stage of the aggregation leaves of a document. *)
Record Document : Type := mkDocument {
  doc_text : jsval;
  doc_metadata : list (string * jsval);
  doc_score : Q
}.

(** The argument [weightContextRelevance] receives for each match. *)
Record RawContext : Type := mkRaw {
  raw_text : jsval;
  raw_language : jsval;
  raw_score : Q
}.

Record Message : Type := mkMessage {
  role : string;
  content : option string
}.

Record ChatRequest : Type := mkRequest {
  model : string;
  messages : list Message;
  temperature : option Q;
  max_tokens : option Z;
  json_object : bool
}.

(** A chat completion, reduced to [choices[i].message.content] ([None] is
    [null]). *)
Record Completion : Type := mkCompletion {
  choices : list (option string)
}.

Definition Vector : Type := list Q.

(** What [getMemory] hands out; the module only passes it on. *)
Definition MemoryHandle : Type := string.

Inductive Error : Type :=
| Thrown (name message : string).

Definition ECACHEFULL : Error := Thrown "ECACHEFULL" "Cache max keys amount exceeded".

Definition TypeError (message : string) : Error := Thrown "TypeError" message.

Inductive Outcome (A : Type) : Type :=
| Ok (a : A)
| Err (e : Error).
Arguments Ok {A} a.
Arguments Err {A} e.

(** ** The world the module runs in *)

(** Calls that leave the module, in the order they are issued. *)
Inductive Event : Type :=
| ConsoleLog (message : string) (args : list jsval)
| SetTimeout (ms : Z)
| EmbedQuery (text : string)
| ChatCompletionsCreate (request : ChatRequest)
| GetDb
| Aggregate (collection indexName : string) (queryVector : option Vector) (k : jsnum)
| PineconeQuery (topK : jsnum) (vector : option Vector)
| GetMemory (userId : option string)
| LoadMemoryVariables (memory : MemoryHandle)
| SummarizeChatHistory (chatHistory : jsval)
| SaveContext (memory : MemoryHandle) (input : string) (output : option string).

(** What the result cache holds: responses stored by [queryEmbeddings] and
    whatever [setLastConversation] was given. *)
Inductive CacheValue : Type :=
| Response (r : QueryEmbeddingsResponse)
| Stored (v : jsval).

Definition value_truthy (v : CacheValue) : bool :=
  match v with
  | Response _ => true
  | Stored j => truthy j
  end.

(** [now] is the clock in milliseconds, which moves when the module sleeps
    and between turns; [trace] lists the calls issued so far; each cache maps
    a key to its value and the time its entry expires. *)
Record World : Type := mkWorld {
  now : Z;
  trace : list Event;
  cache : gmap string (CacheValue * Z);
  messageCache : gmap string (bool * Z)
}.

Definition initial : World := mkWorld 0 [] ∅ ∅.

(** ** [node-cache] *)

(** The two operations of the [node-cache] package the module uses, after
    the package's documented behaviour: an entry lives until its expiry time
    has passed, a lookup that finds a dead entry removes it, and [set] throws
    once [maxKeys] keys are held. The periodic purge of dead entries is left
    out. *)
Module NodeCache.

Definition expired (now t : Z) : bool := negb (t =? 0)%Z && (t <? now)%Z.

Definition get {V : Type} (now : Z) (key : string) (data : gmap string (V * Z))
  : option V * gmap string (V * Z) :=
  match data !! key with
  | Some (v, t) => if expired now t then (None, delete key data) else (Some v, data)
  | None => (None, data)
  end.

Definition livetime (now ttl : Z) : Z :=
  if (ttl =? 0)%Z then 0 else now + ttl * 1000.

Definition set {V : Type} (maxKeys : Z) (now : Z) (key : string) (v : V) (ttl : Z)
    (data : gmap string (V * Z)) : Outcome (gmap string (V * Z)) :=
  if (maxKeys >? -1)%Z && (Z.of_nat (size data) >=? maxKeys)%Z then Err ECACHEFULL
  else Ok (<[key := (v, livetime now ttl)]> data).

End NodeCache.

(** [new NodeCache({ stdTTL: 3600, maxKeys: 1000 })] *)
Definition cache_stdTTL : Z := 3600.
Definition cache_maxKeys : Z := 1000.
(** [new NodeCache({ stdTTL: 300, maxKeys: 10000 })] *)
Definition messageCache_stdTTL : Z := 300.
Definition messageCache_maxKeys : Z := 10000.

(** ** Collaborators *)

(** Modelled from the spec: the collaborators of section 6, whose code is
    outside this file: the embedding generator, the chat-completion client,
    the MongoDB and Pinecone clients, [ConversationManager] and its memory
    handles, [summarizeChatHistory], and the helpers [weightContextRelevance]
    and [formatContexts] of [utils/conversation.js]. A fallible call answers
    from the world it is issued in, so that its answer may change from one
    attempt to the next. *)
Record Collaborators : Type := mkCollaborators {
  SYSTEM_PROMPT : option string;
  embedQuery : string -> World -> Outcome Vector;
  chatCompletionsCreate : ChatRequest -> World -> Outcome Completion;
  JSON_parse : string -> Outcome jsval;
  getDb : World -> Outcome unit;
  aggregate : string -> string -> option Vector -> jsnum -> World -> Outcome (list Document);
  pineconeQuery : jsnum -> option Vector -> World -> Outcome (list VectorSearchResult);
  weightContextRelevance : string -> list RawContext -> list Match;
  formatContexts : list Match -> string;
  getMemory : option string -> World -> Outcome MemoryHandle;
  loadMemoryVariables : MemoryHandle -> World -> Outcome jsval;
  saveContext : MemoryHandle -> string -> option string -> World -> Outcome unit;
  summarizeChatHistory : jsval -> World -> Outcome string
}.

(** ** Computations *)

(** An [async] function: it runs from a world to a resolved value or a
    rejection, and the world keeps what was done before a rejection. *)
Definition M (A : Type) : Type := World -> Outcome A * World.

Definition ret {A : Type} (a : A) : M A := fun w => (Ok a, w).

Definition throw {A : Type} (e : Error) : M A := fun w => (Err e, w).

Definition bind {A B : Type} (m : M A) (k : A -> M B) : M B :=
  fun w =>
    match m w with
    | (Ok a, w') => k a w'
    | (Err e, w') => (Err e, w')
    end.

Notation "'await' x <~ m 'in' k" := (bind m (fun x => k))
  (at level 10, x name, m at level 100, k at level 200,
   format "'[v' 'await'  x  <~  m  'in' '/' k ']'").

Notation "'run' m 'in' k" := (bind m (fun _ => k))
  (at level 10, m at level 100, k at level 200,
   format "'[v' 'run'  m  'in' '/' k ']'").

Definition lift {A : Type} (o : Outcome A) : M A := fun w => (o, w).

Definition log (ev : Event) (w : World) : World :=
  mkWorld (now w) (trace w ++ [ev]) (cache w) (messageCache w).

(** A call to a collaborator: recorded, then answered. *)
Definition call {A : Type} (ev : Event) (answer : World -> Outcome A) : M A :=
  fun w => (answer w, log ev w).

Definition console_log (message : string) (args : list jsval) : M unit :=
  fun w => (Ok tt, log (ConsoleLog message args) w).

(** [await new Promise((res) => setTimeout(res, ms))] *)
Definition sleep (ms : Z) : M unit :=
  fun w => (Ok tt, mkWorld (now w + ms) (trace w ++ [SetTimeout ms]) (cache w) (messageCache w)).

Definition cache_get (key : string) : M (option CacheValue) :=
  fun w =>
    let (v, data) := NodeCache.get (now w) key (cache w) in
    (Ok v, mkWorld (now w) (trace w) data (messageCache w)).

Definition cache_set (key : string) (v : CacheValue) (ttl : Z) : M unit :=
  fun w =>
    match NodeCache.set cache_maxKeys (now w) key v ttl (cache w) with
    | Ok data => (Ok tt, mkWorld (now w) (trace w) data (messageCache w))
    | Err e => (Err e, w)
    end.

Definition messageCache_get (key : string) : M (option bool) :=
  fun w =>
    let (v, data) := NodeCache.get (now w) key (messageCache w) in
    (Ok v, mkWorld (now w) (trace w) (cache w) data).

Definition messageCache_set (key : string) (v : bool) : M unit :=
  fun w =>
    match NodeCache.set messageCache_maxKeys (now w) key v messageCache_stdTTL (messageCache w) with
    | Ok data => (Ok tt, mkWorld (now w) (trace w) (cache w) data)
    | Err e => (Err e, w)
    end.

(** ** Retry wrapper *)

(** The [for] loop of [retry] from index [i], with [remaining] the number of
    indices below [maxRetries] still to visit. Leaving the loop resolves to
    [undefined], which is [None]. *)
Fixpoint retry_from {T : Type} (fn : M T) (maxRetries i : Z) (remaining : nat)
  : M (option T) :=
  match remaining with
  | O => ret None
  | S remaining' =>
      fun w =>
        match fn w with
        | (Ok v, w') => (Ok (Some v), w')
        | (Err error, w') =>
            if (i =? maxRetries - 1)%Z then (Err error, w')
            else (run sleep (1000 * 2 ^ i) in
                  retry_from fn maxRetries (i + 1) remaining') w'
        end
  end.

Definition retry {T : Type} (fn : M T) (maxRetries : Z) : M (option T) :=
  retry_from fn maxRetries 0 (Z.to_nat maxRetries).

(** The default [maxRetries = 3]. *)
Definition retry_default {T : Type} (fn : M T) : M (option T) := retry fn 3.

(** ** Vector store adapter *)

(** [topK || 5] *)
Definition or5 (topK : option jsnum) : jsnum :=
  match topK with
  | Some n => if num_truthy n then n else Fin 5
  | None => Fin 5
  end.

(** [index <= topK] for an array index. *)
Definition index_le (index : nat) (topK : jsnum) : bool :=
  match topK with
  | Fin z => (Z.of_nat index <=? z)%Z
  | PosInf => true
  | NaN | NegInf => false
  end.

(** [array.filter((_, index) => keep(index))] *)
Fixpoint filter_index {A : Type} (keep : nat -> bool) (index : nat) (l : list A) : list A :=
  match l with
  | [] => []
  | x :: rest =>
      if keep index then x :: filter_index keep (S index) rest
      else filter_index keep (S index) rest
  end.

(** [array.slice(0, end)] *)
Definition slice0 {A : Type} (stop : jsnum) (l : list A) : list A :=
  match stop with
  | Fin z =>
      if (z <? 0)%Z then firstn (Z.to_nat (Z.max (Z.of_nat (length l) + z) 0)) l
      else firstn (Z.to_nat (Z.min z (Z.of_nat (length l)))) l
  | PosInf => l
  | NaN | NegInf => []
  end.

(** [array.sort((a, b) => b.score - a.score)]: a stable sort, a later
    element going behind the earlier ones of the same score. *)
Fixpoint insert_by_score (x : VectorSearchResult) (sorted : list VectorSearchResult)
  : list VectorSearchResult :=
  match sorted with
  | [] => [x]
  | y :: rest =>
      if Qle_bool (score y) (score x) then x :: y :: rest
      else y :: insert_by_score x rest
  end.

Fixpoint sort_by_score (l : list VectorSearchResult) : list VectorSearchResult :=
  match l with
  | [] => []
  | x :: rest => insert_by_score x (sort_by_score rest)
  end.

(** Lines 157 to 160: the index filter, then the sort and the slice. *)
Definition allResults_of (topK : jsnum) (docsResults : list VectorSearchResult)
  : list VectorSearchResult :=
  filter_index (fun index => index_le index topK) 0 docsResults.

Definition topResults_of (topK : jsnum) (docsResults : list VectorSearchResult)
  : list VectorSearchResult :=
  slice0 topK (sort_by_score (allResults_of topK docsResults)).

Section Service.

Context (env : Collaborators).

Definition queryMongoCollection (collection indexName : string)
    (queryVector : option Vector) (topK : jsnum) : M (list VectorSearchResult) :=
  let k := or5 (Some topK) in
  await results <~ call (Aggregate collection indexName queryVector k)
                       (aggregate env collection indexName queryVector k) in
  ret (map (fun doc =>
              mkResult (spread [("text", doc_text doc)] (doc_metadata doc)) (doc_score doc))
           results).

Definition queryVectorStore (storeName : string) (queryVector : option Vector)
    (options : QueryVectorStoreOptions) : M (option (list VectorSearchResult)) :=
  if String.eqb storeName "pinecone" then
    retry_default (call (PineconeQuery (or5 (topK options)) queryVector)
                        (pineconeQuery env (or5 (topK options)) queryVector))
  else if String.eqb storeName "mongodb" then
    run call GetDb (getDb env) in
    let topK := or5 (topK options) in
    await docsResults <~ queryMongoCollection "docs" "vectorDocsIndex" queryVector topK in
    let topResults := topResults_of topK docsResults in
    ret (Some (map (fun result => mkResult (metadata result) (score result)) topResults))
  else
    throw (Thrown "Error" ("Vector store " +:+ dq +:+ storeName +:+ dq +:+ " is not implemented.")).

(** ** External enrichment *)

Definition mockResponse : list jsval := [JObj [("data", JStr "Mock API response")]].

Definition queryExternalAPI (apiName : string) (payload : jsval) : M (list jsval) :=
  run console_log ("Calling API: " +:+ apiName +:+ " with payload:") [payload] in
  ret mockResponse.

(** The system message of the classification request. *)
Definition intentInstructions : string :=
  join nl
    [ "Analyze the user's message intent and classify it in a JSON format with the following fields:";
      "            - isGreeting (boolean): contains any kind of greeting or salutation";
      "            - hasQuestion (boolean): contains a question or inquiry";
      "            - needsSupport (boolean): requires technical or customer support";
      "            - topic (string): main topic of the message (or " +:+ quoted "none" +:+
        " if there isn't one)";
      "            ";
      "            Examples:";
      "            " +:+ quoted "hello" +:+ " -> {" +:+ quoted "isGreeting" +:+ ": true, " +:+
        quoted "hasQuestion" +:+ ": false, " +:+ quoted "needsSupport" +:+ ": false, " +:+
        quoted "topic" +:+ ": " +:+ quoted "none" +:+ "}";
      "            " +:+ quoted "hi, how do I change my email?" +:+ " -> {" +:+
        quoted "isGreeting" +:+ ": true, " +:+ quoted "hasQuestion" +:+ ": true, " +:+
        quoted "needsSupport" +:+ ": true, " +:+ quoted "topic" +:+ ": " +:+ quoted "email" +:+
        "}";
      "            " +:+ quoted "I'm having issues with payment" +:+ " -> {" +:+
        quoted "isGreeting" +:+ ": false, " +:+ quoted "hasQuestion" +:+ ": false, " +:+
        quoted "needsSupport" +:+ ": true, " +:+ quoted "topic" +:+ ": " +:+ quoted "payment" +:+
        "}";
      "            " +:+ quoted "buenas tardes, necesito ayuda con mi cuenta" +:+ " -> {" +:+
        quoted "isGreeting" +:+ ": true, " +:+ quoted "hasQuestion" +:+ ": false, " +:+
        quoted "needsSupport" +:+ ": true, " +:+ quoted "topic" +:+ ": " +:+ quoted "account" +:+
        "}";
      "            " +:+ quoted "olá, tudo bem?" +:+ " -> {" +:+ quoted "isGreeting" +:+
        ": true, " +:+ quoted "hasQuestion" +:+ ": true, " +:+ quoted "needsSupport" +:+
        ": false, " +:+ quoted "topic" +:+ ": " +:+ quoted "none" +:+ "}";
      EmptyString;
      "            Notes:";
      "            - The user may write in English, Portuguese or Spanish";
      "            - A greeting alone should not be considered as needing support";
      "            - The topic should be specific and relevant to support context";
      "            - Casual questions like " +:+ quoted "how are you?" +:+
        " should not be marked as needsSupport" ].

(** [completion.choices[0].message.content], on what [retry] resolved to. *)
Definition message_content (completion : option Completion) : M (option string) :=
  match completion with
  | None => throw (TypeError "Cannot read properties of undefined (reading 'choices')")
  | Some c =>
      match choices c with
      | [] => throw (TypeError "Cannot read properties of undefined (reading 'message')")
      | first :: _ => ret first
      end
  end.

(** Property access on a value of type [any]. *)
Definition get_prop (v : jsval) (k : string) : M jsval :=
  match v with
  | JUndefined | JNull => throw (TypeError ("Cannot read properties of null (reading '" +:+ k +:+ "')"))
  | JObj props => ret (default JUndefined (assoc k props))
  | _ => ret JUndefined
  end.

Definition intentRequest (query : string) : ChatRequest :=
  mkRequest "gpt-3.5-turbo"
    [mkMessage "system" (Some intentInstructions); mkMessage "user" (Some query)]
    (Some 0%Q) None true.

Definition analyzeUserIntent (query : string) : M jsval :=
  await completion <~ call (ChatCompletionsCreate (intentRequest query))
                          (chatCompletionsCreate env (intentRequest query)) in
  await content <~ message_content (Some completion) in
  lift (JSON_parse env (default "null" content)).

(** ** The orchestrator *)

(** The own properties of the options object, in the order the interfaces
    declare them; one that is absent holds [undefined], which
    [JSON.stringify] leaves out. *)
Definition options_props (options : QueryEmbeddingsOptions) : list (string * jsval) :=
  [ ("topK", from_option JNum JUndefined (topK (base options)));
    ("enableAPIQuery", from_option JBool JUndefined (enableAPIQuery options));
    ("context", default JUndefined (context options));
    ("language", from_option JStr JUndefined (language options));
    ("userId", from_option JStr JUndefined (userId options));
    ("messageId", from_option JStr JUndefined (messageId options)) ].

Definition options_object (options : QueryEmbeddingsOptions) : jsval :=
  JObj (options_props options).

(** [JSON.stringify(v)] inside a template literal. *)
Definition stringify (v : jsval) : string := default "undefined" (serialize v).

Definition cacheKey_of (query : string) (options : QueryEmbeddingsOptions) : string :=
  query +:+ ":" +:+ stringify (options_object options).

Definition greetingRequest (query : string) : ChatRequest :=
  mkRequest "gpt-3.5-turbo"
    [ mkMessage "system" (SYSTEM_PROMPT env);
      mkMessage "user"
        (Some ("Query: " +:+ quoted query +:+ nl +:+ "Type: Greeting" +:+ nl +:+ nl +:+
               "Respond in a friendly and natural way, without assuming any supporting context")) ]
    (Some (7 # 10)%Q) (Some 500) false.

Definition answerRequest (content : string) : ChatRequest :=
  mkRequest "gpt-4"
    [mkMessage "system" (SYSTEM_PROMPT env); mkMessage "user" (Some content)]
    None (Some 500) false.

Definition match_object (m : Match) : jsval :=
  JObj [("text", text m); ("language", language_of m); ("source", source m); ("score", score_of m)].

Definition payload_of (query : string) (contexts : list Match) : jsval :=
  JObj [("query", JStr query); ("contexts", JArr (map match_object contexts))].

(** [messageId && messageCache.get(messageId)] *)
Definition seen (messageId : option string) : M bool :=
  match messageId with
  | Some id =>
      if str_truthy id then
        await marked <~ messageCache_get id in
        ret (default false marked)
      else ret false
  | None => ret false
  end.

(** [intent.isGreeting && !intent.hasQuestion && !intent.needsSupport] *)
Definition pureGreeting (intent : jsval) : M bool :=
  await isGreeting <~ get_prop intent "isGreeting" in
  if truthy isGreeting then
    await hasQuestion <~ get_prop intent "hasQuestion" in
    if negb (truthy hasQuestion) then
      await needsSupport <~ get_prop intent "needsSupport" in
      ret (negb (truthy needsSupport))
    else ret false
  else ret false.

Definition promptContent (query : string) (intent : jsval) (historySummary : string)
    (contexts : list Match) : string :=
  join nl
    [ "Query: " +:+ quoted query;
      "Intent: " +:+ stringify intent;
      EmptyString;
      "Conversation Summary:";
      historySummary;
      EmptyString;
      "Relevant contexts:";
      formatContexts env contexts ].

(** Lines 241 to 260: the reply to a message that only greets. *)
Definition greetingBranch (query : string) : M (option CacheValue) :=
  await completion <~ retry_default (call (ChatCompletionsCreate (greetingRequest query))
                                        (chatCompletionsCreate env (greetingRequest query))) in
  await content <~ message_content completion in
  ret (Some (Response (mkResponse [] [] content))).

(** Lines 263 to 332: retrieval, enrichment, memory, generation and the
    writes that close the turn. The enrichment call of line 281 is the
    argument [api]. *)
Definition retrievalBranch (api : string -> jsval -> M (list jsval))
    (query : string) (options : QueryEmbeddingsOptions) (cacheKey : string)
    (queryVector : option Vector) (intent : jsval) : M (option CacheValue) :=
  await vectorResults <~ queryVectorStore "mongodb" queryVector (base options) in
  await found <~ match vectorResults with
                 | Some ms => ret ms
                 | None => throw (TypeError "Cannot read properties of undefined (reading 'matches')")
                 end in
  let contexts :=
    weightContextRelevance env query
      (map (fun m => mkRaw (default JUndefined (assoc "text" (metadata m)))
                           (default JUndefined (assoc "language" (metadata m)))
                           (score m))
           found) in
  await apiResults <~ (if default false (enableAPIQuery options)
                       then api "mockAPI" (payload_of query contexts)
                       else ret []) in
  await memory <~ call (GetMemory (userId options)) (getMemory env (userId options)) in
  await chatHistory <~ call (LoadMemoryVariables memory) (loadMemoryVariables env memory) in
  await historySummary <~ call (SummarizeChatHistory chatHistory)
                              (summarizeChatHistory env chatHistory) in
  let content := promptContent query intent historySummary contexts in
  run console_log "Chatbot input:" [JStr content] in
  await completion <~ retry_default (call (ChatCompletionsCreate (answerRequest content))
                                        (chatCompletionsCreate env (answerRequest content))) in
  await output <~ message_content completion in
  run call (SaveContext memory query output) (saveContext env memory query output) in
  let result := mkResponse contexts apiResults output in
  run (match messageId options with
       | Some id => if str_truthy id then messageCache_set id true else ret tt
       | None => ret tt
       end) in
  run cache_set cacheKey (Response result) cache_stdTTL in
  ret (Some (Response result)).

(** Lines 236 to 240: embedding, classification and the branch on the
    intent. *)
Definition answerQuery (api : string -> jsval -> M (list jsval))
    (query : string) (options : QueryEmbeddingsOptions) (cacheKey : string)
  : M (option CacheValue) :=
  await queryVector <~ retry_default (call (EmbedQuery query) (embedQuery env query)) in
  await intent <~ analyzeUserIntent query in
  await greeting <~ pureGreeting intent in
  if greeting then greetingBranch query
  else retrievalBranch api query options cacheKey queryVector intent.

(** The body of [queryEmbeddings]: lines 221 to 234, then the rest of the
    turn. *)
Definition queryEmbeddings_with (api : string -> jsval -> M (list jsval))
    (query : string) (options : QueryEmbeddingsOptions) : M (option CacheValue) :=
  let messageId := messageId options in
  await duplicate <~ seen messageId in
  if duplicate then
    run console_log ("Duplicate message detected: " +:+ default "undefined" messageId) [] in
    ret None
  else
  run console_log ("Query: " +:+ quoted query) [] in
  let cacheKey := cacheKey_of query options in
  await cachedResult <~ cache_get cacheKey in
  if from_option value_truthy false cachedResult then
    run console_log "Using cached result" [] in
    ret cachedResult
  else answerQuery api query options cacheKey.

Definition queryEmbeddings (query : string) (options : QueryEmbeddingsOptions)
  : M (option CacheValue) :=
  queryEmbeddings_with queryExternalAPI query options.

Definition getLastConversation (userId : string) : M (option CacheValue) :=
  cache_get ("lastConversation:" +:+ userId).

Definition setLastConversation (userId : string) (conversation : jsval) : M unit :=
  cache_set ("lastConversation:" +:+ userId) (Stored conversation) 86400.

End Service.

(** * Vocabulary of the properties *)

(** ** Retry schedule *)

Definition is_timeout (ev : Event) : bool :=
  match ev with
  | SetTimeout _ => true
  | _ => false
  end.

(** What [attempts] failed attempts from loop index [i] leave in the trace:
    the call, and between two calls the backoff sleep. *)
Fixpoint attempts_trace (ev : Event) (i : Z) (attempts : nat) : list Event :=
  match attempts with
  | O => []
  | S O => [ev]
  | S attempts' => ev :: SetTimeout (1000 * 2 ^ i) :: attempts_trace ev (i + 1) attempts'
  end.

(** The sleeps of the loop indices [i], [i + 1], ... *)
Fixpoint backoffs (i : Z) (count : nat) : list Z :=
  match count with
  | O => []
  | S count' => 1000 * 2 ^ i :: backoffs (i + 1) count'
  end.

(** Of an operation that fails at every attempt: [fn] runs from [w] and
    rejects; the loop sleeps for the first of [waits]; and so on, until the
    run after the last of [waits], which rejects with [e] and leaves [w']. *)
Inductive Exhausts {T : Type} (fn : M T) : World -> list Z -> Error -> World -> Prop :=
| Exhausts_last (w : World) (e : Error) (w' : World) :
    fn w = (Err e, w') ->
    Exhausts fn w [] e w'
| Exhausts_again (w : World) (e0 : Error) (w1 : World) (ms : Z) (waits : list Z)
    (e : Error) (w' : World) :
    fn w = (Err e0, w1) ->
    Exhausts fn (snd (sleep ms w1)) waits e w' ->
    Exhausts fn w (ms :: waits) e w'.

(** ** Score order *)

(** Descending score order. *)
Definition desc (a b : VectorSearchResult) : Prop := (score b <= score a)%Q.

(** The candidates: what the aggregation over the [docs] collection
    answered, in the shape [queryMongoCollection] gives them. *)
Definition candidates_of (docs : list Document) : list VectorSearchResult :=
  map (fun doc => mkResult (spread [("text", doc_text doc)] (doc_metadata doc)) (doc_score doc))
      docs.

(** ** Worlds and events *)

(** [w1] is [w] with more events in the trace, each satisfying [P], and both
    caches as they were. *)
Definition extends (P : Event -> Prop) (w w1 : World) : Prop :=
  cache w1 = cache w /\ messageCache w1 = messageCache w /\
  exists added, trace w1 = trace w ++ added /\ Forall P added.

Definition no_save (ev : Event) : Prop :=
  match ev with
  | SaveContext _ _ _ => False
  | _ => True
  end.

Definition is_log (ev : Event) : Prop :=
  match ev with
  | ConsoleLog _ _ => True
  | _ => False
  end.

(** An enrichment call that does no more than write to the console. *)
Definition api_quiet (api : string -> jsval -> M (list jsval)) : Prop :=
  forall name payload w r w1, api name payload w = (r, w1) -> extends is_log w w1.

(** The dedup entry the closing writes leave for [messageId]. *)
Definition marked (messageId : option string) (now : Z) (data : gmap string (bool * Z))
  : gmap string (bool * Z) :=
  match messageId with
  | Some id =>
      if str_truthy id then <[id := (true, NodeCache.livetime now messageCache_stdTTL)]> data
      else data
  | None => data
  end.

(** ** Console lines and the dedup cache *)

Definition dupMessage (id : string) : Event :=
  ConsoleLog ("Duplicate message detected: " +:+ id) [].

Definition queryMessage (query : string) : Event :=
  ConsoleLog ("Query: " +:+ quoted query) [].

Definition cachedMessage : Event := ConsoleLog "Using cached result" [].

(** [messageId] is marked seen in the dedup cache of [w] and its entry has
    not expired. *)
Definition marked_seen (w : World) (id : string) : Prop :=
  exists v t, messageCache w !! id = Some (v, t) /\ NodeCache.expired (now w) t = false.

(** The outcome [null]. *)
Definition returns_null (r : Outcome (option CacheValue)) : Prop :=
  r = Ok None \/ r = Ok (Some (Stored JNull)).

(** What the module keeps true of its dedup cache: the keys are message ids
    that passed the truthiness test of line 327 and the values are [true]. *)
Definition dedup_cache_ok (w : World) : Prop :=
  forall id v t, messageCache w !! id = Some (v, t) -> str_truthy id = true /\ v = true.

(** ** Intents and events of a turn *)

(** The intent [{isGreeting: true, hasQuestion: false, needsSupport: false}],
    whatever else the object holds. *)
Definition greeting_only (intent : jsval) : Prop :=
  exists props,
    intent = JObj props /\
    assoc "isGreeting" props = Some (JBool true) /\
    assoc "hasQuestion" props = Some (JBool false) /\
    assoc "needsSupport" props = Some (JBool false).

(** A vector-store query, an enrichment call, or a read or write of the
    conversation memory. *)
Definition retrieval_or_memory (ev : Event) : Prop :=
  match ev with
  | GetDb | Aggregate _ _ _ _ | PineconeQuery _ _
  | GetMemory _ | LoadMemoryVariables _ | SummarizeChatHistory _ | SaveContext _ _ _ => True
  | ConsoleLog message _ => message = "Calling API: mockAPI with payload:"
  | _ => False
  end.

(** ** Time *)

(** [d] milliseconds pass. *)
Definition elapse (d : Z) (w : World) : World :=
  mkWorld (now w + d) (trace w) (cache w) (messageCache w).

(** The worlds the module can be in: the first one, and those its three
    exported functions and the passing of time lead to. *)
Inductive Reachable : World -> Prop :=
| Reachable_initial : Reachable initial
| Reachable_turn (env : Collaborators) (query : string) (options : QueryEmbeddingsOptions)
    (w : World) :
    Reachable w -> Reachable (snd (queryEmbeddings env query options w))
| Reachable_set (userId : string) (conversation : jsval) (w : World) :
    Reachable w -> Reachable (snd (setLastConversation userId conversation w))
| Reachable_get (userId : string) (w : World) :
    Reachable w -> Reachable (snd (getLastConversation userId w))
| Reachable_elapse (d : Z) (w : World) :
    0 <= d -> Reachable w -> Reachable (elapse d w).

(** ** A scanner for serialized values

    To tell where one serialization ends inside a longer text, the text is
    read the way a JSON reader would: in or out of a string literal, and at
    which bracket depth. *)

Definition chars (s : string) : list ascii := list_ascii_of_string s.

Inductive mode : Type :=
| Outside
| Inside
| Escaped.

Definition is_quote (c : ascii) : bool := (nat_of_ascii c =? 34)%nat.
Definition is_backslash (c : ascii) : bool := (nat_of_ascii c =? 92)%nat.
Definition opens (c : ascii) : bool := Ascii.eqb c "{" || Ascii.eqb c "[".
Definition closes (c : ascii) : bool := Ascii.eqb c "}" || Ascii.eqb c "]".

(** The other characters a serialization has outside its string literals:
    separators, digits, and the letters of [true], [false] and [null]. *)
Definition plain (c : ascii) : bool :=
  existsb (Ascii.eqb c) (chars ",:-0123456789truefalsn").

Definition scan_char (m : mode) (depth : nat) (c : ascii) : option (mode * nat) :=
  match m with
  | Outside =>
      if is_quote c then Some (Inside, depth)
      else if opens c then Some (Outside, S depth)
      else if closes c then
        match depth with
        | O => None
        | S depth' => Some (Outside, depth')
        end
      else if plain c then Some (Outside, depth)
      else None
  | Inside =>
      if is_backslash c then Some (Escaped, depth)
      else if is_quote c then Some (Outside, depth)
      else Some (Inside, depth)
  | Escaped => Some (Inside, depth)
  end.

Fixpoint scan (m : mode) (depth : nat) (l : list ascii) : option (mode * nat) :=
  match l with
  | [] => Some (m, depth)
  | c :: rest =>
      match scan_char m depth c with
      | Some (m', depth') => scan m' depth' rest
      | None => None
      end
  end.

(** A text that leaves the scanner where it found it. *)
Definition balanced (l : list ascii) : Prop :=
  forall depth, scan Outside depth l = Some (Outside, depth).

Definition literal (l : list ascii) : Prop :=
  forall depth, scan Inside depth l = Some (Inside, depth).

(** The text of one property, when its value has one. *)
Definition property_text (kv : string * jsval) : option string :=
  match serialize (snd kv) with
  | Some s => Some (quote (fst kv) +:+ ":" +:+ s)
  | None => None
  end.

Definition typed_key (k : string) : Prop :=
  In k ["topK"; "enableAPIQuery"; "context"; "language"; "userId"; "messageId"].

Definition options_body (options : QueryEmbeddingsOptions) : string :=
  join "," (omap property_text (options_props options)).

(** ** What the collaborators did *)

Section Vocabulary.

Context (env : Collaborators).

(** A completion the turn can go on with: it has a first choice and, when
    it answers the classification request, the content of that choice parses
    to an intent whose properties can be read. *)
Definition usable (request : ChatRequest) (c : Completion) : Prop :=
  exists content,
    head (choices c) = Some content /\
    (json_object request = true ->
     exists intent,
       JSON_parse env (default "null" content) = Ok intent /\
       intent <> JNull /\ intent <> JUndefined).

(** The collaborator behind [ev] has answered at least once, a completion
    request with a completion the turn can go on with. *)
Definition answered (ev : Event) : Prop :=
  match ev with
  | EmbedQuery text => exists w0 v, embedQuery env text w0 = Ok v
  | ChatCompletionsCreate request =>
      exists w0 c, chatCompletionsCreate env request w0 = Ok c /\ usable request c
  | GetDb => exists w0 u, getDb env w0 = Ok u
  | Aggregate collection indexName queryVector k =>
      exists w0 docs, aggregate env collection indexName queryVector k w0 = Ok docs
  | GetMemory userId => exists w0 memory, getMemory env userId w0 = Ok memory
  | LoadMemoryVariables memory =>
      exists w0 chatHistory, loadMemoryVariables env memory w0 = Ok chatHistory
  | SummarizeChatHistory chatHistory =>
      exists w0 summary, summarizeChatHistory env chatHistory w0 = Ok summary
  | _ => True
  end.

(** The events of a turn that only greets. *)
Definition greeting_event (query : string) (ev : Event) : Prop :=
  ev = ConsoleLog ("Query: " +:+ quoted query) [] \/
  ev = EmbedQuery query \/
  ev = ChatCompletionsCreate (intentRequest query) \/
  ev = ChatCompletionsCreate (greetingRequest env query) \/
  is_timeout ev = true.

(** The turn got as far as [saveContext]: the events before it are calls
    that were answered, the answer is the first choice of a completion the
    model gave for the assembled prompt, and then either the save was
    accepted and both closing writes happened, the turn resolving, or the
    save or one of the writes threw; the dedup entry is written only once the
    save was accepted. *)
Definition Saved (api : string -> jsval -> M (list jsval)) (query : string)
    (options : QueryEmbeddingsOptions) (cacheKey : string)
    (w : World) (r : Outcome (option CacheValue)) (w' : World) : Prop :=
  exists w_s memory result content w0 c,
    extends (fun ev => no_save ev /\ answered ev) w w_s /\
    In (ChatCompletionsCreate (answerRequest env content))
       (drop (length (trace w)) (trace w_s)) /\
    chatCompletionsCreate env (answerRequest env content) w0 = Ok c /\
    head (choices c) = Some (answer result) /\
    (if default false (enableAPIQuery options)
     then exists payload wa wb, api "mockAPI" payload wa = (Ok (apiResults result), wb)
     else apiResults result = []) /\
    trace w' = trace w_s ++ [SaveContext memory query (answer result)] /\
    now w' = now w_s /\
    ((r = Ok (Some (Response result)) /\
      cache w' = <[cacheKey := (Response result, NodeCache.livetime (now w') cache_stdTTL)]>
                   (cache w) /\
      messageCache w' = marked (messageId options) (now w') (messageCache w) /\
      exists w0, saveContext env memory query (answer result) w0 = Ok tt) \/
     (exists e, r = Err e /\ cache w' = cache w /\
                (messageCache w' = messageCache w \/
                 (messageCache w' = marked (messageId options) (now w') (messageCache w) /\
                  exists w0, saveContext env memory query (answer result) w0 = Ok tt)))).

(** The stage behind [ev] fails at every attempt: its collaborator rejects
    or, for a completion request, answers with nothing the turn can go on
    with (no choice at all, or for the classification a content that does
    not parse, or parses to [null]). *)
Definition broken (ev : Event) : Prop :=
  match ev with
  | EmbedQuery text => forall w0, exists e, embedQuery env text w0 = Err e
  | ChatCompletionsCreate request =>
      forall w0 c, chatCompletionsCreate env request w0 = Ok c -> ~ usable request c
  | GetDb => forall w0, exists e, getDb env w0 = Err e
  | Aggregate collection indexName queryVector k =>
      forall w0, exists e, aggregate env collection indexName queryVector k w0 = Err e
  | GetMemory userId => forall w0, exists e, getMemory env userId w0 = Err e
  | LoadMemoryVariables memory => forall w0, exists e, loadMemoryVariables env memory w0 = Err e
  | SummarizeChatHistory chatHistory =>
      forall w0, exists e, summarizeChatHistory env chatHistory w0 = Err e
  | SaveContext memory input output =>
      forall w0, exists e, saveContext env memory input output w0 = Err e
  | _ => False
  end.

End Vocabulary.

(** * The claims the code departs from, as they are stated *)

Definition is_completion (ev : Event) : bool :=
  match ev with
  | ChatCompletionsCreate _ => true
  | _ => false
  end.

(** C1, as the claim states it: a turn that resolves to a response has
    stored it under the cache key, and a second call with the same query and
    options within the cache TTL returns that response and asks for no
    completion. *)
Definition idempotence_as_stated : Prop :=
  forall (env : Collaborators) (query : string) (options : QueryEmbeddingsOptions)
         (w w' : World) (v : CacheValue) (d : Z),
    queryEmbeddings env query options w = (Ok (Some v), w') ->
    0 <= d <= cache_stdTTL * 1000 ->
    (exists t, cache w' !! cacheKey_of query options = Some (v, t)) /\
    exists w2 logs,
      queryEmbeddings env query options (elapse d w') = (Ok (Some v), w2) /\
      trace w2 = trace w' ++ logs /\
      Forall (fun ev => is_completion ev = false) logs.

(** C9, as the claim states it. *)
Definition nonempty_answer_as_stated : Prop :=
  forall (env : Collaborators) (query : string) (options : QueryEmbeddingsOptions)
         (w w' : World) (response : QueryEmbeddingsResponse),
    queryEmbeddings env query options w = (Ok (Some (Response response)), w') ->
    exists s, answer response = Some s /\ s <> EmptyString.

(** C4, as the claim states it, for a finite requested [topK]. *)
Definition global_topK_as_stated : Prop :=
  forall (env : Collaborators) (queryVector : option Vector) (requested : Z) (w w' : World)
         (docs : list Document) (returned : list VectorSearchResult),
    aggregate env "docs" "vectorDocsIndex" queryVector (or5 (Some (Fin requested))) (log GetDb w)
      = Ok docs ->
    queryVectorStore env "mongodb" queryVector (mkStoreOptions (Some (Fin requested))) w
      = (Ok (Some returned), w') ->
    Z.of_nat (length returned) <= requested /\
    StronglySorted desc returned /\
    exists excluded,
      Permutation (candidates_of docs) (returned ++ excluded) /\
      forall a b, In a returned -> In b excluded -> desc a b.

(** C10, as the claim states it: with a count of 0 or less [retry] resolves
    to [undefined] and never invokes the operation, and so a retried stage
    of the module (the index query of line 128, the embedding of line 236,
    the generations of lines 241 and 301) can resolve to [undefined], which
    a caller at the public interface then receives. *)
Definition retry_without_attempts_as_stated : Prop :=
  (forall (T : Type) (fn : M T) (maxRetries : Z) (w : World),
     maxRetries <= 0 -> retry fn maxRetries w = (Ok None, w)) /\
  exists (env : Collaborators) (w w' : World),
    (exists k queryVector,
        retry_default (call (PineconeQuery k queryVector) (pineconeQuery env k queryVector)) w
          = (Ok None, w')) \/
    (exists query,
        retry_default (call (EmbedQuery query) (embedQuery env query)) w = (Ok None, w')) \/
    (exists request,
        retry_default (call (ChatCompletionsCreate request) (chatCompletionsCreate env request)) w
          = (Ok None, w')).

(** C6, as the claim states it. *)
Definition cache_key_injective_as_stated : Prop :=
  forall (query1 query2 : string) (options1 options2 : QueryEmbeddingsOptions),
    (query1, options1) <> (query2, options2) ->
    cacheKey_of query1 options1 <> cacheKey_of query2 options2.

(** * Test doubles

    Concrete collaborators on which the statements are exercised. *)

Definition greetingIntent : jsval :=
  JObj [("isGreeting", JBool true); ("hasQuestion", JBool false);
        ("needsSupport", JBool false); ("topic", JStr "none")].

Definition supportIntent : jsval :=
  JObj [("isGreeting", JBool false); ("hasQuestion", JBool false);
        ("needsSupport", JBool true); ("topic", JStr "payment")].

(** Parses the two texts the classifier double answers with. *)
Definition parse_double (s : string) : Outcome jsval :=
  if String.eqb s (stringify greetingIntent) then Ok greetingIntent
  else if String.eqb s (stringify supportIntent) then Ok supportIntent
  else Err (Thrown "SyntaxError" "Unexpected token").

Definition user_text (request : ChatRequest) : string :=
  match messages request with
  | [_; m] => default EmptyString (content m)
  | _ => EmptyString
  end.

(** Classifies ["hello"] as a pure greeting and anything else as a support
    request; answers every other request with [reply]. *)
Definition chat_double (reply : option string) (request : ChatRequest) (_ : World)
  : Outcome Completion :=
  if json_object request then
    if String.eqb (user_text request) "hello"
    then Ok (mkCompletion [Some (stringify greetingIntent)])
    else Ok (mkCompletion [Some (stringify supportIntent)])
  else Ok (mkCompletion [reply]).

Definition docs_double : list Document :=
  [ mkDocument (JStr "Refunds take five days") [("language", JStr "en")] (9 # 10);
    mkDocument (JStr "Pagamentos por cartao") [("language", JStr "pt")] (7 # 10) ].

Definition weigh_double (_ : string) (raw : list RawContext) : list Match :=
  map (fun r => mkMatch (raw_text r) (raw_language r) JUndefined JNull) raw.

Definition doubles (embed : string -> World -> Outcome Vector) (docs : list Document)
    (reply : option string) : Collaborators :=
  {| SYSTEM_PROMPT := Some "You are a support assistant.";
     embedQuery := embed;
     chatCompletionsCreate := chat_double reply;
     JSON_parse := parse_double;
     getDb := fun _ => Ok tt;
     aggregate := fun _ _ _ _ _ => Ok docs;
     pineconeQuery := fun _ _ _ => Ok [];
     weightContextRelevance := weigh_double;
     formatContexts := fun ms => join nl (map (fun m => stringify (text m)) ms);
     getMemory := fun uid _ => Ok (default "anonymous" uid);
     loadMemoryVariables := fun _ _ => Ok (JObj [("history", JStr EmptyString)]);
     saveContext := fun _ _ _ _ => Ok tt;
     summarizeChatHistory := fun _ _ => Ok "No previous conversation." |}.

Definition embed_double (_ : string) (_ : World) : Outcome Vector := Ok [1; 0]%Q.

Definition unavailable {A : Type} (_ : World) : Outcome A :=
  Err (Thrown "Error" "service unavailable").

(** Every collaborator answers. *)
Definition env0 : Collaborators := doubles embed_double docs_double (Some "Hi there!").

(** The model answers with the empty text. *)
Definition env_mute : Collaborators := doubles embed_double docs_double (Some EmptyString).

(** The embedding service is down. *)
Definition env_offline : Collaborators :=
  doubles (fun _ => unavailable) docs_double (Some "Hi there!").

(** The index answers with more documents than it was asked for, best last. *)
Definition env_unsorted : Collaborators :=
  doubles embed_double
    [ mkDocument (JStr "a") [] 1; mkDocument (JStr "b") [] 2; mkDocument (JStr "c") [] 9 ]
    (Some "Hi there!").

(** The classifier answers with a text that is not JSON. *)
Definition env_garbled : Collaborators :=
  {| SYSTEM_PROMPT := SYSTEM_PROMPT env0;
     embedQuery := embedQuery env0;
     chatCompletionsCreate := chatCompletionsCreate env0;
     JSON_parse := fun _ => Err (Thrown "SyntaxError" "Unexpected token h in JSON at position 0");
     getDb := getDb env0;
     aggregate := aggregate env0;
     pineconeQuery := pineconeQuery env0;
     weightContextRelevance := weightContextRelevance env0;
     formatContexts := formatContexts env0;
     getMemory := getMemory env0;
     loadMemoryVariables := loadMemoryVariables env0;
     saveContext := saveContext env0;
     summarizeChatHistory := summarizeChatHistory env0 |}.

Definition withMessageId (id : string) : QueryEmbeddingsOptions :=
  mkOptions (mkStoreOptions None) None None None None (Some id).

Definition withEnrichment : QueryEmbeddingsOptions :=
  mkOptions (mkStoreOptions None) (Some true) None None None None.

Definition withTopK (n : jsnum) : QueryEmbeddingsOptions :=
  mkOptions (mkStoreOptions (Some n)) None None None None None.

Definition refundResponse (results : list jsval) : QueryEmbeddingsResponse :=
  mkResponse
    [ mkMatch (JStr "Refunds take five days") (JStr "en") JUndefined JNull;
      mkMatch (JStr "Pagamentos por cartao") (JStr "pt") JUndefined JNull ]
    results (Some "Hi there!").

(** The world a first turn leaves, started in the world [initial]. *)
Definition after (env : Collaborators) (query : string) (options : QueryEmbeddingsOptions)
  : World :=
  snd (queryEmbeddings env query options initial).

(** * Vocabulary of the further properties *)

(** ** Retry *)

(** Of an operation that comes through: [fn] runs from [w] and rejects; the
    loop sleeps for the first of [waits]; and so on, until the run after the
    last of [waits], which resolves with [v] and leaves [w']. *)
Inductive Recovers {T : Type} (fn : M T) : World -> list Z -> T -> World -> Prop :=
| Recovers_now (w : World) (v : T) (w' : World) :
    fn w = (Ok v, w') ->
    Recovers fn w [] v w'
| Recovers_later (w : World) (e0 : Error) (w1 : World) (ms : Z) (waits : list Z)
    (v : T) (w' : World) :
    fn w = (Err e0, w1) ->
    Recovers fn (snd (sleep ms w1)) waits v w' ->
    Recovers fn w (ms :: waits) v w'.

(** An embedding service that is down until the clock reaches [ready]. *)
Definition embed_after (ready : Z) (_ : string) (w : World) : Outcome Vector :=
  if (now w <? ready)%Z then Err (Thrown "Error" "service unavailable") else Ok [1; 0]%Q.

(** ** Vector store *)

(** The results whose score is [q]. *)
Definition scored (q : Q) (result : VectorSearchResult) : Prop :=
  Qeq_bool (score result) q = true.

#[global] Instance scored_dec (q : Q) (result : VectorSearchResult) : Decision (scored q result).
Proof. unfold scored. apply _. Defined.

(** The index answers with two documents of the same score between two
    others, and with metadata that has a [text] of its own for one of them. *)
Definition env_ties : Collaborators :=
  doubles embed_double
    [ mkDocument (JStr "a") [] 1;
      mkDocument (JStr "b") [("text", JStr "from metadata"); ("language", JStr "en")] 2;
      mkDocument (JStr "c") [] 2;
      mkDocument (JStr "d") [] 9 ]
    (Some "Hi there!").

(** ** What a turn may call *)

(** Whatever [m] appends to the trace satisfies [P]. *)
Definition adds (P : Event -> Prop) {A : Type} (m : M A) : Prop :=
  forall w r w', m w = (r, w') -> exists added, trace w' = trace w ++ added /\ Forall P added.

(** The calls a turn for [query] and [options] can issue: the five console
    lines, sleeps of one or two seconds, the embedding of the query, the
    three completion requests, the database handle, the aggregation over the
    [docs] collection for a vector the embedding service answered, and the
    reads and the save of the conversation memory of [options.userId]. *)
Definition turn_event (env : Collaborators) (query : string)
    (options : QueryEmbeddingsOptions) (ev : Event) : Prop :=
  match ev with
  | ConsoleLog message args =>
      (message = "Duplicate message detected: " +:+ default "undefined" (messageId options)
       /\ args = []) \/
      (message = "Query: " +:+ quoted query /\ args = []) \/
      (message = "Using cached result" /\ args = []) \/
      (message = "Calling API: mockAPI with payload:"
       /\ exists contexts, args = [payload_of query contexts]) \/
      (message = "Chatbot input:" /\ exists content, args = [JStr content])
  | SetTimeout ms => ms = 1000 \/ ms = 2000
  | EmbedQuery text => text = query
  | ChatCompletionsCreate request =>
      request = intentRequest query \/ request = greetingRequest env query \/
      exists content, request = answerRequest env content
  | GetDb => True
  | Aggregate collection indexName queryVector k =>
      collection = "docs" /\ indexName = "vectorDocsIndex" /\
      k = or5 (topK (base options)) /\
      exists v w0, queryVector = Some v /\ embedQuery env query w0 = Ok v
  | PineconeQuery _ _ => False
  | GetMemory user => user = userId options
  | LoadMemoryVariables memory => exists w0, getMemory env (userId options) w0 = Ok memory
  | SummarizeChatHistory chatHistory =>
      exists memory w0, loadMemoryVariables env memory w0 = Ok chatHistory
  | SaveContext memory input output =>
      input = query /\ exists w0, getMemory env (userId options) w0 = Ok memory
  end.

(** ** The retrieval branch, call by call *)

(** The contexts a retrieval turn works with: the matches of the vector
    store, weighted. *)
Definition contexts_of (env : Collaborators) (query : string) (k : jsnum)
    (docs : list Document) : list Match :=
  weightContextRelevance env query
    (map (fun m => mkRaw (default JUndefined (assoc "text" (metadata m)))
                         (default JUndefined (assoc "language" (metadata m)))
                         (score m))
         (topResults_of k (candidates_of docs))).

(** The calls of a retrieval branch that gets to its end, in order;
    [attempts] counts the generation requests. *)
Definition retrieval_calls (env : Collaborators) (query : string)
    (options : QueryEmbeddingsOptions) (queryVector : option Vector) (contexts : list Match)
    (memory : MemoryHandle) (chatHistory : jsval) (content : string) (attempts : nat)
    (output : option string) : list Event :=
  [GetDb; Aggregate "docs" "vectorDocsIndex" queryVector (or5 (topK (base options)))] ++
  (if default false (enableAPIQuery options)
   then [ConsoleLog "Calling API: mockAPI with payload:" [payload_of query contexts]]
   else []) ++
  [ GetMemory (userId options); LoadMemoryVariables memory; SummarizeChatHistory chatHistory;
    ConsoleLog "Chatbot input:" [JStr content] ] ++
  attempts_trace (ChatCompletionsCreate (answerRequest env content)) 0 attempts ++
  [SaveContext memory query output].

(** A world whose result cache is full: 1000 entries that never expire. *)
Definition full_cache : gmap string (CacheValue * Z) :=
  list_to_map
    (map (fun n => (String (ascii_of_nat (n / 256))
                      (String (ascii_of_nat (n mod 256)) EmptyString),
                    (Stored JNull, 0)))
         (seq 0 1000)).

Definition full_world : World := mkWorld 0 [] full_cache ∅.

(** * Properties *)

(** ** Retry wrapper *)

Lemma attempts_trace_S ev i attempts :
  attempts_trace ev i (S (S attempts)) =
  ev :: SetTimeout (1000 * 2 ^ i) :: attempts_trace ev (i + 1) (S attempts).
Proof. reflexivity. Qed.

Lemma attempts_trace_calls ev i attempts :
  is_timeout ev = false ->
  filter (fun x => is_timeout x = false) (attempts_trace ev i attempts) = repeat ev attempts.
Proof.
  intros Hev. revert i. induction attempts as [|[|k] IH]; intros i.
  - reflexivity.
  - cbn. rewrite decide_True by done. reflexivity.
  - rewrite attempts_trace_S. rewrite filter_cons_True by done.
    rewrite filter_cons_False by (cbn; congruence).
    rewrite IH. reflexivity.
Qed.

Lemma attempts_trace_sleeps ev i attempts :
  is_timeout ev = false ->
  filter (fun x => is_timeout x = true) (attempts_trace ev i attempts) =
  map SetTimeout (backoffs i (pred attempts)).
Proof.
  intros Hev. revert i. induction attempts as [|[|k] IH]; intros i.
  - reflexivity.
  - cbn. rewrite decide_False by congruence. reflexivity.
  - rewrite attempts_trace_S. rewrite filter_cons_False by congruence.
    rewrite filter_cons_True by done.
    rewrite IH. reflexivity.
Qed.

Lemma backoffs_sum i count :
  0 <= i ->
  fold_right Z.add 0 (backoffs i count) = 1000 * 2 ^ i * (2 ^ Z.of_nat count - 1).
Proof.
  revert i. induction count as [|k IH]; intros i Hi.
  - cbn. lia.
  - cbn [backoffs fold_right]. rewrite IH by lia.
    rewrite Nat2Z.inj_succ, Z.pow_succ_r, Z.pow_add_r, Z.pow_1_r by lia. ring.
Qed.

(** Every attempt failing, the loop makes all the attempts that remain and
    rejects with what the last one raised. *)
Lemma retry_from_exhausts {T : Type} (ev : Event) (answer : World -> Outcome T) :
  (forall w, exists e, answer w = Err e) ->
  forall remaining i w,
    0 <= i ->
    exists w_last e,
      answer w_last = Err e /\
      retry_from (call ev answer) (i + Z.of_nat (S remaining)) i (S remaining) w
        = (Err e, log ev w_last) /\
      trace w_last ++ [ev] = trace w ++ attempts_trace ev i (S remaining) /\
      now w_last = now w + fold_right Z.add 0 (backoffs i remaining) /\
      cache w_last = cache w /\ messageCache w_last = messageCache w.
Proof.
  intros Hfail. induction remaining as [|k IH]; intros i w Hi.
  - destruct (Hfail w) as [e He]. exists w, e.
    cbn [retry_from]. unfold call at 1. rewrite He.
    replace (i =? i + Z.of_nat 1 - 1)%Z with true by (symmetry; apply Z.eqb_eq; lia).
    repeat split; cbn; try done; lia.
  - destruct (Hfail w) as [e0 He0].
    set (w1 := snd (sleep (1000 * 2 ^ i) (log ev w))).
    destruct (IH (i + 1) w1 ltac:(lia)) as (w_last & e & He & Hrun & Htr & Hnow & Hc & Hm).
    exists w_last, e. split; [exact He|].
    replace (i + Z.of_nat (S (S k))) with (i + 1 + Z.of_nat (S k)) by lia.
    split; [|split; [|split]].
    + cbn [retry_from]. unfold call at 1. rewrite He0.
      replace (i =? i + 1 + Z.of_nat (S k) - 1)%Z with false by (symmetry; apply Z.eqb_neq; lia).
      unfold bind at 1. cbn [sleep]. exact Hrun.
    + rewrite Htr, attempts_trace_S. subst w1. cbn.
      rewrite <- !app_assoc. reflexivity.
    + rewrite Hnow. subst w1. cbn. lia.
    + subst w1. cbn in Hc, Hm. done.
Qed.

Lemma retry_from_fails {T : Type} (fn : M T) :
  (forall w, exists e w1, fn w = (Err e, w1)) ->
  forall remaining i w,
    exists e w',
      retry_from fn (i + Z.of_nat (S remaining)) i (S remaining) w = (Err e, w') /\
      Exhausts fn w (backoffs i remaining) e w'.
Proof.
  intros Hfail. induction remaining as [|k IH]; intros i w.
  - destruct (Hfail w) as (e & w1 & He). exists e, w1.
    cbn [retry_from]. rewrite He.
    replace (i =? i + Z.of_nat 1 - 1)%Z with true by (symmetry; apply Z.eqb_eq; lia).
    split; [reflexivity|]. constructor. exact He.
  - destruct (Hfail w) as (e0 & w1 & He0).
    destruct (IH (i + 1) (snd (sleep (1000 * 2 ^ i) w1))) as (e & w' & Hrun & Hex).
    exists e, w'.
    replace (i + Z.of_nat (S (S k))) with (i + 1 + Z.of_nat (S k)) by lia.
    split.
    + cbn [retry_from]. rewrite He0.
      replace (i =? i + 1 + Z.of_nat (S k) - 1)%Z with false by (symmetry; apply Z.eqb_neq; lia).
      unfold bind at 1. cbn [sleep]. exact Hrun.
    + cbn [backoffs]. econstructor; [exact He0|exact Hex].
Qed.

(** C3. An operation that fails at every attempt is invoked [maxRetries]
    times: after the failed attempt number [i], the last one apart, [retry]
    sleeps [1000 * 2^i] ms, which makes the waits 1000, 2000, 4000, ...;
    after the last attempt it rejects with what that attempt raised. *)
Theorem retry_exhaustion {T : Type} (fn : M T) (maxRetries : Z) (w : World) :
  1 <= maxRetries ->
  (forall w0, exists e w1, fn w0 = (Err e, w1)) ->
  exists e w',
    retry fn maxRetries w = (Err e, w') /\
    Exhausts fn w (backoffs 0 (Z.to_nat (maxRetries - 1))) e w' /\
    S (length (backoffs 0 (Z.to_nat (maxRetries - 1)))) = Z.to_nat maxRetries.
Proof.
  intros Hn Hfail.
  destruct (retry_from_fails fn Hfail (Z.to_nat (maxRetries - 1)) 0 w) as (e & w' & Hrun & Hex).
  exists e, w'. split; [|split; [exact Hex|]].
  - unfold retry.
    replace (Z.to_nat maxRetries) with (S (Z.to_nat (maxRetries - 1))) by lia.
    replace maxRetries with (0 + Z.of_nat (S (Z.to_nat (maxRetries - 1)))) at 1 by lia.
    exact Hrun.
  - assert (Hlen : forall count i, length (backoffs i count) = count).
    { induction count as [|c IHc]; intros i; cbn; [reflexivity|]. rewrite IHc. reflexivity. }
    rewrite Hlen. lia.
Qed.

(** The same for a collaborator call, read off the trace: the call appears
    [maxRetries] times, with the sleeps between, and the clock has advanced
    by their sum. *)
Lemma retry_exhaustion_trace {T : Type} (ev : Event) (answer : World -> Outcome T)
    (maxRetries : Z) (w : World) :
  1 <= maxRetries ->
  is_timeout ev = false ->
  (forall w0, exists e, answer w0 = Err e) ->
  exists w_last e added,
    retry (call ev answer) maxRetries w = (Err e, log ev w_last) /\
    answer w_last = Err e /\
    trace (log ev w_last) = trace w ++ added /\
    added = attempts_trace ev 0 (Z.to_nat maxRetries) /\
    filter (fun x => is_timeout x = false) added = repeat ev (Z.to_nat maxRetries) /\
    filter (fun x => is_timeout x = true) added =
      map SetTimeout (backoffs 0 (Z.to_nat (maxRetries - 1))) /\
    now (log ev w_last) = now w + 1000 * (2 ^ (maxRetries - 1) - 1) /\
    cache (log ev w_last) = cache w /\
    messageCache (log ev w_last) = messageCache w.
Proof.
  intros Hn Hev Hfail.
  destruct (Z.to_nat maxRetries) as [|remaining] eqn:Hrem; [lia|].
  destruct (retry_from_exhausts ev answer Hfail remaining 0 w ltac:(lia))
    as (w_last & e & He & Hrun & Htr & Hnow & Hc & Hm).
  exists w_last, e, (attempts_trace ev 0 (S remaining)).
  assert (Hmax : maxRetries = 0 + Z.of_nat (S remaining)) by lia.
  split; [|split; [|split; [|split; [|split; [|split; [|split; [|split]]]]]]].
  - unfold retry. rewrite Hrem. rewrite Hmax at 1. exact Hrun.
  - exact He.
  - cbn. exact Htr.
  - reflexivity.
  - apply attempts_trace_calls, Hev.
  - rewrite attempts_trace_sleeps by exact Hev.
    replace (Z.to_nat (maxRetries - 1)) with remaining by lia. reflexivity.
  - cbn. rewrite Hnow, backoffs_sum by lia.
    replace (maxRetries - 1) with (Z.of_nat remaining) by lia. cbn. lia.
  - exact Hc.
  - exact Hm.
Qed.

(** While indices remain, the loop resolves only to a value the operation
    resolved to. *)
Lemma retry_from_defined {T : Type} (fn : M T) :
  forall remaining i w r w',
    retry_from fn (i + Z.of_nat (S remaining)) i (S remaining) w = (Ok r, w') ->
    exists v w0 w1, r = Some v /\ fn w0 = (Ok v, w1).
Proof.
  induction remaining as [|remaining IH]; intros i w r w' Hrun;
    cbn [retry_from] in Hrun; destruct (fn w) as [[v|e] w1] eqn:Hfn.
  - injection Hrun as <- <-. exists v, w, w1. split; [reflexivity|exact Hfn].
  - destruct (i =? i + Z.of_nat 1 - 1)%Z eqn:Hlast; [discriminate|].
    apply Z.eqb_neq in Hlast. lia.
  - injection Hrun as <- <-. exists v, w, w1. split; [reflexivity|exact Hfn].
  - destruct (i =? i + Z.of_nat (S (S remaining)) - 1)%Z; [discriminate|].
    unfold bind at 1 in Hrun. cbn [sleep] in Hrun.
    replace (i + Z.of_nat (S (S remaining))) with (i + 1 + Z.of_nat (S remaining)) in Hrun by lia.
    apply IH in Hrun. exact Hrun.
Qed.

Lemma retry_exhaustion_witness :
  exists e w',
    retry (call (EmbedQuery "hello") (@unavailable Vector)) 3 initial = (Err e, w') /\
    Exhausts (call (EmbedQuery "hello") (@unavailable Vector)) initial [1000; 2000] e w'.
Proof.
  destruct (retry_exhaustion (call (EmbedQuery "hello") (@unavailable Vector)) 3 initial)
    as (e & w' & Hrun & Hex & _).
  - lia.
  - intros w0. eexists _, _. reflexivity.
  - exists e, w'. split; [exact Hrun|exact Hex].
Defined.

Example retry_exhaustion_on_the_trace :
  retry (call (EmbedQuery "hello") (@unavailable Vector)) 3 initial
    = (Err (Thrown "Error" "service unavailable"),
       mkWorld 3000
         [ EmbedQuery "hello"; SetTimeout 1000; EmbedQuery "hello"; SetTimeout 2000;
           EmbedQuery "hello" ]
         ∅ ∅).
Proof. reflexivity. Qed.

(** ** Vector store adapter *)

Lemma desc_trans a b c : desc a b -> desc b c -> desc a c.
Proof. unfold desc. intros Hab Hbc. eapply Qle_trans; eassumption. Qed.

Lemma insert_by_score_perm x l : Permutation (insert_by_score x l) (x :: l).
Proof.
  induction l as [|y l IH]; cbn; [reflexivity|].
  destruct (Qle_bool (score y) (score x)); [reflexivity|].
  rewrite IH. apply perm_swap.
Qed.

Lemma sort_by_score_perm l : Permutation (sort_by_score l) l.
Proof.
  induction l as [|x l IH]; cbn; [reflexivity|].
  rewrite insert_by_score_perm, IH. reflexivity.
Qed.

Lemma insert_by_score_sorted x l :
  StronglySorted desc l -> StronglySorted desc (insert_by_score x l).
Proof.
  induction 1 as [|y l Hl IH Hy]; cbn.
  - repeat constructor.
  - destruct (Qle_bool (score y) (score x)) eqn:Hle.
    + apply Qle_bool_iff in Hle. constructor; [constructor; assumption|].
      constructor; [exact Hle|].
      eapply Forall_impl; [exact Hy|]. intros z Hz. eapply desc_trans; [exact Hle|exact Hz].
    + constructor; [exact IH|].
      assert (Hxy : desc y x).
      { unfold desc. destruct (Qlt_le_dec (score y) (score x)) as [Hlt|Hge]; [|exact Hge].
        apply Qlt_le_weak in Hlt. apply Qle_bool_iff in Hlt. congruence. }
      rewrite (insert_by_score_perm x l). constructor; assumption.
Qed.

Lemma sort_by_score_sorted l : StronglySorted desc (sort_by_score l).
Proof.
  induction l as [|x l IH]; cbn; [constructor|].
  apply insert_by_score_sorted, IH.
Qed.

Lemma sorted_split (l1 l2 : list VectorSearchResult) :
  StronglySorted desc (l1 ++ l2) ->
  StronglySorted desc l1 /\ forall a b, In a l1 -> In b l2 -> desc a b.
Proof.
  induction l1 as [|x l1 IH]; cbn; intros Hs.
  - split; [constructor|]. intros a b [].
  - apply StronglySorted_inv in Hs as [Hs Hx].
    destruct (IH Hs) as [Hl1 Hcross]. split.
    + constructor; [exact Hl1|]. apply Forall_app in Hx. apply Hx.
    + intros a b [<-|Ha] Hb.
      * rewrite Forall_forall in Hx. apply Hx. apply list_elem_of_In, in_or_app. right. exact Hb.
      * apply Hcross; assumption.
Qed.

Lemma filter_index_firstn {A : Type} (z : Z) (l : list A) (index : nat) :
  filter_index (fun i => index_le i (Fin z)) index l = firstn (Z.to_nat (z + 1) - index) l.
Proof.
  revert index. induction l as [|x l IH]; intros index; cbn [filter_index].
  - rewrite firstn_nil. reflexivity.
  - unfold index_le at 1. destruct (Z.of_nat index <=? z)%Z eqn:Hle.
    + apply Z.leb_le in Hle. rewrite IH.
      replace (Z.to_nat (z + 1) - index)%nat with (S (Z.to_nat (z + 1) - S index)) by lia.
      reflexivity.
    + apply Z.leb_gt in Hle. rewrite IH.
      replace (Z.to_nat (z + 1) - index)%nat with O by lia.
      replace (Z.to_nat (z + 1) - S index)%nat with O by lia.
      reflexivity.
Qed.

Lemma allResults_of_firstn (z : Z) (l : list VectorSearchResult) :
  allResults_of (Fin z) l = firstn (Z.to_nat (z + 1)) l.
Proof.
  unfold allResults_of. rewrite filter_index_firstn. f_equal. lia.
Qed.

Lemma topResults_of_length (z : Z) (l : list VectorSearchResult) :
  Z.of_nat (length (topResults_of (Fin z) l)) <= Z.max z 0.
Proof.
  unfold topResults_of, slice0. destruct (z <? 0)%Z eqn:Hz.
  - apply Z.ltb_lt in Hz. rewrite allResults_of_firstn.
    replace (Z.to_nat (z + 1)) with O by lia.
    cbn [firstn sort_by_score]. rewrite firstn_nil. cbn [length]. lia.
  - apply Z.ltb_ge in Hz. rewrite length_firstn. lia.
Qed.

Lemma topResults_of_firstn (k : Z) (candidates : list VectorSearchResult) :
  0 <= k ->
  topResults_of (Fin k) candidates
    = firstn (Z.to_nat k) (sort_by_score (firstn (Z.to_nat (k + 1)) candidates)).
Proof.
  intros Hk. unfold topResults_of, slice0. rewrite allResults_of_firstn.
  rewrite (proj2 (Z.ltb_ge _ _) Hk).
  set (sorted := sort_by_score _).
  destruct (Z.le_gt_cases k (Z.of_nat (length sorted))) as [Hle|Hgt].
  - rewrite Z.min_l by exact Hle. reflexivity.
  - rewrite Z.min_r by lia. rewrite Nat2Z.id.
    rewrite !firstn_all2 by lia. reflexivity.
Qed.

Lemma topResults_of_negative (k : Z) (candidates : list VectorSearchResult) :
  k < 0 -> topResults_of (Fin k) candidates = [].
Proof.
  intros Hk. unfold topResults_of. rewrite allResults_of_firstn.
  replace (Z.to_nat (k + 1)) with O by lia. cbn [firstn sort_by_score].
  unfold slice0. destruct (k <? 0)%Z; apply firstn_nil.
Qed.

(** What lines 157 to 160 return, for a finite limit [k]: as many results
    as there are candidates, up to [k] (none for a negative [k]), each of
    them a candidate, in descending score order, and the best [k] of the
    candidates when no more than [k + 1] of them came back. *)
Lemma topResults_of_spec (k : Z) (candidates : list VectorSearchResult) :
  let top := topResults_of (Fin k) candidates in
  Z.of_nat (length top) = Z.min (Z.max k 0) (Z.of_nat (length candidates)) /\
  StronglySorted desc top /\
  exists excluded,
    Permutation candidates (top ++ excluded) /\
    (Z.of_nat (length candidates) <= k + 1 ->
     forall a b, In a top -> In b excluded -> desc a b).
Proof.
  cbn zeta. destruct (Z.lt_ge_cases k 0) as [Hneg|Hpos].
  - rewrite topResults_of_negative by exact Hneg.
    split; [cbn [length]; lia|]. split; [constructor|].
    exists candidates. split; [reflexivity|]. intros _ a b [].
  - rewrite topResults_of_firstn by exact Hpos.
    set (considered := firstn (Z.to_nat (k + 1)) candidates).
    set (sorted := sort_by_score considered).
    assert (Hsorted : StronglySorted desc sorted) by apply sort_by_score_sorted.
    rewrite <- (firstn_skipn (Z.to_nat k) sorted) in Hsorted.
    apply sorted_split in Hsorted as [Htop Hcross].
    split; [|split; [exact Htop|]].
    + rewrite length_firstn. subst sorted.
      rewrite (Permutation_length (sort_by_score_perm considered)). subst considered.
      rewrite length_firstn. lia.
    + exists (skipn (Z.to_nat k) sorted ++ skipn (Z.to_nat (k + 1)) candidates). split.
      * rewrite app_assoc, firstn_skipn. subst sorted.
        rewrite (sort_by_score_perm considered). subst considered.
        rewrite firstn_skipn. reflexivity.
      * intros Hlen a b Ha Hb. rewrite (skipn_all2 candidates) in Hb by lia.
        rewrite app_nil_r in Hb. apply Hcross; assumption.
Qed.

Lemma map_result_id (l : list VectorSearchResult) :
  map (fun result => mkResult (metadata result) (score result)) l = l.
Proof.
  induction l as [|[m s] l IH]; cbn; [reflexivity|]. rewrite IH. reflexivity.
Qed.

Lemma queryVectorStore_mongodb (env : Collaborators) (queryVector : option Vector)
    (options : QueryVectorStoreOptions) (w : World) :
  queryVectorStore env "mongodb" queryVector options w =
  match getDb env w with
  | Err e => (Err e, log GetDb w)
  | Ok _ =>
      let k := or5 (topK options) in
      let w1 := log (Aggregate "docs" "vectorDocsIndex" queryVector k) (log GetDb w) in
      match aggregate env "docs" "vectorDocsIndex" queryVector k (log GetDb w) with
      | Err e => (Err e, w1)
      | Ok docs => (Ok (Some (topResults_of k (candidates_of docs))), w1)
      end
  end.
Proof.
  unfold queryVectorStore. cbn [String.eqb Ascii.eqb Bool.eqb].
  unfold bind at 1. unfold call at 1.
  destruct (getDb env w) as [[]|e]; [|reflexivity].
  unfold queryMongoCollection, bind, call.
  assert (Hk : or5 (Some (or5 (topK options))) = or5 (topK options)).
  { destruct options as [[n|]]; cbn; [|reflexivity].
    destruct (num_truthy n) eqn:Hn; cbn; [rewrite Hn|]; reflexivity. }
  rewrite Hk.
  destruct (aggregate env "docs" "vectorDocsIndex" queryVector (or5 (topK options)) (log GetDb w));
    [|reflexivity].
  unfold ret. rewrite map_result_id. reflexivity.
Qed.

(** C4, as the code has it. With [k] the limit in force, [topK || 5], the
    matches returned are as many as there are candidates, up to [k] (none
    for a negative [k]); each of them is a candidate; they stand in
    descending score order; and whenever at most [k + 1] candidates came
    back they are the [k] best: no candidate left out scores higher than a
    match returned. *)
Theorem global_topK (env : Collaborators) (queryVector : option Vector)
    (options : QueryVectorStoreOptions) (k : Z) (w w' : World)
    (returned : option (list VectorSearchResult)) :
  or5 (topK options) = Fin k ->
  queryVectorStore env "mongodb" queryVector options w = (Ok returned, w') ->
  exists docs top excluded,
    aggregate env "docs" "vectorDocsIndex" queryVector (Fin k) (log GetDb w) = Ok docs /\
    returned = Some top /\
    Z.of_nat (length top) = Z.min (Z.max k 0) (Z.of_nat (length (candidates_of docs))) /\
    StronglySorted desc top /\
    Permutation (candidates_of docs) (top ++ excluded) /\
    (Z.of_nat (length (candidates_of docs)) <= k + 1 ->
     forall a b, In a top -> In b excluded -> desc a b).
Proof.
  intros Hk Hrun. rewrite queryVectorStore_mongodb, Hk in Hrun.
  destruct (getDb env w) as [[]|e]; [|discriminate].
  lazy zeta in Hrun.
  destruct (aggregate env "docs" "vectorDocsIndex" queryVector (Fin k) (log GetDb w))
    as [docs|e]; [|discriminate].
  assert (Hret : returned = Some (topResults_of (Fin k) (candidates_of docs))) by congruence.
  clear Hrun.
  destruct (topResults_of_spec k (candidates_of docs)) as (Hlen & Hsorted & excluded & Hperm & Hbest).
  exists docs, (topResults_of (Fin k) (candidates_of docs)), excluded.
  split; [reflexivity|]. split; [exact Hret|].
  split; [exact Hlen|]. split; [exact Hsorted|]. split; [exact Hperm|exact Hbest].
Qed.

(** C4 fails as stated: asked for no match at all, the adapter falls back on
    five and returns the two documents the index holds. *)
Lemma global_topK_fails : ~ global_topK_as_stated.
Proof.
  intros H.
  destruct (H env0 None 0 initial
              (snd (queryVectorStore env0 "mongodb" None (mkStoreOptions (Some (Fin 0))) initial))
              docs_double (candidates_of docs_double))
    as [Hlen _]; [reflexivity|reflexivity|].
  cbn in Hlen. lia.
Qed.

Lemma global_topK_witness :
  exists top,
    fst (queryVectorStore env_unsorted "mongodb" None (mkStoreOptions (Some (Fin 3))) initial)
      = Ok (Some top) /\
    length top = 3%nat /\
    map score top = [9; 2; 1]%Q.
Proof.
  destruct (global_topK env_unsorted None (mkStoreOptions (Some (Fin 3))) 3 initial
              (snd (queryVectorStore env_unsorted "mongodb" None (mkStoreOptions (Some (Fin 3)))
                      initial))
              (Some (topResults_of (Fin 3) (candidates_of
                 [ mkDocument (JStr "a") [] 1; mkDocument (JStr "b") [] 2;
                   mkDocument (JStr "c") [] 9 ]))))
    as (docs & top & excluded & Hdocs & Htop & Hlen & _); [reflexivity|reflexivity|].
  injection Hdocs as <-. exists top. injection Htop as <-.
  split; [reflexivity|]. split; [|reflexivity].
  apply Nat2Z.inj. rewrite Hlen. reflexivity.
Defined.

(** The index filter of line 157 runs before the sort: with a limit of 1 and
    three candidates, the best of which comes last, that one is dropped and
    the second best returned. *)
Example index_filter_before_sort :
  exists top,
    fst (queryVectorStore env_unsorted "mongodb" None (mkStoreOptions (Some (Fin 1))) initial)
      = Ok (Some top) /\
    map score top = [2]%Q.
Proof. eexists. split; reflexivity. Qed.

(** ** The cache key *)

Lemma chars_append (a b : string) : chars (a +:+ b) = chars a ++ chars b.
Proof.
  unfold chars. induction a as [|c a IH]; [reflexivity|].
  change (c :: list_ascii_of_string (a +:+ b) = c :: list_ascii_of_string a ++ list_ascii_of_string b).
  f_equal. exact IH.
Qed.

Lemma chars_inj (a b : string) : chars a = chars b -> a = b.
Proof.
  intros H. rewrite <- (string_of_list_ascii_of_string a), <- (string_of_list_ascii_of_string b).
  unfold chars in H. rewrite H. reflexivity.
Qed.

Lemma scan_app m depth l1 l2 :
  scan m depth (l1 ++ l2) =
  match scan m depth l1 with
  | Some (m', depth') => scan m' depth' l2
  | None => None
  end.
Proof.
  revert m depth. induction l1 as [|c l1 IH]; intros m depth; cbn; [reflexivity|].
  destruct (scan_char m depth c) as [[m' depth']|]; [apply IH|reflexivity].
Qed.

(** Scanned from one level lower, a text either fails or ends one level
    lower. *)
Lemma scan_lower m depth l m' depth' :
  scan m (S depth) l = Some (m', depth') ->
  scan m depth l = None \/ exists d, depth' = S d /\ scan m depth l = Some (m', d).
Proof.
  revert m depth. induction l as [|c l IH]; intros m depth; cbn [scan].
  - intros [= <- <-]. right. exists depth. split; reflexivity.
  - destruct m; unfold scan_char.
    + destruct (is_quote c); [apply IH|].
      destruct (opens c); [apply IH|].
      destruct (closes c).
      * destruct depth as [|depth]; [intros _; left; reflexivity|apply IH].
      * destruct (plain c); [apply IH|discriminate].
    + destruct (is_backslash c); [apply IH|]. destruct (is_quote c); apply IH.
    + apply IH.
Qed.

Lemma balanced_nil : balanced [].
Proof. intros depth. reflexivity. Qed.

Lemma balanced_app l1 l2 : balanced l1 -> balanced l2 -> balanced (l1 ++ l2).
Proof. intros H1 H2 depth. rewrite scan_app, H1. apply H2. Qed.

Lemma literal_app l1 l2 : literal l1 -> literal l2 -> literal (l1 ++ l2).
Proof. intros H1 H2 depth. rewrite scan_app, H1. apply H2. Qed.

Lemma escape_char_literal c : literal (chars (escape_char c)).
Proof.
  intros depth. destruct c as [[] [] [] [] [] [] [] []]; reflexivity.
Qed.

Lemma escape_literal s : literal (chars (escape s)).
Proof.
  induction s as [|c s IH]; cbn [escape].
  - intros depth. reflexivity.
  - rewrite chars_append. apply literal_app; [apply escape_char_literal|exact IH].
Qed.

Lemma quote_balanced s : balanced (chars (quote s)).
Proof.
  intros depth. unfold quote. rewrite !chars_append, !scan_app.
  change (scan Outside depth (chars dq)) with (Some (Inside, depth)). cbv beta iota.
  rewrite scan_app, escape_literal. reflexivity.
Qed.

Lemma digits_balanced u : balanced (chars (NilEmpty.string_of_uint u)).
Proof.
  induction u; intros depth; cbn; try reflexivity; apply IHu.
Qed.

Lemma number_balanced n : balanced (chars (number n)).
Proof.
  destruct n as [z| | |]; try (intros depth; reflexivity).
  unfold number, NilZero.string_of_int, NilZero.string_of_uint.
  destruct (Z.to_int z) as [u|u]; destruct u; intros depth; cbn; try reflexivity;
    apply digits_balanced.
Qed.

Lemma join_balanced parts :
  Forall (fun p => balanced (chars p)) parts -> balanced (chars (join "," parts)).
Proof.
  induction 1 as [|p parts Hp Hparts IH]; [apply balanced_nil|].
  cbn [join]. destruct parts as [|p' parts]; [exact Hp|].
  rewrite !chars_append. apply balanced_app; [exact Hp|].
  apply balanced_app; [intros depth; reflexivity|exact IH].
Qed.

Lemma braces_balanced (opening closing : string) body :
  (forall depth, scan Outside depth (chars opening) = Some (Outside, S depth)) ->
  (forall depth, scan Outside (S depth) (chars closing) = Some (Outside, depth)) ->
  balanced (chars body) ->
  balanced (chars (opening +:+ body +:+ closing)).
Proof.
  intros Ho Hc Hb depth. rewrite !chars_append.
  rewrite scan_app, Ho. cbv beta iota. rewrite scan_app, Hb. apply Hc.
Qed.

Lemma jsval_nested_ind (P : jsval -> Prop) :
  P JUndefined -> P JNull -> (forall b, P (JBool b)) -> (forall n, P (JNum n)) ->
  (forall s, P (JStr s)) ->
  (forall elems, Forall P elems -> P (JArr elems)) ->
  (forall props, Forall (fun kv => P (snd kv)) props -> P (JObj props)) ->
  forall v, P v.
Proof.
  intros Hu Hn Hb Hnum Hs Ha Ho. fix IH 1. intros [| |b|n|s|elems|props].
  - exact Hu.
  - exact Hn.
  - apply Hb.
  - apply Hnum.
  - apply Hs.
  - apply Ha. induction elems as [|x elems IHl]; constructor; [apply IH|exact IHl].
  - apply Ho. induction props as [|[k x] props IHl]; constructor; [apply IH|exact IHl].
Qed.

Lemma serialize_balanced v : forall s, serialize v = Some s -> balanced (chars s).
Proof.
  induction v as [| |b|n|s'|elems IH|props IH] using jsval_nested_ind; cbn [serialize];
    intros s Hs; try discriminate; injection Hs as <-.
  - intros depth. reflexivity.
  - destruct b; intros depth; reflexivity.
  - apply number_balanced.
  - apply quote_balanced.
  - apply braces_balanced; try (intros depth; reflexivity).
    apply join_balanced. induction IH as [|x elems Hx _ IHl]; cbn; constructor; [|exact IHl].
    destruct (serialize x) as [sx|]; cbn; [apply Hx; reflexivity|intros depth; reflexivity].
  - apply braces_balanced; try (intros depth; reflexivity).
    apply join_balanced. induction IH as [|[k x] props Hx _ IHl]; cbn; [constructor|].
    cbn in Hx. destruct (serialize x) as [sx|]; cbn; [|exact IHl].
    constructor; [|exact IHl].
    rewrite !chars_append. apply balanced_app; [apply quote_balanced|].
    apply balanced_app; [intros depth; reflexivity|apply Hx; reflexivity].
Qed.

(** *** The keys of the options object *)

(** Outside a string literal, the name of an options property is no
    serialized text: the scanner stops in it. *)
Lemma typed_key_stops k depth rest :
  typed_key k -> scan Outside depth (chars (escape k) ++ rest) = None.
Proof.
  intros [<-|[<-|[<-|[<-|[<-|[<-|[]]]]]]]; reflexivity.
Qed.

Lemma join_head sep p parts :
  exists tail, chars (join sep (p :: parts)) = chars p ++ tail.
Proof.
  cbn [join]. destruct parts as [|p' parts].
  - exists []. symmetry. apply app_nil_r.
  - eexists. rewrite chars_append. reflexivity.
Qed.

(** The text between the braces of an object whose keys are typed: empty,
    or beginning with the quoted name of a key. *)
Lemma body_shape props :
  Forall (fun kv => typed_key (fst kv)) props ->
  chars (join "," (omap property_text props)) = [] \/
  exists k tail,
    typed_key k /\ chars (join "," (omap property_text props)) = chars (quote k) ++ tail.
Proof.
  induction 1 as [|[k x] props Hk _ IH]; [left; reflexivity|].
  cbn [omap list_omap]. destruct (property_text (k, x)) as [p|] eqn:Hp; [|exact IH].
  unfold property_text in Hp. cbn [fst snd] in Hp.
  destruct (serialize x) as [s|]; [|discriminate]. injection Hp as <-.
  right. destruct (join_head "," (quote k +:+ ":" +:+ s) (omap property_text props))
    as [tail Htail].
  exists k. eexists. split; [exact Hk|]. rewrite Htail, chars_append, <- app_assoc. reflexivity.
Qed.

Lemma options_props_typed options :
  Forall (fun kv => typed_key (fst kv)) (options_props options).
Proof. repeat constructor; unfold typed_key; cbn; tauto. Qed.

Lemma stringify_options options :
  stringify (options_object options) = "{" +:+ options_body options +:+ "}".
Proof. reflexivity. Qed.

Lemma properties_balanced props :
  balanced (chars (join "," (omap property_text props))).
Proof.
  apply join_balanced. induction props as [|[k x] props IH]; cbn [omap list_omap]; [constructor|].
  destruct (property_text (k, x)) as [p|] eqn:Hp; [|exact IH].
  unfold property_text in Hp. cbn [fst snd] in Hp.
  destruct (serialize x) as [s|] eqn:Hx; [|discriminate]. injection Hp as <-.
  constructor; [|exact IH]. rewrite !chars_append.
  apply balanced_app; [apply quote_balanced|].
  apply balanced_app; [intros depth; reflexivity|]. eapply serialize_balanced, Hx.
Qed.

Lemma options_body_balanced_at options :
  scan Outside 0 (chars (options_body options)) = Some (Outside, 0%nat).
Proof. apply properties_balanced. Qed.

Lemma stringify_options_balanced options :
  balanced (chars (stringify (options_object options))).
Proof. apply (serialize_balanced (options_object options)). reflexivity. Qed.

(** No serialized options object has, after its first character, a colon
    followed by a serialized options object. *)
Lemma no_options_inside (o1 o2 : QueryEmbeddingsOptions) (prefix : list ascii) :
  chars (stringify (options_object o2))
    = prefix ++ ":"%char :: chars (stringify (options_object o1)) ->
  False.
Proof.
  intros H.
  pose proof (stringify_options_balanced o2 O) as Hscan2.
  rewrite H in Hscan2.
  change (prefix ++ ":"%char :: ?l) with (prefix ++ [":"%char] ++ l) in Hscan2.
  rewrite app_assoc, scan_app in Hscan2.
  destruct (scan Outside 0 (prefix ++ [":"%char])) as [[m d]|] eqn:Hprefix; [|discriminate].
  rewrite !stringify_options, !chars_append in H.
  rewrite stringify_options, !chars_append in Hscan2.
  change (chars "{" ++ ?l) with ("{"%char :: l) in *.
  destruct m.
  - (* the inner text would start outside any literal *)
    pose proof (stringify_options_balanced o1 d) as Hscan1.
    rewrite stringify_options, !chars_append in Hscan1.
    change (chars "{" ++ ?l) with ("{"%char :: l) in Hscan1.
    rewrite Hscan1 in Hscan2. injection Hscan2 as ->.
    destruct prefix as [|c prefix]; [discriminate|].
    injection H as Hc H. subst c.
    assert (Hsplit : prefix ++ ":"%char :: "{"%char :: chars (options_body o1) ++ ["}"%char]
                     = ((prefix ++ [":"%char]) ++ "{"%char :: chars (options_body o1))
                         ++ ["}"%char])
      by (rewrite <- !app_assoc; reflexivity).
    rewrite Hsplit in H. apply app_inv_tail in H.
    cbn [app scan] in Hprefix.
    change (scan_char Outside 0 "{") with (Some (Outside, 1%nat)) in Hprefix.
    cbv beta iota in Hprefix.
    apply scan_lower in Hprefix as [Hnone|(d' & [=] & _)].
    pose proof (options_body_balanced_at o2) as Hbody.
    rewrite H, scan_app, Hnone in Hbody. discriminate.
  - (* the inner text would start inside a literal *)
    cbn [scan] in Hscan2.
    change (scan_char Inside d "{") with (Some (Inside, d)) in Hscan2. cbv beta iota in Hscan2.
    destruct (body_shape (options_props o1) (options_props_typed o1)) as [Hempty|(k & tail & Hk & Hshape)];
      fold (options_body o1) in *.
    + rewrite Hempty in Hscan2. discriminate.
    + rewrite Hshape in Hscan2. unfold quote in Hscan2.
      rewrite !chars_append, <- !app_assoc in Hscan2.
      change (chars dq ++ ?l) with ((ascii_of_nat 34) :: l) in Hscan2. cbn [scan] in Hscan2.
      change (scan_char Inside d (ascii_of_nat 34)) with (Some (Outside, d)) in Hscan2.
      cbv beta iota in Hscan2. rewrite typed_key_stops in Hscan2 by exact Hk. discriminate.
  - cbn [scan] in Hscan2.
    change (scan_char Escaped d "{") with (Some (Inside, d)) in Hscan2. cbv beta iota in Hscan2.
    destruct (body_shape (options_props o1) (options_props_typed o1)) as [Hempty|(k & tail & Hk & Hshape)];
      fold (options_body o1) in *.
    + rewrite Hempty in Hscan2. discriminate.
    + rewrite Hshape in Hscan2. unfold quote in Hscan2.
      rewrite !chars_append, <- !app_assoc in Hscan2.
      change (chars dq ++ ?l) with ((ascii_of_nat 34) :: l) in Hscan2. cbn [scan] in Hscan2.
      change (scan_char Inside d (ascii_of_nat 34)) with (Some (Outside, d)) in Hscan2.
      cbv beta iota in Hscan2. rewrite typed_key_stops in Hscan2 by exact Hk. discriminate.
Qed.

(** C6, as the code has it. The cache key is a function of the query text
    and of the text [JSON.stringify] gives for the options, and one to one in
    that pair: two requests have the same key exactly when they have the same
    query and their options serialize to the same text. *)
Theorem cache_key_injective_on_text (query1 query2 : string)
    (options1 options2 : QueryEmbeddingsOptions) :
  cacheKey_of query1 options1 = cacheKey_of query2 options2 <->
  query1 = query2 /\
  stringify (options_object options1) = stringify (options_object options2).
Proof.
  split; [|intros [-> Hs]; unfold cacheKey_of; rewrite Hs; reflexivity].
  unfold cacheKey_of. intros H. apply (f_equal chars) in H.
  pose proof (no_options_inside options1 options2) as Hno21.
  pose proof (no_options_inside options2 options1) as Hno12.
  remember (stringify (options_object options1)) as s1 eqn:Hs1.
  remember (stringify (options_object options2)) as s2 eqn:Hs2.
  clear Hs1 Hs2.
  rewrite !chars_append in H.
  change (chars ":" ++ ?l) with (":"%char :: l) in H.
  apply app_eq_app in H as [l [[H1 H2]|[H1 H2]]].
  - destruct l as [|c l].
    + rewrite app_nil_r in H1. cbn [app] in H2. injection H2 as H2.
      split; apply chars_inj; [exact H1|symmetry; exact H2].
    + cbn [app] in H2. injection H2 as <- H2. destruct (Hno21 _ H2).
  - destruct l as [|c l].
    + rewrite app_nil_r in H1. cbn [app] in H2. injection H2 as H2.
      split; apply chars_inj; [symmetry; exact H1|exact H2].
    + cbn [app] in H2. injection H2 as <- H2. destruct (Hno12 _ H2).
Qed.

(** C6 fails as stated: [JSON.stringify] prints [NaN] and [Infinity] alike,
    as [null], so the two option sets share a key, though the first makes the
    adapter ask for five matches and the second for all of them. *)
Lemma cache_key_collision : ~ cache_key_injective_as_stated.
Proof.
  intros H.
  apply (H "refund?" "refund?" (withTopK NaN) (withTopK PosInf)); [|reflexivity].
  intros [=].
Qed.

Example colliding_options_differ :
  cacheKey_of "refund?" (withTopK NaN) = "refund?:{" +:+ quoted "topK" +:+ ":null}" /\
  cacheKey_of "refund?" (withTopK PosInf) = "refund?:{" +:+ quoted "topK" +:+ ":null}" /\
  or5 (topK (base (withTopK NaN))) = Fin 5 /\
  or5 (topK (base (withTopK PosInf))) = PosInf.
Proof. repeat split. Qed.

(** ** What a stage may leave behind *)

Lemma extends_refl P w : extends P w w.
Proof.
  repeat split. exists []. split; [symmetry; apply app_nil_r|constructor].
Qed.

Lemma extends_trans P w w1 w2 : extends P w w1 -> extends P w1 w2 -> extends P w w2.
Proof.
  intros (Hc1 & Hm1 & a1 & Ht1 & Hf1) (Hc2 & Hm2 & a2 & Ht2 & Hf2).
  repeat split; [congruence|congruence|].
  exists (a1 ++ a2). split; [rewrite Ht2, Ht1, app_assoc; reflexivity|].
  apply Forall_app; split; assumption.
Qed.

Lemma extends_weaken (P Q : Event -> Prop) w w1 :
  (forall ev, P ev -> Q ev) -> extends P w w1 -> extends Q w w1.
Proof.
  intros HPQ (Hc & Hm & a & Ht & Hf). repeat split; [assumption|assumption|].
  exists a. split; [assumption|]. eapply Forall_impl; eassumption.
Qed.

Lemma extends_log (P : Event -> Prop) ev w : P ev -> extends P w (log ev w).
Proof.
  intros HP. repeat split. exists [ev]. split; [reflexivity|]. repeat constructor. exact HP.
Qed.

Lemma call_inv {A : Type} ev (answer : World -> Outcome A) w r w1 :
  call ev answer w = (r, w1) -> answer w = r /\ w1 = log ev w.
Proof. unfold call. intros H. injection H as <- <-. split; reflexivity. Qed.

Lemma bind_inv {A B : Type} (m : M A) (k : A -> M B) w r w' :
  bind m k w = (r, w') ->
  (exists e, m w = (Err e, w') /\ r = Err e) \/
  (exists a w1, m w = (Ok a, w1) /\ k a w1 = (r, w')).
Proof.
  unfold bind. destruct (m w) as [[a|e] w1]; intros H.
  - right. exists a, w1. split; [reflexivity|exact H].
  - left. injection H as <- <-. exists e. split; reflexivity.
Qed.

(** The retry loop over a collaborator call: only that call and sleeps are
    added to the trace, the call at least once, and what the loop settles to
    is what some attempt answered. It never resolves to [undefined] while
    attempts remain. *)
Lemma retry_from_call {T : Type} ev (answer : World -> Outcome T) :
  forall remaining i w r w1,
    retry_from (call ev answer) (i + Z.of_nat (S remaining)) i (S remaining) w = (r, w1) ->
    cache w1 = cache w /\ messageCache w1 = messageCache w /\
    (exists added,
        trace w1 = trace w ++ added /\ In ev added /\
        Forall (fun x => x = ev \/ is_timeout x = true) added) /\
    match r with
    | Ok (Some v) => exists w0, answer w0 = Ok v
    | Ok None => False
    | Err e => exists w0, answer w0 = Err e
    end.
Proof.
  assert (single_attempt : forall w (r : Outcome (option T)),
    match r with
    | Ok (Some v) => exists w0, answer w0 = Ok v
    | Ok None => False
    | Err e => exists w0, answer w0 = Err e
    end ->
    cache (log ev w) = cache w /\ messageCache (log ev w) = messageCache w /\
    (exists added,
        trace (log ev w) = trace w ++ added /\ In ev added /\
        Forall (fun x => x = ev \/ is_timeout x = true) added) /\
    match r with
    | Ok (Some v) => exists w0, answer w0 = Ok v
    | Ok None => False
    | Err e => exists w0, answer w0 = Err e
    end).
  { intros w r Hr. split; [reflexivity|]. split; [reflexivity|]. split; [|exact Hr].
    exists [ev]. split; [reflexivity|]. split; [left; reflexivity|].
    constructor; [left; reflexivity|constructor]. }
  induction remaining as [|k IH]; intros i w r w1 Hrun.
  - cbn [retry_from] in Hrun. unfold call at 1 in Hrun.
    destruct (answer w) as [v|e] eqn:Hans.
    + injection Hrun as <- <-. apply (single_attempt w (Ok (Some v))). exists w. exact Hans.
    + replace (i =? i + Z.of_nat 1 - 1)%Z with true in Hrun
        by (symmetry; apply Z.eqb_eq; lia).
      injection Hrun as <- <-. apply (single_attempt w (Err e)). exists w. exact Hans.
  - cbn [retry_from] in Hrun. unfold call at 1 in Hrun.
    destruct (answer w) as [v|e] eqn:Hans.
    + injection Hrun as <- <-. apply (single_attempt w (Ok (Some v))). exists w. exact Hans.
    + replace (i =? i + Z.of_nat (S (S k)) - 1)%Z with false in Hrun
        by (symmetry; apply Z.eqb_neq; lia).
      unfold bind at 1 in Hrun. cbn [sleep] in Hrun.
      replace (i + Z.of_nat (S (S k))) with (i + 1 + Z.of_nat (S k)) in Hrun by lia.
      apply IH in Hrun as (Hc & Hm & (added & Ht & Hin & Hall) & Hr).
      cbn in Hc, Hm, Ht. split; [exact Hc|]. split; [exact Hm|]. split; [|exact Hr].
      exists (ev :: SetTimeout (1000 * 2 ^ i) :: added). split; [|split].
      * rewrite Ht, <- !app_assoc. reflexivity.
      * left; reflexivity.
      * constructor; [left; reflexivity|]. constructor; [right; reflexivity|exact Hall].
Qed.

Lemma retry_default_call {T : Type} ev (answer : World -> Outcome T) w r w1 :
  retry_default (call ev answer) w = (r, w1) ->
  cache w1 = cache w /\ messageCache w1 = messageCache w /\
  (exists added,
      trace w1 = trace w ++ added /\ In ev added /\
      Forall (fun x => x = ev \/ is_timeout x = true) added) /\
  match r with
  | Ok (Some v) => exists w0, answer w0 = Ok v
  | Ok None => False
  | Err e => exists w0, answer w0 = Err e
  end.
Proof.
  unfold retry_default, retry. change (Z.to_nat 3) with 3%nat.
  change 3 with (0 + Z.of_nat 3) at 1. apply retry_from_call.
Qed.

(** ** The caches *)

Lemma get_subseteq {V : Type} now key (data data' : gmap string (V * Z)) r :
  NodeCache.get now key data = (r, data') -> data' ⊆ data.
Proof.
  unfold NodeCache.get. destruct (data !! key) as [[v t]|]; [destruct (NodeCache.expired now t)|];
    intros H; injection H as <- <-; try reflexivity.
  apply delete_subseteq.
Qed.

Lemma get_Some {V : Type} now key (data data' : gmap string (V * Z)) v :
  NodeCache.get now key data = (Some v, data') ->
  data' = data /\ exists t, data !! key = Some (v, t) /\ NodeCache.expired now t = false.
Proof.
  unfold NodeCache.get. destruct (data !! key) as [[v' t]|]; [|discriminate].
  destruct (NodeCache.expired now t) eqn:Hexp; [discriminate|].
  intros H; injection H as <- <-. split; [reflexivity|]. exists t. split; [reflexivity|exact Hexp].
Qed.

Lemma get_live {V : Type} now key (data : gmap string (V * Z)) v t :
  data !! key = Some (v, t) -> NodeCache.expired now t = false ->
  NodeCache.get now key data = (Some v, data).
Proof. unfold NodeCache.get. intros -> ->. reflexivity. Qed.

Lemma get_None {V : Type} now key (data data' : gmap string (V * Z)) :
  NodeCache.get now key data = (None, data') ->
  forall v t, data !! key = Some (v, t) -> NodeCache.expired now t = true.
Proof.
  unfold NodeCache.get. intros H v t Hl. rewrite Hl in H.
  destruct (NodeCache.expired now t); [reflexivity|discriminate].
Qed.

Section Stages.

Context (env : Collaborators).

(** ** The stages of a turn *)

Lemma greeting_event_no_save query ev : greeting_event env query ev -> no_save ev.
Proof.
  intros [->|[->|[->|[->|H]]]]; cbn; try exact I.
  destruct ev; cbn in *; try exact I; discriminate.
Qed.

Lemma timeout_answered ev : is_timeout ev = true -> answered env ev.
Proof. destruct ev; cbn; try discriminate. intros _. exact I. Qed.

Lemma timeout_no_save ev : is_timeout ev = true -> no_save ev.
Proof. destruct ev; cbn; try discriminate. intros _. exact I. Qed.

Lemma log_answered ev : is_log ev -> answered env ev.
Proof. destruct ev; cbn; try contradiction. intros _. exact I. Qed.

Lemma log_no_save ev : is_log ev -> no_save ev.
Proof. destruct ev; cbn; try contradiction. intros _. exact I. Qed.

Lemma message_content_inv completion w r w1 :
  message_content completion w = (r, w1) ->
  w1 = w /\
  forall content, r = Ok content ->
    exists c, completion = Some c /\ head (choices c) = Some content.
Proof.
  unfold message_content, throw, ret.
  destruct completion as [c|]; [destruct (choices c) as [|first rest] eqn:Hc|];
    intros H; injection H as <- <-; (split; [reflexivity|]); intros content Hr;
    try discriminate.
  injection Hr as <-. exists c. split; [reflexivity|]. rewrite Hc. reflexivity.
Qed.

Lemma get_prop_inv v k w r w1 : get_prop v k w = (r, w1) -> w1 = w.
Proof.
  unfold get_prop, throw, ret. destruct v; intros H; injection H as <- <-; reflexivity.
Qed.

Lemma pureGreeting_inv intent w r w1 : pureGreeting intent w = (r, w1) -> w1 = w.
Proof.
  unfold pureGreeting. intros H.
  apply bind_inv in H as [(e & H1 & ->)|(g & w2 & H1 & H)];
    apply get_prop_inv in H1; subst; [reflexivity|].
  destruct (truthy g); [|injection H as <- <-; reflexivity].
  apply bind_inv in H as [(e & H1 & ->)|(h & w2 & H1 & H)];
    apply get_prop_inv in H1; subst; [reflexivity|].
  destruct (negb (truthy h)); [|injection H as <- <-; reflexivity].
  apply bind_inv in H as [(e & H1 & ->)|(n & w2 & H1 & H)];
    apply get_prop_inv in H1; subst; [reflexivity|].
  injection H as <- <-; reflexivity.
Qed.

Lemma analyzeUserIntent_inv query w r w1 :
  analyzeUserIntent env query w = (r, w1) ->
  w1 = log (ChatCompletionsCreate (intentRequest query)) w /\
  forall intent, r = Ok intent ->
    exists c content,
      chatCompletionsCreate env (intentRequest query) w = Ok c /\
      head (choices c) = Some content /\
      JSON_parse env (default "null" content) = Ok intent.
Proof.
  unfold analyzeUserIntent. intros H.
  apply bind_inv in H as [(e & H1 & ->)|(c & w2 & H1 & H)];
    apply call_inv in H1 as [Hans ->]; [split; [reflexivity|discriminate]|].
  apply bind_inv in H as [(e & H1 & ->)|(content & w2 & H1 & H)];
    apply message_content_inv in H1 as [-> Hcontent]; [split; [reflexivity|discriminate]|].
  unfold lift in H. injection H as <- <-. split; [reflexivity|].
  intros intent Hparse.
  destruct (Hcontent content eq_refl) as (c' & Hc' & Hhead). injection Hc' as <-.
  exists c, content. split; [exact Hans|]. split; [exact Hhead|exact Hparse].
Qed.

(** [intent.isGreeting] throws on [null] and [undefined]. *)
Lemma pureGreeting_ok intent w greeting w1 :
  pureGreeting intent w = (Ok greeting, w1) -> intent <> JNull /\ intent <> JUndefined.
Proof.
  intros H. split; intros ->; cbn in H; discriminate H.
Qed.

(** Lines 241 to 260. *)
Lemma greetingBranch_inv query w r w1 :
  greetingBranch env query w = (r, w1) ->
  extends (fun ev => greeting_event env query ev /\ (forall v, r = Ok v -> answered env ev)) w w1 /\
  forall v, r = Ok v ->
    exists content w0 c,
      v = Some (Response (mkResponse [] [] content)) /\
      chatCompletionsCreate env (greetingRequest env query) w0 = Ok c /\
      head (choices c) = Some content /\
      In (ChatCompletionsCreate (greetingRequest env query)) (drop (length (trace w)) (trace w1)).
Proof.
  unfold greetingBranch. intros H.
  apply bind_inv in H as [(e & H1 & ->)|(completion & w2 & H1 & H)];
    apply retry_default_call in H1 as (Hc & Hm & (added & Ht & Hin & Hall) & Hr).
  - split; [|discriminate]. split; [exact Hc|]. split; [exact Hm|].
    exists added. split; [exact Ht|]. eapply Forall_impl; [exact Hall|].
    intros ev [->|Hto]; (split; [|discriminate]); unfold greeting_event; tauto.
  - destruct completion as [c|]; [|contradiction]. destruct Hr as [w0 Hw0].
    assert (Hw : w1 = w2).
    { apply bind_inv in H as [(e & H1 & ->)|(content & w3 & H1 & H)];
        apply message_content_inv in H1 as [-> _]; [reflexivity|].
      injection H as _ <-. reflexivity. }
    subst w1. split.
    + split; [exact Hc|]. split; [exact Hm|].
      exists added. split; [exact Ht|]. eapply Forall_impl; [exact Hall|].
      intros ev [->|Hto]; split; try (unfold greeting_event; tauto).
      * intros v ->.
        apply bind_inv in H as [(e & _ & [=])|(content & w3 & H1 & _)].
        apply message_content_inv in H1 as [_ Hcontent].
        destruct (Hcontent content eq_refl) as (c' & Hc' & Hhead). injection Hc' as <-.
        exists w0, c. split; [exact Hw0|]. exists content. split; [exact Hhead|].
        intros Hjson. discriminate Hjson.
      * intros _ _. apply timeout_answered, Hto.
    + intros v ->.
      apply bind_inv in H as [(e & H1 & Hr)|(content & w3 & H1 & H)]; [discriminate|].
      apply message_content_inv in H1 as [-> Hcontent].
      destruct (Hcontent content eq_refl) as (c' & Hc' & Hhead). injection Hc' as <-.
      injection H as <-. exists content, w0, c.
      split; [reflexivity|]. split; [exact Hw0|]. split; [exact Hhead|].
      rewrite Ht, drop_app_length. exact Hin.
Qed.

Lemma extends_then_log (P : Event -> Prop) w w1 ev :
  extends P w w1 -> P ev -> extends P w (log ev w1).
Proof. intros H HP. eapply extends_trans; [exact H|]. apply extends_log, HP. Qed.

Lemma extends_no_save w w1 :
  extends (fun ev => no_save ev /\ answered env ev) w w1 -> extends no_save w w1.
Proof. apply extends_weaken. intros ev [Hn _]. exact Hn. Qed.

(** Lines 263 to 332: either the branch rejects before the memory save,
    or it gets as far as [saveContext], whose event then closes the trace. *)
Lemma retrievalBranch_inv api query options cacheKey queryVector intent w r w' :
  api_quiet api ->
  retrievalBranch env api query options cacheKey queryVector intent w = (r, w') ->
  (exists e, r = Err e /\ extends no_save w w') \/
  Saved env api query options cacheKey w r w'.
Proof.
  intros Hapi H. unfold Saved. unfold retrievalBranch in H.
  (* retrieval *)
  apply bind_inv in H as [(e & H1 & ->)|(vr & w1 & H1 & H)];
    rewrite queryVectorStore_mongodb in H1.
  { left. exists e. split; [reflexivity|].
    destruct (getDb env w) as [u|e0].
    - cbn zeta in H1.
      destruct (aggregate env "docs" "vectorDocsIndex" queryVector (or5 (topK (base options)))
                  (log GetDb w)); [discriminate|].
      injection H1 as _ <-. apply extends_then_log; [apply extends_log|]; exact I.
    - injection H1 as _ <-. apply extends_log; exact I. }
  destruct (getDb env w) as [u|e0] eqn:Hdb; [|discriminate]. cbn zeta in H1.
  destruct (aggregate env "docs" "vectorDocsIndex" queryVector (or5 (topK (base options)))
              (log GetDb w)) as [docs|e1] eqn:Hagg; [|discriminate].
  injection H1 as <- <-.
  assert (Hext : extends (fun ev => no_save ev /\ answered env ev) w
                   (log (Aggregate "docs" "vectorDocsIndex" queryVector (or5 (topK (base options))))
                        (log GetDb w))).
  { apply extends_then_log; [apply extends_log|]; (split; [exact I|]).
    - exists w, u. exact Hdb.
    - exists (log GetDb w), docs. exact Hagg. }
  clear Hdb Hagg.
  set (w1 := log _ (log GetDb w)) in *. clearbody w1.
  apply bind_inv in H as [(e & H1 & ->)|(found & w2 & H1 & H)]; [discriminate|].
  injection H1 as <- <-.
  set (contexts := weightContextRelevance env query _) in H. clearbody contexts.
  (* enrichment *)
  apply bind_inv in H as [(e & H1 & ->)|(results & w2 & H1 & H)].
  { left. exists e. split; [reflexivity|].
    eapply extends_trans; [apply extends_no_save, Hext|].
    destruct (default false (enableAPIQuery options)); [|discriminate].
    eapply extends_weaken; [|eapply Hapi; exact H1]. apply log_no_save. }
  assert (Hresults : if default false (enableAPIQuery options)
                     then exists payload wa wb, api "mockAPI" payload wa = (Ok results, wb)
                     else results = []).
  { destruct (default false (enableAPIQuery options)); [eauto|].
    injection H1 as <- _. reflexivity. }
  assert (Hext2 : extends (fun ev => no_save ev /\ answered env ev) w w2).
  { eapply extends_trans; [exact Hext|].
    destruct (default false (enableAPIQuery options)).
    - eapply extends_weaken; [|eapply Hapi; exact H1].
      intros ev Hev. split; [apply log_no_save|apply log_answered]; exact Hev.
    - injection H1 as _ <-. apply extends_refl. }
  clear Hext H1 w1.
  (* memory *)
  apply bind_inv in H as [(e & H1 & ->)|(memory & w3 & H1 & H)];
    apply call_inv in H1 as [Hmemory ->].
  { left. exists e. split; [reflexivity|]. apply extends_then_log; [|exact I].
    apply extends_no_save, Hext2. }
  apply bind_inv in H as [(e & H1 & ->)|(chatHistory & w3 & H1 & H)];
    apply call_inv in H1 as [Hhistory ->].
  { left. exists e. split; [reflexivity|]. do 2 (apply extends_then_log; [|exact I]).
    apply extends_no_save, Hext2. }
  apply bind_inv in H as [(e & H1 & ->)|(historySummary & w3 & H1 & H)];
    apply call_inv in H1 as [Hsummary ->].
  { left. exists e. split; [reflexivity|]. do 3 (apply extends_then_log; [|exact I]).
    apply extends_no_save, Hext2. }
  cbn zeta in H.
  set (content := promptContent env query intent historySummary contexts) in *.
  clearbody content.
  apply bind_inv in H as [(e & H1 & ->)|([] & w3 & H1 & H)]; [discriminate|].
  injection H1 as <-.
  assert (Hext3 : extends (fun ev => no_save ev /\ answered env ev) w
                    (log (ConsoleLog "Chatbot input:" [JStr content])
                      (log (SummarizeChatHistory chatHistory)
                        (log (LoadMemoryVariables memory)
                          (log (GetMemory (userId options)) w2))))).
  { apply extends_then_log; [|split; exact I].
    apply extends_then_log; [|split; [exact I|eexists _, _; exact Hsummary]].
    apply extends_then_log; [|split; [exact I|eexists _, _; exact Hhistory]].
    apply extends_then_log; [|split; [exact I|eexists _, _; exact Hmemory]].
    exact Hext2. }
  clear Hext2 Hmemory Hhistory Hsummary.
  set (w3 := log (ConsoleLog _ _) _) in *. clearbody w3. clear w2.
  (* generation *)
  apply bind_inv in H as [(e & H1 & ->)|(completion & w4 & H1 & H)];
    apply retry_default_call in H1 as (Hc & Hm & (added & Ht & Hin & Hall) & Hr).
  { left. exists e. split; [reflexivity|].
    eapply extends_trans; [apply extends_no_save, Hext3|].
    split; [exact Hc|]. split; [exact Hm|]. exists added. split; [exact Ht|].
    eapply Forall_impl; [exact Hall|]. intros ev [->|Hto]; [exact I|apply timeout_no_save, Hto]. }
  destruct completion as [c|]; [|contradiction]. destruct Hr as [w0 Hw0].
  assert (Hchat : In (ChatCompletionsCreate (answerRequest env content))
                     (drop (length (trace w)) (trace w4))).
  { destruct Hext3 as (_ & _ & added3 & Ht3 & _).
    rewrite Ht, Ht3, <- app_assoc, drop_app_length. apply in_or_app. right. exact Hin. }
  apply bind_inv in H as [(e & H1 & ->)|(output & w5 & H1 & H)];
    apply message_content_inv in H1 as [-> Hcontent].
  { left. exists e. split; [reflexivity|].
    eapply extends_trans; [apply extends_no_save, Hext3|].
    split; [exact Hc|]. split; [exact Hm|]. exists added. split; [exact Ht|].
    eapply Forall_impl; [exact Hall|]. intros ev [->|Hto]; [exact I|apply timeout_no_save, Hto]. }
  destruct (Hcontent output eq_refl) as (c' & Hc' & Hhead). injection Hc' as <-.
  clear Hcontent.
  assert (Hext4 : extends (fun ev => no_save ev /\ answered env ev) w w4).
  { eapply extends_trans; [exact Hext3|].
    split; [exact Hc|]. split; [exact Hm|]. exists added. split; [exact Ht|].
    eapply Forall_impl; [exact Hall|]. intros ev [->|Hto].
    - split; [exact I|]. exists w0, c. split; [exact Hw0|].
      exists output. split; [exact Hhead|]. intros Hjson. discriminate Hjson.
    - split; [apply timeout_no_save|apply timeout_answered]; exact Hto. }
  clear Hext3 Hc Hm Ht Hin Hall added w3.
  (* the memory save and the closing writes *)
  right.
  exists w4, memory, (mkResponse contexts results output), content, w0, c.
  split; [exact Hext4|]. split; [exact Hchat|]. split; [exact Hw0|]. split; [exact Hhead|].
  split; [exact Hresults|].
  destruct Hext4 as (Hc4 & Hm4 & _).
  apply bind_inv in H as [(e & H1 & ->)|([] & w5 & H1 & H)];
    apply call_inv in H1 as [Hsave ->].
  { split; [reflexivity|]. split; [reflexivity|]. right. exists e.
    split; [reflexivity|]. split; [exact Hc4|]. left. exact Hm4. }
  cbn zeta in H.
  apply bind_inv in H as [(e & H1 & ->)|([] & w5 & H1 & H)].
  { assert (Hw : w' = log (SaveContext memory query output) w4).
    { destruct (messageId options) as [id|]; [destruct (str_truthy id)|]; try discriminate.
      unfold messageCache_set in H1.
      destruct (NodeCache.set _ _ _ _ _ _); [discriminate|]. injection H1 as _ <-. reflexivity. }
    subst w'. split; [reflexivity|]. split; [reflexivity|]. right. exists e.
    split; [reflexivity|]. split; [exact Hc4|]. left. exact Hm4. }
  assert (Hw5 : w5 = mkWorld (now w4) (trace w4 ++ [SaveContext memory query output]) (cache w4)
                       (marked (messageId options) (now w4) (messageCache w4))).
  { unfold marked. destruct (messageId options) as [id|]; [destruct (str_truthy id)|];
      try (injection H1 as <-; reflexivity).
    unfold messageCache_set, NodeCache.set in H1. cbn [log now trace cache messageCache] in H1.
    destruct (_ && _); [discriminate|]. injection H1 as <-. reflexivity. }
  clear H1. subst w5.
  apply bind_inv in H as [(e & H1 & ->)|([] & w5 & H1 & H)].
  { unfold cache_set, NodeCache.set in H1. cbn [now trace cache messageCache] in H1.
    destruct (_ && _); [|discriminate]. injection H1 as _ <-. cbn.
    split; [reflexivity|]. split; [reflexivity|]. right. exists e.
    split; [reflexivity|]. split; [exact Hc4|]. right. rewrite Hm4.
    split; [reflexivity|]. exists w4. exact Hsave. }
  unfold cache_set, NodeCache.set in H1. cbn [now trace cache messageCache] in H1.
  destruct (_ && _); [discriminate|]. injection H1 as <-.
  injection H as <- <-. cbn.
  split; [reflexivity|]. split; [reflexivity|]. left.
  split; [reflexivity|]. rewrite Hc4, Hm4. split; [reflexivity|].
  split; [reflexivity|]. exists w4. exact Hsave.
Qed.

(** Lines 236 to 332. *)
Lemma answerQuery_inv api query options cacheKey w r w' :
  api_quiet api ->
  answerQuery env api query options cacheKey w = (r, w') ->
  (exists e, r = Err e /\ extends no_save w w') \/
  (exists content w0 c intent wi,
      r = Ok (Some (Response (mkResponse [] [] content))) /\
      extends (fun ev => greeting_event env query ev /\ answered env ev) w w' /\
      chatCompletionsCreate env (greetingRequest env query) w0 = Ok c /\
      head (choices c) = Some content /\
      In (ChatCompletionsCreate (greetingRequest env query))
         (drop (length (trace w)) (trace w')) /\
      fst (analyzeUserIntent env query wi) = Ok intent /\
      fst (pureGreeting intent wi) = Ok true) \/
  (exists w_r intent wi,
      extends (fun ev => greeting_event env query ev /\ answered env ev) w w_r /\
      fst (analyzeUserIntent env query wi) = Ok intent /\
      fst (pureGreeting intent wi) = Ok false /\
      Saved env api query options cacheKey w_r r w').
Proof.
  intros Hapi H. unfold answerQuery in H.
  (* embedding *)
  apply bind_inv in H as [(e & H1 & ->)|(queryVector & w1 & H1 & H)];
    apply retry_default_call in H1 as (Hc & Hm & (added & Ht & Hin & Hall) & Hr).
  { left. exists e. split; [reflexivity|].
    split; [exact Hc|]. split; [exact Hm|]. exists added. split; [exact Ht|].
    eapply Forall_impl; [exact Hall|]. intros ev [->|Hto]; [exact I|apply timeout_no_save, Hto]. }
  assert (Hext : extends (fun ev => greeting_event env query ev /\ answered env ev) w w1).
  { split; [exact Hc|]. split; [exact Hm|]. exists added. split; [exact Ht|].
    eapply Forall_impl; [exact Hall|]. intros ev [->|Hto].
    - split; [unfold greeting_event; tauto|].
      destruct queryVector as [v|]; [|contradiction]. destruct Hr as [w0 Hw0].
      exists w0, v. exact Hw0.
    - split; [unfold greeting_event; tauto|apply timeout_answered, Hto]. }
  clear Hc Hm Ht Hin Hall Hr added.
  (* classification *)
  apply bind_inv in H as [(e & H1 & ->)|(intent & w2 & H1 & H)].
  { left. exists e. split; [reflexivity|]. apply analyzeUserIntent_inv in H1 as [-> _].
    apply extends_then_log; [|exact I].
    eapply extends_weaken; [|exact Hext]. intros ev [Hg _]. eapply greeting_event_no_save, Hg. }
  assert (Hintent : fst (analyzeUserIntent env query w1) = Ok intent) by (rewrite H1; reflexivity).
  apply analyzeUserIntent_inv in H1 as [-> Hans].
  destruct (Hans intent eq_refl) as (c & content & Hchat & Hhead & Hparse). clear Hans.
  apply bind_inv in H as [(e & H1 & ->)|(greeting & w3 & H1 & H)].
  { left. exists e. split; [reflexivity|]. apply pureGreeting_inv in H1 as ->.
    apply extends_then_log; [|exact I].
    eapply extends_weaken; [|exact Hext]. intros ev [Hg _]. eapply greeting_event_no_save, Hg. }
  assert (Hext2 : extends (fun ev => greeting_event env query ev /\ answered env ev) w
                    (log (ChatCompletionsCreate (intentRequest query)) w1)).
  { apply extends_then_log; [exact Hext|]. split; [unfold greeting_event; tauto|].
    destruct (pureGreeting_ok _ _ _ _ H1) as [Hnull Hundefined].
    exists w1, c. split; [exact Hchat|]. exists content. split; [exact Hhead|].
    intros _. exists intent. split; [exact Hparse|]. split; assumption. }
  clear Hext Hchat Hhead Hparse c content. set (w2 := log _ w1) in *. clearbody w2.
  assert (Hgreet : fst (pureGreeting intent w1) = Ok greeting).
  { assert (Hsame : forall wa wb, fst (pureGreeting intent wa) = fst (pureGreeting intent wb)).
    { intros wa wb. unfold pureGreeting, bind, get_prop, throw, ret.
      destruct intent; try reflexivity.
      destruct (truthy _); [|reflexivity]. destruct (negb _); reflexivity. }
    rewrite (Hsame w1 w2), H1. reflexivity. }
  apply pureGreeting_inv in H1 as ->.
  destruct greeting.
  - (* greeting *)
    destruct r as [v|e].
    + right. left. apply greetingBranch_inv in H as [Hg Hv].
      destruct (Hv v eq_refl) as (content & w0 & c & -> & Hw0 & Hhead & Hin).
      exists content, w0, c, intent, w1.
      split; [reflexivity|]. split.
      { eapply extends_trans; [exact Hext2|]. eapply extends_weaken; [|exact Hg].
        intros ev [Hge Ha]. split; [exact Hge|]. eapply Ha. reflexivity. }
      split; [exact Hw0|]. split; [exact Hhead|]. split; [|split; assumption].
      destruct Hext2 as (_ & _ & a2 & Ht2 & _). destruct Hg as (_ & _ & a3 & Ht3 & _).
      rewrite Ht3, drop_app_length in Hin.
      rewrite Ht3, Ht2, <- app_assoc, drop_app_length. apply in_or_app. right. exact Hin.
    + left. exists e. split; [reflexivity|]. apply greetingBranch_inv in H as [Hg _].
      eapply extends_trans.
      * eapply extends_weaken; [|exact Hext2]. intros ev [Hge _]. eapply greeting_event_no_save, Hge.
      * eapply extends_weaken; [|exact Hg]. intros ev [Hge _]. eapply greeting_event_no_save, Hge.
  - (* retrieval *)
    apply (retrievalBranch_inv _ _ _ _ _ _ _ _ _ Hapi) in H as [(e & -> & Hq)|Hsaved].
    + left. exists e. split; [reflexivity|]. eapply extends_trans; [|exact Hq].
      eapply extends_weaken; [|exact Hext2]. intros ev [Hge _]. eapply greeting_event_no_save, Hge.
    + right. right. exists w2, intent, w1. repeat (split; [assumption|]). exact Hsaved.
Qed.

(** ** Lines 221 to 234 *)

Lemma seen_inv messageId w :
  exists dup w1,
    seen messageId w = (Ok dup, w1) /\
    now w1 = now w /\ trace w1 = trace w /\ cache w1 = cache w /\
    messageCache w1 ⊆ messageCache w /\
    (dup = true <->
     exists id t, messageId = Some id /\ str_truthy id = true /\
                  messageCache w !! id = Some (true, t) /\
                  NodeCache.expired (now w) t = false) /\
    (dup = true -> w1 = w).
Proof.
  unfold seen. destruct messageId as [id|].
  2:{ exists false, w. repeat split; try reflexivity; try discriminate.
      intros (? & ? & ? & _); discriminate. }
  destruct (str_truthy id) eqn:Hid.
  2:{ exists false, w. repeat split; try reflexivity; try discriminate.
      intros (? & ? & Hs & Ht & _). injection Hs as <-. congruence. }
  unfold bind, messageCache_get, ret.
  destruct (NodeCache.get (now w) id (messageCache w)) as [stored data] eqn:Hget.
  exists (default false stored), (mkWorld (now w) (trace w) (cache w) data).
  split; [reflexivity|]. cbn [now trace cache messageCache].
  split; [reflexivity|]. split; [reflexivity|]. split; [reflexivity|].
  split; [eapply get_subseteq; exact Hget|].
  destruct stored as [b|].
  - apply get_Some in Hget as (-> & t & Hl & Hexp). cbn. split; [split|].
    + intros ->. exists id, t. repeat split; assumption.
    + intros (id' & t' & Hs & _ & Hl' & _). injection Hs as <-. congruence.
    + intros _. destruct w; reflexivity.
  - cbn. split; [split; [discriminate|]|discriminate].
    intros (id' & t' & Hs & _ & Hl' & Hexp). injection Hs as <-.
    pose proof (get_None _ _ _ _ Hget _ _ Hl'). congruence.
Qed.

(** The turn as far as the cache check. *)
Lemma queryEmbeddings_with_prelude api query options w :
  queryEmbeddings_with env api query options w =
  match seen (messageId options) w with
  | (Ok true, w1) => (Ok None, log (dupMessage (default "undefined" (messageId options))) w1)
  | (Ok false, w1) =>
      let (cached, data) :=
        NodeCache.get (now w1) (cacheKey_of query options) (cache w1) in
      let w2 := mkWorld (now w1) (trace w1 ++ [queryMessage query]) data (messageCache w1) in
      if from_option value_truthy false cached then (Ok cached, log cachedMessage w2)
      else answerQuery env api query options (cacheKey_of query options) w2
  | (Err e, w1) => (Err e, w1)
  end.
Proof.
  unfold queryEmbeddings_with. unfold bind at 1.
  destruct (seen (messageId options) w) as [[[|]|e] w1]; [reflexivity| |reflexivity].
  unfold bind at 1. unfold console_log at 1. unfold bind at 1. unfold cache_get at 1.
  cbn [log now trace cache messageCache].
  destruct (NodeCache.get (now w1) (cacheKey_of query options) (cache w1)) as [cached data].
  destruct (from_option value_truthy false cached); reflexivity.
Qed.

Lemma queryExternalAPI_quiet : api_quiet queryExternalAPI.
Proof.
  intros name payload w r w1 H. unfold queryExternalAPI, bind, console_log, ret in H.
  injection H as _ <-. apply extends_log. exact I.
Qed.

(** How a turn can end, seen from the world it started in: suppressed as a
    duplicate, served from the cache, or run from the embedding on in a world
    that differs from the first by the [Query:] line and by entries the two
    lookups found dead. *)
Lemma turn_cases api query options w r w' :
  queryEmbeddings_with env api query options w = (r, w') ->
  (exists id t,
      messageId options = Some id /\ str_truthy id = true /\
      messageCache w !! id = Some (true, t) /\ NodeCache.expired (now w) t = false /\
      r = Ok None /\ w' = log (dupMessage id) w) \/
  (exists v t,
      cache w !! cacheKey_of query options = Some (v, t) /\
      NodeCache.expired (now w) t = false /\ value_truthy v = true /\
      r = Ok (Some v) /\ now w' = now w /\ cache w' = cache w /\
      messageCache w' ⊆ messageCache w /\
      trace w' = trace w ++ [queryMessage query; cachedMessage]) \/
  (exists w0,
      now w0 = now w /\ trace w0 = trace w ++ [queryMessage query] /\
      cache w0 ⊆ cache w /\ messageCache w0 ⊆ messageCache w /\
      answerQuery env api query options (cacheKey_of query options) w0 = (r, w')).
Proof.
  rewrite queryEmbeddings_with_prelude.
  destruct (seen_inv (messageId options) w)
    as (dup & w1 & -> & Hnow & Htrace & Hcache & Hmc & Hdup & Hsame).
  destruct dup.
  - intros H. injection H as <- <-. left.
    destruct (proj1 Hdup eq_refl) as (id & t & Hid & Htruthy & Hl & Hexp).
    exists id, t. rewrite Hid, (Hsame eq_refl).
    repeat (split; [assumption || reflexivity|]). reflexivity.
  - destruct (NodeCache.get (now w1) (cacheKey_of query options) (cache w1))
      as [cached data] eqn:Hget.
    rewrite Hnow, Hcache in Hget. cbn zeta.
    destruct (from_option value_truthy false cached) eqn:Htruthy.
    + intros H. injection H as <- <-. right. left.
      destruct cached as [v|]; [|discriminate].
      apply get_Some in Hget as (-> & t & Hl & Hexp).
      exists v, t. cbn. rewrite Htrace, <- app_assoc.
      repeat (split; [assumption || reflexivity|]). reflexivity.
    + intros H. right. right.
      exists (mkWorld (now w1) (trace w1 ++ [queryMessage query]) data (messageCache w1)).
      cbn [now trace cache messageCache].
      split; [exact Hnow|]. split; [rewrite Htrace; reflexivity|].
      split; [eapply get_subseteq; exact Hget|]. split; [exact Hmc|exact H].
Qed.

(** ** Deduplication *)

Lemma dedup_cache_ok_subseteq w w1 :
  messageCache w1 ⊆ messageCache w -> dedup_cache_ok w -> dedup_cache_ok w1.
Proof.
  intros Hsub Hok id v t Hl. eapply Hok. eapply lookup_weaken; eassumption.
Qed.

Lemma dedup_cache_ok_marked messageId now (w w1 : World) :
  messageCache w1 = marked messageId now (messageCache w) ->
  dedup_cache_ok w -> dedup_cache_ok w1.
Proof.
  intros Hm Hok id v t. rewrite Hm. unfold marked.
  destruct messageId as [id'|]; [destruct (str_truthy id') eqn:Hid|]; try apply Hok.
  destruct (decide (id' = id)) as [->|Hne].
  - rewrite lookup_insert_eq. intros [= <- <-]. split; [exact Hid|reflexivity].
  - rewrite lookup_insert_ne by exact Hne. apply Hok.
Qed.

Lemma dedup_cache_ok_initial : dedup_cache_ok initial.
Proof. intros id v t. cbn. rewrite lookup_empty. discriminate. Qed.

(** No turn returns [null] except a suppressed one. *)
Lemma not_null_unless_suppressed api query options w r w' :
  api_quiet api ->
  queryEmbeddings_with env api query options w = (r, w') ->
  returns_null r ->
  exists id t,
    messageId options = Some id /\ str_truthy id = true /\
    messageCache w !! id = Some (true, t) /\ NodeCache.expired (now w) t = false /\
    w' = log (dupMessage id) w.
Proof.
  intros Hapi Hrun Hnull.
  apply turn_cases in Hrun
    as [(id & t & Hid & Hs & Hl & Hexp & _ & Hw)
       |[(v & t & _ & _ & Hv & -> & _)|(w0 & _ & _ & _ & _ & Hrun)]].
  - exists id, t. repeat (split; [assumption|]). exact Hw.
  - destruct Hnull as [[=]|[= ->]]. discriminate.
  - apply (answerQuery_inv _ _ _ _ _ _ _ Hapi) in Hrun
      as [(e & -> & _)|[(c & ? & ? & ? & ? & -> & _)|(w_r & i & wi & _ & _ & _ & Hsaved)]].
    + destruct Hnull as [[=]|[=]].
    + destruct Hnull as [[=]|[=]].
    + destruct Hsaved as (? & ? & result & ? & ? & ? & _ & _ & _ & _ & _ & _ & _ & Hr).
      destruct Hr as [(-> & _)|(e & -> & _)]; destruct Hnull as [[=]|[=]].
Qed.

(** The dedup cache stays well formed over a turn. *)
Lemma dedup_cache_ok_turn api query options w r w' :
  api_quiet api ->
  queryEmbeddings_with env api query options w = (r, w') ->
  dedup_cache_ok w -> dedup_cache_ok w'.
Proof.
  intros Hapi Hrun Hok.
  apply turn_cases in Hrun
    as [(id & t & _ & _ & _ & _ & _ & ->)
       |[(v & t & _ & _ & _ & _ & _ & _ & Hm & _)|(w0 & _ & _ & _ & Hm0 & Hrun)]].
  - exact Hok.
  - eapply dedup_cache_ok_subseteq; eassumption.
  - pose proof (dedup_cache_ok_subseteq _ _ Hm0 Hok) as Hok0.
    apply (answerQuery_inv _ _ _ _ _ _ _ Hapi) in Hrun
      as [(e & _ & (_ & Hm & _))
         |[(c & ? & ? & ? & ? & _ & (_ & Hm & _) & _)
          |(w_r & i & wi & (_ & Hmr & _) & _ & _ & Hsaved)]].
    + intros id v t. rewrite Hm. apply Hok0.
    + intros id v t. rewrite Hm. apply Hok0.
    + assert (Hokr : dedup_cache_ok w_r) by (intros id v t; rewrite Hmr; apply Hok0).
      destruct Hsaved as (? & ? & result & ? & ? & ? & _ & _ & _ & _ & _ & _ & _ & Hr).
      destruct Hr as [(_ & _ & Hm & _)|(e & _ & _ & [Hm|[Hm _]])].
      * eapply dedup_cache_ok_marked; eassumption.
      * intros id v t. rewrite Hm. apply Hokr.
      * eapply dedup_cache_ok_marked; eassumption.
Qed.

(** C5. [queryEmbeddings] returns [null] exactly when [options.messageId] is
    given and marked seen, unexpired, in the dedup cache; and a suppressed
    turn leaves the world as it was but for the console line: no collaborator
    is called, no cache is written, nothing is saved. *)
Theorem suppression (query : string) (options : QueryEmbeddingsOptions)
    (w w' : World) (r : Outcome (option CacheValue)) :
  dedup_cache_ok w ->
  queryEmbeddings env query options w = (r, w') ->
  (returns_null r <-> exists id, messageId options = Some id /\ marked_seen w id) /\
  (returns_null r -> exists id, messageId options = Some id /\ w' = log (dupMessage id) w).
Proof.
  intros Hok Hrun. split; [split|].
  - intros Hnull.
    destruct (not_null_unless_suppressed _ _ _ _ _ _ queryExternalAPI_quiet Hrun Hnull)
      as (id & t & Hid & _ & Hl & Hexp & _).
    exists id. split; [exact Hid|]. exists true, t. split; assumption.
  - intros (id & Hid & v & t & Hl & Hexp).
    destruct (Hok _ _ _ Hl) as [Htruthy ->].
    unfold queryEmbeddings in Hrun. rewrite queryEmbeddings_with_prelude in Hrun.
    destruct (seen_inv (messageId options) w) as (dup & w1 & Hseen & _ & _ & _ & _ & Hdup & _).
    rewrite Hseen in Hrun.
    assert (dup = true) as -> by (apply Hdup; exists id, t; repeat split; assumption).
    injection Hrun as <- _. left. reflexivity.
  - intros Hnull.
    destruct (not_null_unless_suppressed _ _ _ _ _ _ queryExternalAPI_quiet Hrun Hnull)
      as (id & t & Hid & _ & _ & _ & Hw).
    exists id. split; assumption.
Qed.

(** ** The endings of a turn *)

Lemma extends_added (P : Event -> Prop) w w1 :
  extends P w w1 ->
  exists added,
    trace w1 = trace w ++ added /\ Forall P added /\
    drop (length (trace w)) (trace w1) = added.
Proof.
  intros (_ & _ & added & Ht & Hall). exists added.
  split; [exact Ht|]. split; [exact Hall|]. rewrite Ht. apply drop_app_length.
Qed.

(** Every turn ends in one of five ways. [added] is what the turn appended
    to the trace. *)
Lemma turn_endings api query options w r w' added :
  api_quiet api ->
  queryEmbeddings_with env api query options w = (r, w') ->
  trace w' = trace w ++ added ->
  (* suppressed *)
  (exists id, r = Ok None /\ added = [dupMessage id]) \/
  (* served from the cache *)
  (exists v, r = Ok (Some v) /\ added = [queryMessage query; cachedMessage] /\
             cache w' = cache w /\ messageCache w' ⊆ messageCache w) \/
  (* rejected before the memory save *)
  (exists e, r = Err e /\ Forall no_save added /\
             cache w' ⊆ cache w /\ messageCache w' ⊆ messageCache w) \/
  (* greeted *)
  (exists content w0 c intent wi,
      r = Ok (Some (Response (mkResponse [] [] content))) /\
      Forall (fun ev => greeting_event env query ev /\ answered env ev) added /\
      cache w' ⊆ cache w /\ messageCache w' ⊆ messageCache w /\
      chatCompletionsCreate env (greetingRequest env query) w0 = Ok c /\
      head (choices c) = Some content /\
      In (ChatCompletionsCreate (greetingRequest env query)) added /\
      fst (analyzeUserIntent env query wi) = Ok intent /\
      fst (pureGreeting intent wi) = Ok true) \/
  (* reached the memory save *)
  (exists before memory result content w0 c intent wi,
      added = before ++ [SaveContext memory query (answer result)] /\
      Forall (fun ev => no_save ev /\ answered env ev) before /\
      In (ChatCompletionsCreate (answerRequest env content)) before /\
      chatCompletionsCreate env (answerRequest env content) w0 = Ok c /\
      head (choices c) = Some (answer result) /\
      (if default false (enableAPIQuery options)
       then exists payload wa wb, api "mockAPI" payload wa = (Ok (apiResults result), wb)
       else apiResults result = []) /\
      fst (analyzeUserIntent env query wi) = Ok intent /\
      fst (pureGreeting intent wi) = Ok false /\
      ((r = Ok (Some (Response result)) /\
        cache w' !! cacheKey_of query options
          = Some (Response result, NodeCache.livetime (now w') cache_stdTTL) /\
        (forall id, messageId options = Some id -> str_truthy id = true ->
                    messageCache w' !! id
                      = Some (true, NodeCache.livetime (now w') messageCache_stdTTL)) /\
        exists ws, saveContext env memory query (answer result) ws = Ok tt) \/
       (exists e, r = Err e /\ cache w' ⊆ cache w /\
                  (messageCache w' ⊆ messageCache w \/
                   exists ws, saveContext env memory query (answer result) ws = Ok tt)))).
Proof.
  intros Hapi Hrun Htrace.
  apply turn_cases in Hrun
    as [(id & t & _ & _ & _ & _ & -> & ->)
       |[(v & t & _ & _ & _ & -> & _ & Hc & Hm & Ht)
        |(w0 & _ & Ht0 & Hc0 & Hm0 & Hrun)]].
  - left. exists id. split; [reflexivity|]. cbn in Htrace.
    apply app_inv_head in Htrace. symmetry. exact Htrace.
  - right. left. exists v. rewrite Ht in Htrace. apply app_inv_head in Htrace.
    repeat (split; [assumption || reflexivity || (symmetry; assumption)|]). exact Hm.
  - right. right.
    apply (answerQuery_inv _ _ _ _ _ _ _ Hapi) in Hrun
      as [(e & -> & Hext)
         |[(content & wg & c & intent & wi & -> & Hext & Hwg & Hhead & Hin & Hi & Hg)
          |(w_r & intent & wi & Hext & Hi & Hg & Hsaved)]].
    + left. exists e. split; [reflexivity|].
      pose proof Hext as (Hc & Hm & _).
      apply extends_added in Hext as (a & Ht & Hall & _).
      rewrite Ht, Ht0, <- app_assoc in Htrace. apply app_inv_head in Htrace. subst added.
      split; [constructor; [exact I|exact Hall]|].
      rewrite Hc, Hm. split; assumption.
    + right. left. exists content, wg, c, intent, wi. split; [reflexivity|].
      pose proof Hext as (Hc & Hm & _).
      apply extends_added in Hext as (a & Ht & Hall & Hdrop).
      rewrite Hdrop in Hin.
      rewrite Ht, Ht0, <- app_assoc in Htrace. apply app_inv_head in Htrace. subst added.
      split.
      { constructor; [|exact Hall]. split; [left; reflexivity|exact I]. }
      rewrite Hc, Hm. repeat (split; [assumption|]).
      split; [right; exact Hin|]. split; assumption.
    + right. right.
      destruct Hsaved as (w_s & memory & result & content & wg & c
                          & Hexts & Hin & Hwg & Hhead & Hres & Hts & Hnow & Hr).
      pose proof Hext as (Hcr & Hmr & _).
      apply extends_added in Hext as (a1 & Ht1 & Hall1 & _).
      apply extends_added in Hexts as (a2 & Ht2 & Hall2 & Hdrop2).
      rewrite Hdrop2 in Hin.
      rewrite Hts, Ht2, Ht1, Ht0, <- !app_assoc in Htrace. apply app_inv_head in Htrace.
      subst added.
      exists ([queryMessage query] ++ a1 ++ a2), memory, result, content, wg, c, intent, wi.
      split; [rewrite <- !app_assoc; reflexivity|].
      split.
      { apply Forall_app; split; [repeat constructor|].
        apply Forall_app; split; [|exact Hall2].
        eapply Forall_impl; [exact Hall1|]. intros ev [Hge Ha].
        split; [eapply greeting_event_no_save; exact Hge|exact Ha]. }
      split; [apply in_or_app; right; apply in_or_app; right; exact Hin|].
      repeat (split; [assumption|]).
      destruct Hr as [(-> & Hc & Hm & Hsave)|(e & -> & Hc & Hm)].
      * left. split; [reflexivity|]. split.
        { rewrite Hc. apply lookup_insert_eq. }
        split; [|exact Hsave].
        intros id Hid Htruthy. rewrite Hm. unfold marked. rewrite Hid, Htruthy.
        apply lookup_insert_eq.
      * right. exists e. split; [reflexivity|]. split; [rewrite Hc, Hcr; exact Hc0|].
        destruct Hm as [Hm|[_ Hsave]]; [|right; exact Hsave].
        left. rewrite Hm, Hmr. exact Hm0.
Qed.

(** ** Greeting branch *)

Lemma greeting_only_pure intent w :
  greeting_only intent -> fst (pureGreeting intent w) = Ok true.
Proof.
  intros (props & -> & Hg & Hq & Hs).
  unfold pureGreeting, bind, get_prop, ret. rewrite Hg. cbn. rewrite Hq. cbn. rewrite Hs.
  reflexivity.
Qed.

Lemma greeting_event_pure query ev : greeting_event env query ev -> ~ retrieval_or_memory ev.
Proof.
  intros [->|[->|[->|[->|H]]]]; cbn; try tauto.
  - discriminate.
  - destruct ev; cbn in *; try discriminate. tauto.
Qed.

(** C8. When the classifier answers [{isGreeting: true, hasQuestion: false,
    needsSupport: false}] for the query, a turn that classifies it and
    returns a response returns one with no matches and no API results, and
    all it did was log the query, embed it, classify it and ask for the
    greeting: no vector-store query, no enrichment call, no memory read or
    write, and nothing written to either cache. *)
Theorem greeting_purity (query : string) (options : QueryEmbeddingsOptions)
    (w w' : World) (v : CacheValue) (added : list Event) :
  (forall wi intent, fst (analyzeUserIntent env query wi) = Ok intent -> greeting_only intent) ->
  queryEmbeddings env query options w = (Ok (Some v), w') ->
  trace w' = trace w ++ added ->
  In (ChatCompletionsCreate (intentRequest query)) added ->
  (exists content, v = Response (mkResponse [] [] content)) /\
  Forall (greeting_event env query) added /\
  Forall (fun ev => ~ retrieval_or_memory ev) added /\
  cache w' ⊆ cache w /\ messageCache w' ⊆ messageCache w.
Proof.
  intros Hclass Hrun Htrace Hin.
  destruct (turn_endings _ _ _ _ _ _ _ queryExternalAPI_quiet Hrun Htrace)
    as [(id & [=] & _)
       |[(v' & _ & -> & _)
        |[(e & [=] & _)
         |[(content & w0 & c & intent & wi & [= ->] & Hall & Hc & Hm & _)
          |(before & memory & result & content & w0 & c & intent & wi
            & _ & _ & _ & _ & _ & _ & Hi & Hg & _)]]]].
  - destruct Hin as [[=]|[[=]|[]]].
  - assert (Hge : Forall (greeting_event env query) added).
    { eapply Forall_impl; [exact Hall|]. intros ev [H _]. exact H. }
    split; [exists content; reflexivity|]. split; [exact Hge|].
    split; [|split; assumption].
    eapply Forall_impl; [exact Hge|]. apply greeting_event_pure.
  - rewrite (greeting_only_pure intent wi (Hclass wi intent Hi)) in Hg. discriminate.
Qed.

(** ** The answer *)

(** C9, as the code has it. The answer of a response produced in the turn,
    on the greeting path or on the retrieval path, is the content of the
    first choice of a completion the model gave in that turn, taken as it
    is: it is empty or [null] when that content is. *)
Theorem answer_is_completion_text (query : string) (options : QueryEmbeddingsOptions)
    (w w' : World) (response : QueryEmbeddingsResponse) (added : list Event) :
  queryEmbeddings env query options w = (Ok (Some (Response response)), w') ->
  trace w' = trace w ++ added ->
  In (EmbedQuery query) added ->
  exists request w0 c,
    json_object request = false /\
    In (ChatCompletionsCreate request) added /\
    chatCompletionsCreate env request w0 = Ok c /\
    head (choices c) = Some (answer response).
Proof.
  intros Hrun Htrace Hin.
  destruct (turn_endings _ _ _ _ _ _ _ queryExternalAPI_quiet Hrun Htrace)
    as [(id & [=] & _)
       |[(v' & _ & -> & _)
        |[(e & [=] & _)
         |[(content & w0 & c & intent & wi & [= ->] & _ & _ & _ & Hw0 & Hhead & Hchat & _)
          |(before & memory & result & content & w0 & c & intent & wi
            & -> & _ & Hchat & Hw0 & Hhead & _ & _ & _ & Hr)]]]].
  - destruct Hin as [[=]|[[=]|[]]].
  - exists (greetingRequest env query), w0, c. repeat (split; [assumption || reflexivity|]).
    exact Hhead.
  - destruct Hr as [([= ->] & _)|(e & [=] & _)].
    exists (answerRequest env content), w0, c. split; [reflexivity|].
    split; [apply in_or_app; left; exact Hchat|]. split; assumption.
Qed.

(** ** Failure *)

Lemma broken_not_answered ev : broken env ev -> no_save ev -> answered env ev -> False.
Proof.
  destruct ev; cbn; try contradiction.
  - intros Hb _ (w0 & v & Hv). destruct (Hb w0) as [e He]. congruence.
  - intros Hb _ (w0 & c & Hc & Husable). exact (Hb w0 c Hc Husable).
  - intros Hb _ (w0 & v & Hv). destruct (Hb w0) as [e He]. congruence.
  - intros Hb _ (w0 & v & Hv). destruct (Hb w0) as [e He]. congruence.
  - intros Hb _ (w0 & v & Hv). destruct (Hb w0) as [e He]. congruence.
  - intros Hb _ (w0 & v & Hv). destruct (Hb w0) as [e He]. congruence.
  - intros Hb _ (w0 & v & Hv). destruct (Hb w0) as [e He]. congruence.
Qed.

(** C7. When the turn reaches a stage that fails at every attempt, the turn
    rejects and neither cache has gained or changed an entry. The stages are
    the embedding, the classification (its request, or a completion with no
    choice, or a content that does not parse, or parses to [null]), the
    database handle and the aggregation, the three reads of the conversation
    memory, a generation request (or a completion with no choice) and the
    memory save itself. Unless the failing stage is the save, no memory save
    was issued. No rejected turn has written the result cache; a rejected
    turn that issued no memory save has marked no message id either; a
    memory save, when one is issued, is the last call of the turn; and it is
    only issued for an output the model gave for the assembled prompt. *)
Theorem failure_writes_nothing (query : string) (options : QueryEmbeddingsOptions)
    (w w' : World) (r : Outcome (option CacheValue)) (added : list Event) :
  queryEmbeddings env query options w = (r, w') ->
  trace w' = trace w ++ added ->
  (forall ev, In ev added -> broken env ev ->
     (exists e, r = Err e) /\
     cache w' ⊆ cache w /\ messageCache w' ⊆ messageCache w /\
     (no_save ev -> Forall no_save added)) /\
  (forall e, r = Err e -> cache w' ⊆ cache w) /\
  (forall e, r = Err e -> Forall no_save added ->
     cache w' ⊆ cache w /\ messageCache w' ⊆ messageCache w) /\
  (forall ev, last added = Some ev -> no_save ev -> Forall no_save added) /\
  (forall memory input output,
     In (SaveContext memory input output) added ->
     exists content w0 c,
       In (ChatCompletionsCreate (answerRequest env content)) added /\
       chatCompletionsCreate env (answerRequest env content) w0 = Ok c /\
       head (choices c) = Some output).
Proof.
  intros Hrun Htrace.
  destruct (turn_endings _ _ _ _ _ _ _ queryExternalAPI_quiet Hrun Htrace)
    as [(id & -> & ->)
       |[(v' & -> & -> & Hc & Hm)
        |[(e & -> & Hall & Hc & Hm)
         |[(content & w0 & c & intent & wi & -> & Hall & Hc & Hm & _)
          |(before & memory & result & content & w0 & c & intent & wi
            & -> & Hall & Hchat & Hw0 & Hhead & _ & _ & _ & Hr)]]]].
  - split; [|split; [|split; [|split]]].
    + intros ev [<-|[]] [].
    + discriminate.
    + discriminate.
    + intros _ _ _. repeat constructor.
    + intros ? ? ? [[=]|[]].
  - split; [|split; [|split; [|split]]].
    + intros ev [<-|[<-|[]]] [].
    + discriminate.
    + discriminate.
    + intros _ _ _. repeat constructor.
    + intros ? ? ? [[=]|[[=]|[]]].
  - split; [|split; [|split; [|split]]].
    + intros ev _ _. split; [exists e; reflexivity|]. repeat (split; [assumption|]).
      intros _. exact Hall.
    + intros _ _. exact Hc.
    + intros _ _ _. split; assumption.
    + intros _ _ _. exact Hall.
    + intros ? ? ? Hin. rewrite Forall_forall in Hall.
      apply list_elem_of_In, Hall in Hin. contradiction.
  - assert (Hns : Forall no_save added).
    { eapply Forall_impl; [exact Hall|]. intros ev [Hge _]. eapply greeting_event_no_save, Hge. }
    split; [|split; [|split; [|split]]].
    + intros ev Hin Hb. rewrite Forall_forall in Hall.
      apply list_elem_of_In, Hall in Hin as [Hge Ha].
      destruct (broken_not_answered _ Hb (greeting_event_no_save _ _ Hge) Ha).
    + discriminate.
    + discriminate.
    + intros _ _ _. exact Hns.
    + intros ? ? ? Hin. rewrite Forall_forall in Hns.
      apply list_elem_of_In, Hns in Hin. contradiction.
  - split; [|split; [|split; [|split]]].
    + intros ev Hin Hb. apply in_app_or in Hin as [Hin|[<-|[]]].
      * rewrite Forall_forall in Hall.
        apply list_elem_of_In, Hall in Hin as [Hn Ha].
        destruct (broken_not_answered _ Hb Hn Ha).
      * cbn in Hb.
        destruct Hr as [(_ & _ & _ & ws & Hsave)|(e & -> & Hc & [Hm|(ws & Hsave)])].
        -- destruct (Hb ws) as [e He]. congruence.
        -- split; [exists e; reflexivity|]. split; [exact Hc|]. split; [exact Hm|].
           intros [].
        -- destruct (Hb ws) as [e' He]. congruence.
    + intros e ->. destruct Hr as [([=] & _)|(e' & _ & Hc & _)]. exact Hc.
    + intros e _ Hns. apply Forall_app in Hns as [_ Hns].
      apply Forall_inv in Hns. contradiction.
    + intros ev Hlast Hns. rewrite last_snoc in Hlast. injection Hlast as <-. contradiction.
    + intros m i o Hin. apply in_app_or in Hin as [Hin|[[= <- <- <-]|[]]].
      * rewrite Forall_forall in Hall. apply list_elem_of_In, Hall in Hin as [Hn _]. contradiction.
      * exists content, w0, c. split; [apply in_or_app; left; exact Hchat|]. split; assumption.
Qed.

(** ** Enrichment *)

Lemma queryExternalAPI_resolves name payload w :
  queryExternalAPI name payload w =
  (Ok mockResponse, log (ConsoleLog ("Calling API: " +:+ name +:+ " with payload:") [payload]) w).
Proof. reflexivity. Qed.

(** ** Idempotence *)

(** C1, as the code has it. A turn that resolved through the retrieval
    branch has stored its response under the cache key, to live for the
    cache TTL. A second call with the same query and options within that
    time calls no collaborator: it writes to the console only, and it
    returns that response, unless the options name a message id, in which
    case the call is suppressed and returns [null] for as long as the dedup
    entry lives. *)
Theorem idempotence_after_retrieval (query : string) (options : QueryEmbeddingsOptions)
    (w w' : World) (v : CacheValue) (added : list Event) (d : Z) :
  queryEmbeddings env query options w = (Ok (Some v), w') ->
  trace w' = trace w ++ added ->
  In GetDb added ->
  0 <= d <= cache_stdTTL * 1000 ->
  cache w' !! cacheKey_of query options = Some (v, now w' + cache_stdTTL * 1000) /\
  exists r2 w2 logs,
    queryEmbeddings env query options (elapse d w') = (r2, w2) /\
    trace w2 = trace w' ++ logs /\ Forall is_log logs /\
    (r2 = Ok (Some v) \/ r2 = Ok None) /\
    (messageId options = None \/ messageId options = Some EmptyString -> r2 = Ok (Some v)) /\
    (forall id, messageId options = Some id -> id <> EmptyString ->
                d <= messageCache_stdTTL * 1000 -> r2 = Ok None).
Proof.
  intros Hrun Htrace Hin Hd.
  destruct (turn_endings _ _ _ _ _ _ _ queryExternalAPI_quiet Hrun Htrace)
    as [(id & [=] & _)
       |[(v' & _ & -> & _)
        |[(e & [=] & _)
         |[(content & w0 & c & intent & wi & _ & Hall & _)
          |(before & memory & result & content & w0 & c & intent & wi
            & _ & _ & _ & _ & _ & _ & _ & _ & Hr)]]]].
  { destruct Hin as [[=]|[[=]|[]]]. }
  { rewrite Forall_forall in Hall. apply list_elem_of_In, Hall in Hin as [Hge _].
    destruct Hge as [[=]|[[=]|[[=]|[[=]|[=]]]]]. }
  destruct Hr as [([= ->] & Hc & Hm & _)|(e & [=] & _)].
  change (NodeCache.livetime (now w') cache_stdTTL) with (now w' + cache_stdTTL * 1000) in Hc.
  split; [exact Hc|].
  assert (Hlive : NodeCache.expired (now w' + d) (now w' + cache_stdTTL * 1000) = false).
  { unfold NodeCache.expired. rewrite (proj2 (Z.ltb_ge _ _)) by lia. apply andb_false_r. }
  unfold queryEmbeddings. rewrite queryEmbeddings_with_prelude.
  destruct (seen_inv (messageId options) (elapse d w'))
    as (dup & w1 & -> & Hnow1 & Htrace1 & Hcache1 & _ & Hdup & _).
  cbn [elapse now trace cache messageCache] in *.
  destruct dup.
  - destruct (proj1 Hdup eq_refl) as (id & t & Hid & Htruthy & _).
    eexists _, _, [_]. split; [reflexivity|]. cbn. rewrite Htrace1.
    split; [reflexivity|]. split; [repeat constructor|].
    split; [right; reflexivity|]. split; [|reflexivity].
    intros [Hnone|Hempty]; rewrite Hid in *; [discriminate|].
    injection Hempty as ->. discriminate.
  - rewrite Hnow1, Hcache1, (get_live _ _ _ _ _ Hc Hlive). cbn.
    eexists _, _, [_; _]. split; [reflexivity|]. cbn. rewrite Htrace1, <- app_assoc.
    split; [reflexivity|]. split; [repeat constructor|].
    split; [left; reflexivity|]. split; [reflexivity|].
    intros id Hid Hne Hd'. exfalso.
    assert (Htruthy : str_truthy id = true) by (destruct id; [contradiction|reflexivity]).
    specialize (Hm id Hid Htruthy).
    change (NodeCache.livetime (now w') messageCache_stdTTL)
      with (now w' + messageCache_stdTTL * 1000) in Hm.
    assert (false = true); [|discriminate].
    apply Hdup. exists id, (now w' + messageCache_stdTTL * 1000).
    repeat (split; [assumption|]).
    unfold NodeCache.expired. rewrite (proj2 (Z.ltb_ge _ _)) by lia. apply andb_false_r.
Qed.

End Stages.

(** ** The dedup cache in every reachable world *)

Lemma reachable_dedup_cache_ok w : Reachable w -> dedup_cache_ok w.
Proof.
  induction 1 as [|env query options w _ IH|userId conversation w _ IH|userId w _ IH|d w _ _ IH].
  - apply dedup_cache_ok_initial.
  - eapply (dedup_cache_ok_turn env queryExternalAPI query options w).
    + apply queryExternalAPI_quiet.
    + apply surjective_pairing.
    + exact IH.
  - unfold setLastConversation, cache_set.
    destruct (NodeCache.set _ _ _ _ _ _); exact IH.
  - unfold getLastConversation, cache_get.
    destruct (NodeCache.get _ _ _). exact IH.
  - exact IH.
Qed.

(** ** The claims on concrete turns *)

Lemma suppression_witness :
  exists w',
    queryEmbeddings env0 "refund?" (withMessageId "m1") (after env0 "refund?" (withMessageId "m1"))
      = (Ok None, w') /\
    w' = log (dupMessage "m1") (after env0 "refund?" (withMessageId "m1")).
Proof.
  set (w := after env0 "refund?" (withMessageId "m1")).
  assert (Hok : dedup_cache_ok w).
  { apply reachable_dedup_cache_ok. apply Reachable_turn, Reachable_initial. }
  destruct (suppression env0 "refund?" (withMessageId "m1") w
              (snd (queryEmbeddings env0 "refund?" (withMessageId "m1") w))
              (fst (queryEmbeddings env0 "refund?" (withMessageId "m1") w)) Hok
              (surjective_pairing _))
    as [Hiff Hnull].
  assert (Hret : returns_null (fst (queryEmbeddings env0 "refund?" (withMessageId "m1") w))).
  { apply Hiff. exists "m1". split; [reflexivity|].
    exists true, 300000. split; [vm_compute; reflexivity|reflexivity]. }
  destruct (Hnull Hret) as (id & Hid & Hw). injection Hid as <-.
  exists (log (dupMessage "m1") w). rewrite <- Hw at 1.
  destruct Hret as [Hr|Hr].
  - rewrite <- Hr. split; [apply surjective_pairing|reflexivity].
  - vm_compute in Hr. discriminate.
Defined.

Lemma greeting_purity_witness :
  fst (queryEmbeddings env0 "hello" noOptions initial)
    = Ok (Some (Response (mkResponse [] [] (Some "Hi there!")))) /\
  Forall (fun ev => ~ retrieval_or_memory ev) (trace (after env0 "hello" noOptions)) /\
  cache (after env0 "hello" noOptions) ⊆ cache initial.
Proof.
  destruct (greeting_purity env0 "hello" noOptions initial (after env0 "hello" noOptions)
              (Response (mkResponse [] [] (Some "Hi there!")))
              (trace (after env0 "hello" noOptions)))
    as (_ & _ & Hpure & Hcache & _).
  - intros wi intent H. vm_compute in H. injection H as <-.
    eexists. repeat split.
  - vm_compute. reflexivity.
  - reflexivity.
  - vm_compute. right. right. left. reflexivity.
  - split; [vm_compute; reflexivity|]. split; assumption.
Defined.

(** C9 fails as stated: the model answering with the empty text, the turn
    returns a response whose answer is empty. *)
Lemma nonempty_answer_fails : ~ nonempty_answer_as_stated.
Proof.
  intros H.
  destruct (H env_mute "hello" noOptions initial (after env_mute "hello" noOptions)
              (mkResponse [] [] (Some EmptyString)))
    as (s & Hs & Hne); [vm_compute; reflexivity|].
  injection Hs as <-. apply Hne. reflexivity.
Qed.

Lemma answer_is_completion_text_witness :
  exists request c,
    json_object request = false /\
    chatCompletionsCreate env_mute request initial = Ok c /\
    head (choices c) = Some (Some EmptyString).
Proof.
  destruct (answer_is_completion_text env_mute "refund?" noOptions initial
              (after env_mute "refund?" noOptions)
              (mkResponse
                 [ mkMatch (JStr "Refunds take five days") (JStr "en") JUndefined JNull;
                   mkMatch (JStr "Pagamentos por cartao") (JStr "pt") JUndefined JNull ]
                 [] (Some EmptyString))
              (trace (after env_mute "refund?" noOptions)))
    as (request & w0 & c & Hjson & _ & Hc & Hhead).
  - vm_compute. reflexivity.
  - reflexivity.
  - vm_compute. right. left. reflexivity.
  - exists request, c. split; [exact Hjson|]. split; [exact Hc|exact Hhead].
Defined.

Lemma failure_writes_nothing_witness :
  (exists e, fst (queryEmbeddings env_garbled "refund?" (withMessageId "m1") initial) = Err e) /\
  cache (after env_garbled "refund?" (withMessageId "m1")) ⊆ cache initial /\
  messageCache (after env_garbled "refund?" (withMessageId "m1")) ⊆ messageCache initial /\
  Forall no_save (trace (after env_garbled "refund?" (withMessageId "m1"))).
Proof.
  destruct (failure_writes_nothing env_garbled "refund?" (withMessageId "m1") initial
              (after env_garbled "refund?" (withMessageId "m1"))
              (fst (queryEmbeddings env_garbled "refund?" (withMessageId "m1") initial))
              (trace (after env_garbled "refund?" (withMessageId "m1"))))
    as (Hbroken & _).
  - apply surjective_pairing.
  - reflexivity.
  - destruct (Hbroken (ChatCompletionsCreate (intentRequest "refund?")))
      as (He & Hc & Hm & Hns).
    + vm_compute. do 2 right. left. reflexivity.
    + intros w0 c _ (content & _ & Hparse).
      destruct (Hparse eq_refl) as (intent & Hintent & _). discriminate Hintent.
    + split; [exact He|]. split; [exact Hc|]. split; [exact Hm|]. apply Hns. exact I.
Defined.

(** An unreachable embedding service fails the turn in the same way. *)
Example embedding_failure_rejects :
  fst (queryEmbeddings env_offline "refund?" (withMessageId "m1") initial)
    = Err (Thrown "Error" "service unavailable") /\
  cache (after env_offline "refund?" (withMessageId "m1")) = ∅ /\
  messageCache (after env_offline "refund?" (withMessageId "m1")) = ∅.
Proof. vm_compute. repeat split. Qed.

(** C1 fails as stated: a second call with the same query and the same
    options, which name a message id, is suppressed and returns [null]. *)
Lemma idempotence_fails : ~ idempotence_as_stated.
Proof.
  intros H.
  destruct (H env0 "refund?" (withMessageId "m1") initial
              (after env0 "refund?" (withMessageId "m1"))
              (Response (refundResponse [])) 0)
    as (_ & w2 & logs & Hrun & _).
  - vm_compute. reflexivity.
  - unfold cache_stdTTL. lia.
  - vm_compute in Hrun. discriminate.
Qed.

(** The greeting branch returns before the closing writes: the response is
    not cached, the message id is not marked, and a second call asks the
    model again. *)
Example greeting_turn_is_not_cached :
  let w' := after env0 "hello" (withMessageId "m2") in
  fst (queryEmbeddings env0 "hello" (withMessageId "m2") initial)
    = Ok (Some (Response (mkResponse [] [] (Some "Hi there!")))) /\
  cache w' !! cacheKey_of "hello" (withMessageId "m2") = None /\
  messageCache w' !! "m2" = None /\
  length (filter (fun ev => is_completion ev = true)
                 (trace (snd (queryEmbeddings env0 "hello" (withMessageId "m2") w')))) = 4%nat.
Proof. vm_compute. repeat split. Qed.

Lemma idempotence_after_retrieval_witness :
  exists w2,
    queryEmbeddings env0 "refund?" noOptions (elapse 1000 (after env0 "refund?" noOptions))
      = (Ok (Some (Response (refundResponse []))), w2) /\
    trace w2 = trace (after env0 "refund?" noOptions)
                 ++ [queryMessage "refund?"; cachedMessage].
Proof.
  destruct (idempotence_after_retrieval env0 "refund?" noOptions initial
              (after env0 "refund?" noOptions) (Response (refundResponse []))
              (trace (after env0 "refund?" noOptions)) 1000)
    as (_ & r2 & w2 & logs & Hrun & Htrace & _ & _ & Hsame & _).
  - vm_compute. reflexivity.
  - reflexivity.
  - vm_compute. do 3 right. left. reflexivity.
  - unfold cache_stdTTL. lia.
  - exists w2. pose proof (Hsame (or_introl eq_refl)) as Hr. subst r2.
    split; [exact Hrun|].
    assert (Hw2 : w2 = snd (queryEmbeddings env0 "refund?" noOptions
                              (elapse 1000 (after env0 "refund?" noOptions))))
      by (rewrite Hrun; reflexivity).
    rewrite Hw2. vm_compute. reflexivity.
Defined.

(** * Further properties of the module *)

(** ** Retry wrapper *)

Lemma retry_from_recovers {T : Type} (fn : M T) (v : T) (w' : World) :
  forall k remaining i w,
    (k < remaining)%nat ->
    Recovers fn w (backoffs i k) v w' ->
    retry_from fn (i + Z.of_nat remaining) i remaining w = (Ok (Some v), w').
Proof.
  induction k as [|k IH]; intros remaining i w Hk Hrec.
  - destruct remaining as [|remaining]; [lia|].
    inversion Hrec as [w0 v0 w0' Hfn|]; subst.
    cbn [retry_from]. rewrite Hfn. reflexivity.
  - destruct remaining as [|remaining]; [lia|].
    cbn [backoffs] in Hrec.
    inversion Hrec as [|w0 e0 w1 ms waits v0 w0' Hfn Hrest]; subst.
    cbn [retry_from]. rewrite Hfn.
    replace (i =? i + Z.of_nat (S remaining) - 1)%Z with false
      by (symmetry; apply Z.eqb_neq; lia).
    unfold bind at 1. cbn [sleep].
    replace (i + Z.of_nat (S remaining)) with (i + 1 + Z.of_nat remaining) by lia.
    apply IH; [lia|exact Hrest].
Qed.

Lemma retry_from_resolved {T : Type} (fn : M T) (r : option T) (w' : World) :
  forall remaining i w,
    retry_from fn (i + Z.of_nat remaining) i remaining w = (Ok r, w') ->
    (remaining = O /\ r = None /\ w' = w) \/
    exists k v, r = Some v /\ (k < remaining)%nat /\ Recovers fn w (backoffs i k) v w'.
Proof.
  induction remaining as [|remaining IH]; intros i w Hrun.
  - left. cbn in Hrun. injection Hrun as <- <-. repeat split.
  - right. cbn [retry_from] in Hrun.
    destruct (fn w) as [[v|e] w1] eqn:Hfn.
    + injection Hrun as <- <-. exists O, v.
      split; [reflexivity|]. split; [lia|]. constructor. exact Hfn.
    + destruct (i =? i + Z.of_nat (S remaining) - 1)%Z eqn:Hlast; [discriminate|].
      apply Z.eqb_neq in Hlast.
      unfold bind at 1 in Hrun. cbn [sleep] in Hrun.
      replace (i + Z.of_nat (S remaining)) with (i + 1 + Z.of_nat remaining) in Hrun by lia.
      apply IH in Hrun as [(-> & _)|(k & v & -> & Hk & Hrec)]; [lia|].
      exists (S k), v. split; [reflexivity|]. split; [lia|].
      cbn [backoffs]. econstructor; [exact Hfn|exact Hrec].
Qed.

(** X1. [retry] resolves in two ways only. With [maxRetries] at most 0 it
    resolves to [undefined] at once. Otherwise it resolves to the value of
    the first attempt that comes through, one of the first [maxRetries],
    having slept 1000, 2000, 4000, ... ms after the failed attempts before
    it; it makes no attempt after that one, and never resolves to
    [undefined]. *)
Theorem retry_resolves {T : Type} (fn : M T) (maxRetries : Z) (w w' : World)
    (r : option T) :
  retry fn maxRetries w = (Ok r, w') <->
  (maxRetries <= 0 /\ r = None /\ w' = w) \/
  (exists k v, r = Some v /\ Z.of_nat k < maxRetries /\ Recovers fn w (backoffs 0 k) v w').
Proof.
  unfold retry. split.
  - intros Hrun.
    destruct (Z.le_gt_cases maxRetries 0) as [Hn|Hn].
    + left. replace (Z.to_nat maxRetries) with O in Hrun by lia.
      cbn in Hrun. injection Hrun as <- <-. repeat split. exact Hn.
    + right. replace maxRetries with (0 + Z.of_nat (Z.to_nat maxRetries)) in Hrun at 1 by lia.
      apply retry_from_resolved in Hrun as [(H0 & _)|(k & v & -> & Hk & Hrec)]; [lia|].
      exists k, v. split; [reflexivity|]. split; [lia|exact Hrec].
  - intros [(Hn & -> & ->)|(k & v & -> & Hk & Hrec)].
    + replace (Z.to_nat maxRetries) with O by lia. reflexivity.
    + replace maxRetries with (0 + Z.of_nat (Z.to_nat maxRetries)) at 1 by lia.
      apply (retry_from_recovers fn v w' k); [lia|exact Hrec].
Qed.

(** The embedding service comes back after two seconds: the third attempt
    resolves, three seconds after the first. *)
Example retry_recovers_at_the_third_attempt :
  retry (call (EmbedQuery "hello") (embed_after 2000 "hello")) 3 initial
    = (Ok (Some [1; 0]%Q),
       mkWorld 3000
         [ EmbedQuery "hello"; SetTimeout 1000; EmbedQuery "hello"; SetTimeout 2000;
           EmbedQuery "hello" ]
         ∅ ∅).
Proof. reflexivity. Qed.

Lemma retry_from_latency {T : Type} (fn : M T) :
  (forall w0, now (snd (fn w0)) = now w0) ->
  forall remaining i w r w',
    0 <= i ->
    retry_from fn (i + Z.of_nat remaining) i remaining w = (r, w') ->
    now w <= now w' <= now w + fold_right Z.add 0 (backoffs i (pred remaining)).
Proof.
  intros Hclock. induction remaining as [|remaining IH]; intros i w r w' Hi Hrun.
  - cbn in Hrun. injection Hrun as _ <-. cbn. lia.
  - cbn [retry_from] in Hrun. pose proof (Hclock w) as Hw.
    assert (Hsum : forall j count, 0 <= j -> 0 <= fold_right Z.add 0 (backoffs j count)).
    { intros j count Hj. rewrite backoffs_sum by exact Hj.
      assert (0 < 2 ^ j) by (apply Z.pow_pos_nonneg; lia).
      assert (0 < 2 ^ Z.of_nat count) by (apply Z.pow_pos_nonneg; lia). nia. }
    destruct (fn w) as [[v|e] w1] eqn:Hfn; cbn [snd] in Hw.
    + injection Hrun as _ <-. specialize (Hsum i (pred (S remaining)) Hi). lia.
    + destruct (i =? i + Z.of_nat (S remaining) - 1)%Z eqn:Hlast.
      * injection Hrun as _ <-. specialize (Hsum i (pred (S remaining)) Hi). lia.
      * apply Z.eqb_neq in Hlast. destruct remaining as [|remaining]; [lia|].
        unfold bind at 1 in Hrun. cbn [sleep] in Hrun.
        replace (i + Z.of_nat (S (S remaining))) with (i + 1 + Z.of_nat (S remaining))
          in Hrun by lia.
        apply IH in Hrun; [|lia]. cbn [now pred] in Hrun. cbn [pred backoffs fold_right].
        assert (0 < 2 ^ i) by (apply Z.pow_pos_nonneg; lia). lia.
Qed.

(** X2. Whatever the outcome, [retry] over an operation that takes no time
    of its own delays its caller by at most [1000 * (2^(maxRetries - 1) - 1)]
    ms, the sum of all its backoff sleeps: three seconds with the default of
    three attempts. *)
Theorem retry_latency_bound {T : Type} (fn : M T) (maxRetries : Z) (w w' : World)
    (r : Outcome (option T)) :
  1 <= maxRetries ->
  (forall w0, now (snd (fn w0)) = now w0) ->
  retry fn maxRetries w = (r, w') ->
  now w <= now w' <= now w + 1000 * (2 ^ (maxRetries - 1) - 1).
Proof.
  intros Hn Hclock Hrun. unfold retry in Hrun.
  replace maxRetries with (0 + Z.of_nat (Z.to_nat maxRetries)) in Hrun at 1 by lia.
  apply (retry_from_latency fn Hclock) in Hrun; [|lia].
  rewrite backoffs_sum in Hrun by lia.
  replace (Z.of_nat (pred (Z.to_nat maxRetries))) with (maxRetries - 1) in Hrun by lia.
  cbn in Hrun. lia.
Qed.

Lemma retry_latency_bound_witness :
  now initial
    <= now (snd (retry_default (call (EmbedQuery "hello") (@unavailable Vector)) initial))
    <= now initial + 3000.
Proof.
  apply (retry_latency_bound (call (EmbedQuery "hello") (@unavailable Vector)) 3 initial _
           (fst (retry_default (call (EmbedQuery "hello") (@unavailable Vector)) initial))).
  - lia.
  - intros w0. reflexivity.
  - reflexivity.
Defined.

(** The retry loop over a collaborator call leaves in the trace the call
    and, between two calls, the backoff sleep; it rejects only after the
    last attempt. *)
Lemma retry_from_call_trace {T : Type} ev (answer : World -> Outcome T) :
  forall remaining i w r w1,
    0 <= i ->
    retry_from (call ev answer) (i + Z.of_nat (S remaining)) i (S remaining) w = (r, w1) ->
    exists attempts,
      (attempts <= remaining)%nat /\
      trace w1 = trace w ++ attempts_trace ev i (S attempts) /\
      now w1 = now w + fold_right Z.add 0 (backoffs i attempts) /\
      cache w1 = cache w /\ messageCache w1 = messageCache w /\
      match r with
      | Ok (Some v) => exists w0, answer w0 = Ok v
      | Ok None => False
      | Err e => attempts = remaining /\ exists w0, answer w0 = Err e
      end.
Proof.
  induction remaining as [|k IH]; intros i w r w1 Hi Hrun.
  - cbn [retry_from] in Hrun. unfold call at 1 in Hrun. exists O.
    destruct (answer w) as [v|e] eqn:Hans.
    + injection Hrun as <- <-. cbn. repeat split; try lia. exists w. exact Hans.
    + replace (i =? i + Z.of_nat 1 - 1)%Z with true in Hrun
        by (symmetry; apply Z.eqb_eq; lia).
      injection Hrun as <- <-. cbn. repeat split; try lia. exists w. exact Hans.
  - cbn [retry_from] in Hrun. unfold call at 1 in Hrun.
    destruct (answer w) as [v|e] eqn:Hans.
    + injection Hrun as <- <-. exists O. cbn. repeat split; try lia. exists w. exact Hans.
    + replace (i =? i + Z.of_nat (S (S k)) - 1)%Z with false in Hrun
        by (symmetry; apply Z.eqb_neq; lia).
      unfold bind at 1 in Hrun. cbn [sleep] in Hrun.
      replace (i + Z.of_nat (S (S k))) with (i + 1 + Z.of_nat (S k)) in Hrun by lia.
      apply IH in Hrun as (attempts & Hle & Ht & Hnow & Hc & Hm & Hr); [|lia].
      cbn [now trace cache messageCache log] in Ht, Hnow, Hc, Hm.
      exists (S attempts). split; [lia|]. split; [|split; [|split; [|split]]].
      * rewrite Ht, attempts_trace_S, <- !app_assoc. reflexivity.
      * rewrite Hnow. cbn [backoffs fold_right]. lia.
      * exact Hc.
      * exact Hm.
      * destruct r as [[v|]|e0]; [exact Hr|exact Hr|].
        destruct Hr as [-> Hr]. split; [reflexivity|exact Hr].
Qed.

Lemma retry_default_call_trace {T : Type} ev (answer : World -> Outcome T) w r w1 :
  retry_default (call ev answer) w = (r, w1) ->
  exists attempts,
    (attempts <= 2)%nat /\
    trace w1 = trace w ++ attempts_trace ev 0 (S attempts) /\
    now w1 = now w + fold_right Z.add 0 (backoffs 0 attempts) /\
    cache w1 = cache w /\ messageCache w1 = messageCache w /\
    match r with
    | Ok (Some v) => exists w0, answer w0 = Ok v
    | Ok None => False
    | Err e => attempts = 2%nat /\ exists w0, answer w0 = Err e
    end.
Proof.
  unfold retry_default, retry. change (Z.to_nat 3) with 3%nat.
  change 3 with (0 + Z.of_nat 3) at 1. intros H.
  apply retry_from_call_trace in H; [exact H|lia].
Qed.

Lemma attempts_trace_head ev i attempts :
  exists rest, attempts_trace ev i (S attempts) = ev :: rest.
Proof. destruct attempts; eexists; reflexivity. Qed.

Lemma attempts_trace_events ev i attempts :
  Forall (fun x => x = ev \/ is_timeout x = true) (attempts_trace ev i attempts).
Proof.
  revert i. induction attempts as [|[|k] IH]; intros i.
  - constructor.
  - repeat constructor.
  - rewrite attempts_trace_S. constructor; [left; reflexivity|].
    constructor; [right; reflexivity|]. apply IH.
Qed.

(** ** Vector store adapter *)

(** X3. [queryVectorStore] matches the store name exactly. For ["pinecone"]
    the first thing it does is query the index, for ["mongodb"] ask for the
    database handle; for any other name, a different capitalisation
    included, it rejects with [Vector store "<name>" is not implemented.]
    and has called nothing. *)
Theorem store_dispatch (env : Collaborators) (storeName : string)
    (queryVector : option Vector) (options : QueryVectorStoreOptions) (w w' : World)
    (r : Outcome (option (list VectorSearchResult))) :
  queryVectorStore env storeName queryVector options w = (r, w') ->
  (storeName = "pinecone" /\
   exists rest, trace w' = trace w ++ PineconeQuery (or5 (topK options)) queryVector :: rest) \/
  (storeName = "mongodb" /\ exists rest, trace w' = trace w ++ GetDb :: rest) \/
  (storeName <> "pinecone" /\ storeName <> "mongodb" /\ w' = w /\
   r = Err (Thrown "Error"
              ("Vector store " +:+ dq +:+ storeName +:+ dq +:+ " is not implemented."))).
Proof.
  intros Hrun. destruct (String.eqb_spec storeName "pinecone") as [->|Hp].
  - left. split; [reflexivity|]. unfold queryVectorStore in Hrun. cbn [String.eqb Ascii.eqb Bool.eqb] in Hrun.
    apply retry_default_call_trace in Hrun as (attempts & _ & Ht & _).
    destruct (attempts_trace_head (PineconeQuery (or5 (topK options)) queryVector) 0 attempts)
      as [rest Hrest].
    exists rest. rewrite Ht, Hrest. reflexivity.
  - destruct (String.eqb_spec storeName "mongodb") as [->|Hm].
    + right. left. split; [reflexivity|]. rewrite queryVectorStore_mongodb in Hrun.
      destruct (getDb env w) as [u|e].
      * cbn zeta in Hrun.
        destruct (aggregate env "docs" "vectorDocsIndex" queryVector (or5 (topK options))
                    (log GetDb w));
          injection Hrun as _ <-; eexists; cbn; rewrite <- app_assoc; reflexivity.
      * injection Hrun as _ <-. exists []. reflexivity.
    + right. right. unfold queryVectorStore in Hrun.
      rewrite (proj2 (String.eqb_neq _ _) Hp), (proj2 (String.eqb_neq _ _) Hm) in Hrun.
      injection Hrun as <- <-. repeat split; assumption.
Qed.

Lemma store_dispatch_witness :
  queryVectorStore env0 "Pinecone" None (mkStoreOptions None) initial
    = (Err (Thrown "Error" ("Vector store " +:+ dq +:+ "Pinecone" +:+ dq +:+ " is not implemented.")),
       initial).
Proof.
  destruct (store_dispatch env0 "Pinecone" None (mkStoreOptions None) initial
              (snd (queryVectorStore env0 "Pinecone" None (mkStoreOptions None) initial))
              (fst (queryVectorStore env0 "Pinecone" None (mkStoreOptions None) initial))
              eq_refl)
    as [[Hname _]|[[Hname _]|(_ & _ & Hw & Hr)]]; [discriminate Hname|discriminate Hname|].
  rewrite (surjective_pairing (queryVectorStore env0 "Pinecone" None (mkStoreOptions None) initial)).
  rewrite Hr, Hw. reflexivity.
Defined.

(** X4. The Pinecone branch asks the index for [topK || 5] matches, up to
    three times with sleeps of one and two seconds between, and issues no
    other call. What it resolves to is what the index answered, as it is,
    never [undefined]; it rejects, with what the index raised, only after
    three queries. *)
Theorem pinecone_query (env : Collaborators) (queryVector : option Vector)
    (options : QueryVectorStoreOptions) (w w' : World)
    (r : Outcome (option (list VectorSearchResult))) :
  queryVectorStore env "pinecone" queryVector options w = (r, w') ->
  let query := PineconeQuery (or5 (topK options)) queryVector in
  exists attempts,
    (1 <= attempts <= 3)%nat /\
    trace w' = trace w ++ attempts_trace query 0 attempts /\
    filter (fun x => is_timeout x = false) (attempts_trace query 0 attempts)
      = repeat query attempts /\
    cache w' = cache w /\ messageCache w' = messageCache w /\
    match r with
    | Ok (Some found) =>
        exists w0, pineconeQuery env (or5 (topK options)) queryVector w0 = Ok found
    | Ok None => False
    | Err e =>
        attempts = 3%nat /\
        exists w0, pineconeQuery env (or5 (topK options)) queryVector w0 = Err e
    end.
Proof.
  intros Hrun query. unfold queryVectorStore in Hrun. cbn [String.eqb Ascii.eqb Bool.eqb] in Hrun.
  apply retry_default_call_trace in Hrun as (attempts & Hle & Ht & _ & Hc & Hm & Hr).
  exists (S attempts). split; [lia|]. split; [exact Ht|].
  split; [apply attempts_trace_calls; reflexivity|].
  split; [exact Hc|]. split; [exact Hm|].
  destruct r as [[v|]|e]; [exact Hr|exact Hr|].
  destruct Hr as [-> Hr]. split; [reflexivity|exact Hr].
Qed.

Lemma pinecone_query_witness :
  exists attempts,
    (1 <= attempts <= 3)%nat /\
    trace (snd (queryVectorStore env0 "pinecone" None (mkStoreOptions (Some (Fin 0))) initial))
      = attempts_trace (PineconeQuery (Fin 5) None) 0 attempts.
Proof.
  destruct (pinecone_query env0 None (mkStoreOptions (Some (Fin 0))) initial
              (snd (queryVectorStore env0 "pinecone" None (mkStoreOptions (Some (Fin 0))) initial))
              (fst (queryVectorStore env0 "pinecone" None (mkStoreOptions (Some (Fin 0))) initial))
              eq_refl)
    as (attempts & Hle & Ht & _).
  exists attempts. split; [exact Hle|exact Ht].
Defined.

(** X5. What the MongoDB branch returns, whatever the number of candidates:
    with [k] the limit in force, it looks at the first [k + 1] documents the
    aggregation answered and at no other, and returns the [k] best of
    those by score, or all of them when fewer came back. A document beyond
    position [k + 1] is never returned, however high its score. *)
Theorem mongodb_first_candidates (env : Collaborators) (queryVector : option Vector)
    (options : QueryVectorStoreOptions) (k : Z) (w w' : World)
    (returned : option (list VectorSearchResult)) :
  or5 (topK options) = Fin k ->
  0 <= k ->
  queryVectorStore env "mongodb" queryVector options w = (Ok returned, w') ->
  exists docs top excluded,
    aggregate env "docs" "vectorDocsIndex" queryVector (Fin k) (log GetDb w) = Ok docs /\
    returned = Some top /\
    length top = Nat.min (Z.to_nat k) (length docs) /\
    Permutation (firstn (Z.to_nat (k + 1)) (candidates_of docs)) (top ++ excluded) /\
    (forall a b, In a top -> In b excluded -> desc a b) /\
    (forall a, In a top -> In a (firstn (Z.to_nat (k + 1)) (candidates_of docs))).
Proof.
  intros Hk Hpos Hrun. rewrite queryVectorStore_mongodb, Hk in Hrun.
  destruct (getDb env w) as [[]|e]; [|discriminate].
  lazy zeta in Hrun.
  destruct (aggregate env "docs" "vectorDocsIndex" queryVector (Fin k) (log GetDb w))
    as [docs|e]; [|discriminate].
  assert (Hret : returned = Some (topResults_of (Fin k) (candidates_of docs))) by congruence.
  clear Hrun. subst returned.
  rewrite topResults_of_firstn by exact Hpos.
  set (considered := firstn (Z.to_nat (k + 1)) (candidates_of docs)).
  set (sorted := sort_by_score considered).
  assert (Hperm : Permutation considered (firstn (Z.to_nat k) sorted ++ skipn (Z.to_nat k) sorted)).
  { rewrite firstn_skipn. subst sorted. symmetry. apply sort_by_score_perm. }
  exists docs, (firstn (Z.to_nat k) sorted), (skipn (Z.to_nat k) sorted).
  split; [reflexivity|]. split; [reflexivity|].
  split; [|split; [exact Hperm|split]].
  - rewrite length_firstn. subst sorted.
    rewrite (Permutation_length (sort_by_score_perm considered)). subst considered.
    rewrite length_firstn. unfold candidates_of. rewrite length_map. lia.
  - pose proof (sort_by_score_sorted considered) as Hsorted. fold sorted in Hsorted.
    rewrite <- (firstn_skipn (Z.to_nat k) sorted) in Hsorted.
    apply sorted_split in Hsorted as [_ Hcross]. exact Hcross.
  - intros a Ha. eapply Permutation_in; [symmetry; exact Hperm|].
    apply in_or_app. left. exact Ha.
Qed.

Lemma mongodb_first_candidates_witness :
  exists top,
    fst (queryVectorStore env_unsorted "mongodb" None (mkStoreOptions (Some (Fin 1))) initial)
      = Ok (Some top) /\
    length top = 1%nat /\
    forall a, In a top -> In a (candidates_of [mkDocument (JStr "a") [] 1; mkDocument (JStr "b") [] 2]).
Proof.
  destruct (mongodb_first_candidates env_unsorted None (mkStoreOptions (Some (Fin 1))) 1 initial
              (snd (queryVectorStore env_unsorted "mongodb" None (mkStoreOptions (Some (Fin 1)))
                      initial))
              (Some (topResults_of (Fin 1) (candidates_of
                 [ mkDocument (JStr "a") [] 1; mkDocument (JStr "b") [] 2;
                   mkDocument (JStr "c") [] 9 ]))))
    as (docs & top & excluded & Hdocs & Htop & Hlen & _ & _ & Hin);
    [reflexivity|lia|reflexivity|].
  injection Hdocs as <-.
  exists top. split; [rewrite <- Htop; reflexivity|]. split; [exact Hlen|exact Hin].
Defined.

Lemma assoc_assoc_set (k k' : string) (v : jsval) (props : list (string * jsval)) :
  assoc k (assoc_set k' v props) = if String.eqb k k' then Some v else assoc k props.
Proof.
  induction props as [|[k1 v1] rest IH]; cbn [assoc_set assoc].
  - reflexivity.
  - destruct (String.eqb_spec k' k1) as [->|Hne]; cbn [assoc].
    + destruct (String.eqb k k1); reflexivity.
    + rewrite IH. destruct (String.eqb_spec k k1) as [->|Hk]; [|reflexivity].
      rewrite (proj2 (String.eqb_neq _ _)) by congruence. reflexivity.
Qed.

Lemma assoc_not_key (k : string) (props : list (string * jsval)) :
  ~ In k (map fst props) -> assoc k props = None.
Proof.
  induction props as [|[k1 v1] rest IH]; cbn; [reflexivity|].
  intros Hnot. destruct (String.eqb_spec k k1) as [->|Hne]; [tauto|]. apply IH. tauto.
Qed.

(** Object spread: a property of the second object wins over one of the
    first with the same name. *)
Lemma assoc_spread (k : string) (more base : list (string * jsval)) :
  List.NoDup (map fst more) ->
  assoc k (spread base more) =
  match assoc k more with
  | Some v => Some v
  | None => assoc k base
  end.
Proof.
  unfold spread. revert base. induction more as [|[k1 v1] rest IH]; intros base Hnd;
    cbn [fold_left assoc fst snd map] in *.
  - reflexivity.
  - apply List.NoDup_cons_iff in Hnd as [Hnot Hnd]. rewrite IH by exact Hnd.
    rewrite assoc_assoc_set.
    destruct (String.eqb_spec k k1) as [->|Hne]; [|reflexivity].
    rewrite assoc_not_key by exact Hnot. reflexivity.
Qed.

(** X6. [queryMongoCollection] turns the documents the aggregation answered
    into results one for one, in the same order and with the same scores.
    The metadata of a result holds every property of the document's
    metadata, and the document's own text under [text] only when the
    metadata has no [text] of its own: in [{text: doc.text, ...doc.metadata}]
    a [text] inside the metadata replaces the text of the document. *)
Theorem queryMongoCollection_metadata (env : Collaborators) (collection indexName : string)
    (queryVector : option Vector) (topK : jsnum) (w : World) (docs : list Document) :
  aggregate env collection indexName queryVector (or5 (Some topK)) w = Ok docs ->
  Forall (fun doc => List.NoDup (map fst (doc_metadata doc))) docs ->
  exists results,
    queryMongoCollection env collection indexName queryVector topK w
      = (Ok results, log (Aggregate collection indexName queryVector (or5 (Some topK))) w) /\
    Forall2 (fun doc result =>
               score result = doc_score doc /\
               forall key,
                 assoc key (metadata result) =
                 match assoc key (doc_metadata doc) with
                 | Some v => Some v
                 | None => if String.eqb key "text" then Some (doc_text doc) else None
                 end)
            docs results.
Proof.
  intros Hdocs Hnd. unfold queryMongoCollection, bind, call. rewrite Hdocs.
  eexists. split; [reflexivity|]. clear Hdocs.
  induction Hnd as [|doc rest Hdoc _ IH]; cbn [map]; constructor; [|exact IH].
  cbn [score metadata]. split; [reflexivity|]. intros key.
  rewrite assoc_spread by exact Hdoc. cbn [assoc].
  destruct (assoc key (doc_metadata doc)); reflexivity.
Qed.

Lemma queryMongoCollection_metadata_witness :
  exists results,
    fst (queryMongoCollection env_ties "docs" "vectorDocsIndex" None (Fin 5) initial)
      = Ok results /\
    map (fun result => assoc "text" (metadata result)) results
      = [Some (JStr "a"); Some (JStr "from metadata"); Some (JStr "c"); Some (JStr "d")].
Proof.
  destruct (queryMongoCollection_metadata env_ties "docs" "vectorDocsIndex" None (Fin 5) initial
              [ mkDocument (JStr "a") [] 1;
                mkDocument (JStr "b") [("text", JStr "from metadata"); ("language", JStr "en")] 2;
                mkDocument (JStr "c") [] 2;
                mkDocument (JStr "d") [] 9 ])
    as (results & Hrun & _).
  - reflexivity.
  - repeat constructor; cbn; intros H; decompose [or] H; try discriminate; assumption.
  - exists results. rewrite Hrun. split; [reflexivity|].
    injection Hrun as <-. reflexivity.
Defined.

Lemma filter_insert_by_score (q : Q) (x : VectorSearchResult) (l : list VectorSearchResult) :
  filter (scored q) (insert_by_score x l) = filter (scored q) (x :: l).
Proof.
  induction l as [|y l IH]; cbn [insert_by_score]; [reflexivity|].
  destruct (Qle_bool (score y) (score x)) eqn:Hle; [reflexivity|].
  destruct (decide (scored q y)) as [Hy|Hy].
  - rewrite (filter_cons_True _ y) by exact Hy. rewrite IH.
    destruct (decide (scored q x)) as [Hx|Hx].
    + exfalso. unfold scored in Hx, Hy.
      apply Qeq_bool_iff in Hx. apply Qeq_bool_iff in Hy.
      assert (Hyx : (score y <= score x)%Q) by (rewrite Hx, Hy; apply Qle_refl).
      apply Qle_bool_iff in Hyx. congruence.
    + rewrite !(filter_cons_False _ x) by exact Hx.
      rewrite (filter_cons_True _ y) by exact Hy. reflexivity.
  - rewrite (filter_cons_False _ y) by exact Hy. rewrite IH.
    destruct (decide (scored q x)) as [Hx|Hx].
    + rewrite !(filter_cons_True _ x) by exact Hx.
      rewrite (filter_cons_False _ y) by exact Hy. reflexivity.
    + rewrite !(filter_cons_False _ x) by exact Hx.
      rewrite (filter_cons_False _ y) by exact Hy. reflexivity.
Qed.

Lemma filter_sort_by_score (q : Q) (l : list VectorSearchResult) :
  filter (scored q) (sort_by_score l) = filter (scored q) l.
Proof.
  induction l as [|x l IH]; cbn [sort_by_score]; [reflexivity|].
  rewrite filter_insert_by_score.
  destruct (decide (scored q x)) as [Hx|Hx].
  - rewrite !(filter_cons_True _ x) by exact Hx. rewrite IH. reflexivity.
  - rewrite !(filter_cons_False _ x) by exact Hx. exact IH.
Qed.

(** X7. The sort of line 160 is stable. Among the matches the MongoDB
    branch returns, those of one score stand in the order the aggregation
    answered them, and they are the first of that score among the documents
    considered: none is passed over for a later one of the same score. *)
Theorem ties_keep_index_order (env : Collaborators) (queryVector : option Vector)
    (options : QueryVectorStoreOptions) (k : Z) (w w' : World)
    (returned : option (list VectorSearchResult)) :
  or5 (topK options) = Fin k ->
  0 <= k ->
  queryVectorStore env "mongodb" queryVector options w = (Ok returned, w') ->
  exists docs top,
    aggregate env "docs" "vectorDocsIndex" queryVector (Fin k) (log GetDb w) = Ok docs /\
    returned = Some top /\
    forall q,
      filter (scored q) top
        `prefix_of` filter (scored q) (firstn (Z.to_nat (k + 1)) (candidates_of docs)).
Proof.
  intros Hk Hpos Hrun. rewrite queryVectorStore_mongodb, Hk in Hrun.
  destruct (getDb env w) as [[]|e]; [|discriminate].
  lazy zeta in Hrun.
  destruct (aggregate env "docs" "vectorDocsIndex" queryVector (Fin k) (log GetDb w))
    as [docs|e]; [|discriminate].
  assert (Hret : returned = Some (topResults_of (Fin k) (candidates_of docs))) by congruence.
  clear Hrun. subst returned.
  exists docs, (topResults_of (Fin k) (candidates_of docs)).
  split; [reflexivity|]. split; [reflexivity|]. intros q.
  rewrite topResults_of_firstn by exact Hpos.
  set (considered := firstn (Z.to_nat (k + 1)) (candidates_of docs)).
  rewrite <- (filter_sort_by_score q considered).
  rewrite <- (firstn_skipn (Z.to_nat k) (sort_by_score considered)) at 2.
  rewrite filter_app. eexists. reflexivity.
Qed.

Lemma ties_keep_index_order_witness :
  exists top,
    fst (queryVectorStore env_ties "mongodb" None (mkStoreOptions (Some (Fin 3))) initial)
      = Ok (Some top) /\
    map (fun result => assoc "text" (metadata result)) (filter (scored 2) top)
      = [Some (JStr "from metadata"); Some (JStr "c")].
Proof.
  destruct (ties_keep_index_order env_ties None (mkStoreOptions (Some (Fin 3))) 3 initial
              (snd (queryVectorStore env_ties "mongodb" None (mkStoreOptions (Some (Fin 3)))
                      initial))
              (Some (topResults_of (Fin 3) (candidates_of
                 [ mkDocument (JStr "a") [] 1;
                   mkDocument (JStr "b") [("text", JStr "from metadata"); ("language", JStr "en")] 2;
                   mkDocument (JStr "c") [] 2;
                   mkDocument (JStr "d") [] 9 ]))))
    as (docs & top & _ & Htop & _); [reflexivity|lia|reflexivity|].
  exists top. injection Htop as <-. split; [reflexivity|]. vm_compute. reflexivity.
Defined.

(** ** The last conversation *)

Lemma cache_set_stores (key : string) (v : CacheValue) (ttl : Z) (w : World) :
  Z.of_nat (size (cache w)) < cache_maxKeys ->
  cache_set key v ttl w
    = (Ok tt, mkWorld (now w) (trace w)
                (<[key := (v, NodeCache.livetime (now w) ttl)]> (cache w)) (messageCache w)).
Proof.
  intros Hsize. unfold cache_set, NodeCache.set.
  replace (Z.of_nat (size (cache w)) >=? cache_maxKeys)%Z with false
    by (symmetry; rewrite Z.geb_leb; apply Z.leb_gt; exact Hsize).
  rewrite andb_false_r. reflexivity.
Qed.


Lemma lastConversation_key_inj (a b : string) :
  "lastConversation:" +:+ a = "lastConversation:" +:+ b -> a = b.
Proof. apply String.app_inj. Qed.



(** X9. Conversations are kept per user: storing one for a user, or
    failing to, changes nothing in what [getLastConversation] returns to any
    other user. *)
Theorem lastConversation_per_user (userId other : string) (conversation : jsval)
    (w : World) :
  userId <> other ->
  fst (getLastConversation other (snd (setLastConversation userId conversation w)))
    = fst (getLastConversation other w).
Proof.
  intros Hne. unfold setLastConversation, cache_set.
  destruct (NodeCache.set _ _ _ _ _ _) as [data|e] eqn:Hset; [|reflexivity].
  unfold NodeCache.set in Hset.
  destruct (_ && _); [discriminate|]. injection Hset as <-.
  unfold getLastConversation, cache_get, NodeCache.get. cbn [snd now cache].
  rewrite lookup_insert_ne.
  - destruct (cache w !! ("lastConversation:" +:+ other)) as [[v t]|]; [|reflexivity].
    destruct (NodeCache.expired (now w) t); reflexivity.
  - intros Heq. apply Hne. apply lastConversation_key_inj. exact Heq.
Qed.

Lemma lastConversation_per_user_witness :
  fst (getLastConversation "alice" (snd (setLastConversation "bob" (JStr "hi") initial)))
    = Ok None.
Proof.
  rewrite (lastConversation_per_user "bob" "alice" (JStr "hi") initial).
  - reflexivity.
  - discriminate.
Defined.

(** ** The two caches over a turn *)

Lemma get_frame {V : Type} now key (data data' : gmap string (V * Z)) r :
  NodeCache.get now key data = (r, data') ->
  forall k, k <> key -> data' !! k = data !! k.
Proof.
  unfold NodeCache.get. destruct (data !! key) as [[v t]|]; [destruct (NodeCache.expired now t)|];
    intros H; injection H as <- <-; intros k Hk; try reflexivity.
  apply lookup_delete_ne. congruence.
Qed.

Lemma get_unexpired {V : Type} now key (data data' : gmap string (V * Z)) r :
  NodeCache.get now key data = (r, data') ->
  (forall v t, data !! key = Some (v, t) -> NodeCache.expired now t = false) ->
  data' = data.
Proof.
  unfold NodeCache.get. intros H Hlive. destruct (data !! key) as [[v t]|].
  - rewrite (Hlive v t eq_refl) in H. injection H as <- <-. reflexivity.
  - injection H as <- <-. reflexivity.
Qed.

Lemma seen_frame messageId w r w1 :
  seen messageId w = (r, w1) ->
  (forall id, messageId <> Some id -> messageCache w1 !! id = messageCache w !! id) /\
  (messageId = None \/ messageId = Some EmptyString -> w1 = w).
Proof.
  unfold seen. destruct messageId as [id|].
  2:{ intros H. injection H as <- <-. split; reflexivity. }
  destruct (str_truthy id) eqn:Hid.
  2:{ intros H. injection H as <- <-. split; reflexivity. }
  unfold bind, messageCache_get, ret.
  destruct (NodeCache.get (now w) id (messageCache w)) as [stored data] eqn:Hget.
  intros H. injection H as <- <-. cbn [messageCache]. split.
  - intros id' Hne. eapply get_frame; [exact Hget|]. congruence.
  - intros [[=]|[= ->]]. discriminate.
Qed.

Lemma seen_unmarked messageId w :
  (forall id, messageId = Some id -> ~ marked_seen w id) ->
  exists w1,
    seen messageId w = (Ok false, w1) /\
    now w1 = now w /\ trace w1 = trace w /\ cache w1 = cache w /\
    messageCache w1 ⊆ messageCache w.
Proof.
  intros Hun.
  destruct (seen_inv messageId w) as (dup & w1 & Hseen & Hnow & Htr & Hc & Hm & Hdup & _).
  exists w1. destruct dup; [|repeat (split; [assumption|]); assumption].
  exfalso. destruct (proj1 Hdup eq_refl) as (id & t & Hid & _ & Hl & Hexp).
  apply (Hun id Hid). exists true, t. split; assumption.
Qed.

Lemma marked_frame messageId now (data : gmap string (bool * Z)) :
  (forall id, messageId <> Some id -> marked messageId now data !! id = data !! id) /\
  (messageId = None \/ messageId = Some EmptyString -> marked messageId now data = data).
Proof.
  unfold marked. destruct messageId as [id0|]; [|split; reflexivity].
  destruct (str_truthy id0) eqn:Hid; [|split; reflexivity]. split.
  - intros id Hne. apply lookup_insert_ne. congruence.
  - intros [[=]|[= ->]]. discriminate.
Qed.

(** What [answerQuery] does to the caches. *)
Lemma answerQuery_frame (env : Collaborators) api query options cacheKey w r w' :
  api_quiet api ->
  answerQuery env api query options cacheKey w = (r, w') ->
  (forall key, key <> cacheKey -> cache w' !! key = cache w !! key) /\
  (forall id, messageId options <> Some id -> messageCache w' !! id = messageCache w !! id) /\
  (messageId options = None \/ messageId options = Some EmptyString ->
   messageCache w' = messageCache w).
Proof.
  intros Hapi Hrun.
  apply (answerQuery_inv _ _ _ _ _ _ _ _ Hapi) in Hrun
    as [(e & _ & (Hc & Hm & _))
       |[(c & ? & ? & ? & ? & _ & (Hc & Hm & _) & _)
        |(w_r & i & wi & (Hcr & Hmr & _) & _ & _ & Hsaved)]].
  - rewrite Hc, Hm. repeat split.
  - rewrite Hc, Hm. repeat split.
  - destruct Hsaved as (w_s & ? & result & ? & ? & ? & _ & _ & _ & _ & _ & _ & _ & Hr).
    destruct (marked_frame (messageId options) (now w') (messageCache w_r)) as [Hmf Hme].
    rewrite <- Hcr, <- Hmr.
    destruct Hr as [(_ & Hc & Hm & _)|(e & _ & Hc & [Hm|[Hm _]])]; rewrite Hc, Hm.
    + split; [intros key Hk; apply lookup_insert_ne; congruence|]. split; assumption.
    + repeat split.
    + split; [reflexivity|]. split; assumption.
Qed.

(** X10. A turn reads and writes the result cache under its own cache key
    only, and the dedup cache under its own message id only: every other
    entry of either cache, the stored conversations among them, is after the
    turn what it was before. A turn without a message id, or with the empty
    one, leaves the whole dedup cache as it was. *)
Theorem turn_touches_own_keys (env : Collaborators) (query : string)
    (options : QueryEmbeddingsOptions) (w w' : World) (r : Outcome (option CacheValue)) :
  queryEmbeddings env query options w = (r, w') ->
  (forall key, key <> cacheKey_of query options -> cache w' !! key = cache w !! key) /\
  (forall id, messageId options <> Some id -> messageCache w' !! id = messageCache w !! id) /\
  (messageId options = None \/ messageId options = Some EmptyString ->
   messageCache w' = messageCache w).
Proof.
  unfold queryEmbeddings. rewrite queryEmbeddings_with_prelude.
  destruct (seen_inv (messageId options) w) as (dup & w1 & Hseen & _ & _ & Hc1 & _).
  rewrite Hseen.
  destruct (seen_frame _ _ _ _ Hseen) as [Hm1 Hm1'].
  destruct dup.
  - intros H. injection H as _ <-. cbn [log cache messageCache]. rewrite Hc1.
    split; [reflexivity|]. split; [exact Hm1|]. intros Hid. rewrite (Hm1' Hid). reflexivity.
  - destruct (NodeCache.get (now w1) (cacheKey_of query options) (cache w1))
      as [cached data] eqn:Hget.
    pose proof (get_frame _ _ _ _ _ Hget) as Hdata. rewrite Hc1 in Hdata.
    lazy zeta. destruct (from_option value_truthy false cached) eqn:Htruthy.
    + intros H. injection H as _ <-. cbn [log cache messageCache].
      split; [exact Hdata|]. split; [exact Hm1|]. intros Hid. rewrite (Hm1' Hid). reflexivity.
    + intros H. apply (answerQuery_frame _ _ _ _ _ _ _ _ queryExternalAPI_quiet) in H
        as (Hc & Hm & Hm').
      cbn [cache messageCache] in Hc, Hm, Hm'.
      split; [intros key Hk; rewrite Hc by exact Hk; apply Hdata, Hk|].
      split; [intros id Hid; rewrite Hm by exact Hid; apply Hm1, Hid|].
      intros Hid. rewrite (Hm' Hid), (Hm1' Hid). reflexivity.
Qed.

Lemma turn_touches_own_keys_witness :
  cache (snd (queryEmbeddings env0 "refund?" noOptions
                (snd (setLastConversation "bob" (JStr "hi") initial))))
    !! "lastConversation:bob"
  = Some (Stored (JStr "hi"), 86400000).
Proof.
  destruct (turn_touches_own_keys env0 "refund?" noOptions
              (snd (setLastConversation "bob" (JStr "hi") initial))
              (snd (queryEmbeddings env0 "refund?" noOptions
                      (snd (setLastConversation "bob" (JStr "hi") initial))))
              (fst (queryEmbeddings env0 "refund?" noOptions
                      (snd (setLastConversation "bob" (JStr "hi") initial)))))
    as [Hc _].
  - apply surjective_pairing.
  - rewrite Hc; [vm_compute; reflexivity|]. vm_compute. discriminate.
Defined.

(** ** Enrichment *)

(** X11. The enrichment call cannot fail: whatever the name and the payload,
    [queryExternalAPI] writes one console line and resolves to the one mock
    record. A response produced through the retrieval branch has that record
    as its [apiResults] when [options.enableAPIQuery] is [true], and the
    empty list when it is [false] or absent. *)
Theorem enrichment_resolves (env : Collaborators) (query : string)
    (options : QueryEmbeddingsOptions) (w w' : World) (response : QueryEmbeddingsResponse)
    (added : list Event) :
  queryEmbeddings env query options w = (Ok (Some (Response response)), w') ->
  trace w' = trace w ++ added ->
  In GetDb added ->
  (forall name payload w0,
     queryExternalAPI name payload w0
       = (Ok mockResponse,
          log (ConsoleLog ("Calling API: " +:+ name +:+ " with payload:") [payload]) w0)) /\
  apiResults response = (if default false (enableAPIQuery options) then mockResponse else []).
Proof.
  intros Hrun Htrace Hin. split; [reflexivity|].
  destruct (turn_endings env _ _ _ _ _ _ _ queryExternalAPI_quiet Hrun Htrace)
    as [(id & [=] & _)
       |[(v' & _ & -> & _)
        |[(e & [=] & _)
         |[(content & w0 & c & intent & wi & _ & Hall & _)
          |(before & memory & result & content & w0 & c & intent & wi
            & _ & _ & _ & _ & _ & Hres & _ & _ & Hr)]]]].
  - destruct Hin as [[=]|[[=]|[]]].
  - rewrite Forall_forall in Hall. apply list_elem_of_In, Hall in Hin as [Hge _].
    destruct Hge as [[=]|[[=]|[[=]|[[=]|[=]]]]].
  - destruct Hr as [([= ->] & _)|(e & [=] & _)].
    destruct (default false (enableAPIQuery options)); [|exact Hres].
    destruct Hres as (payload & wa & wb & Hres).
    rewrite queryExternalAPI_resolves in Hres. injection Hres as <- _. reflexivity.
Qed.

Lemma enrichment_resolves_witness :
  exists response,
    fst (queryEmbeddings env0 "refund?" withEnrichment initial) = Ok (Some (Response response)) /\
    apiResults response = [JObj [("data", JStr "Mock API response")]].
Proof.
  destruct (enrichment_resolves env0 "refund?" withEnrichment initial
              (after env0 "refund?" withEnrichment) (refundResponse mockResponse)
              (trace (after env0 "refund?" withEnrichment)))
    as [_ Hresults].
  - vm_compute. reflexivity.
  - reflexivity.
  - vm_compute. do 3 right. left. reflexivity.
  - exists (refundResponse mockResponse). split; [vm_compute; reflexivity|exact Hresults].
Defined.

(** ** One cache, two uses *)

Lemma string_app_assoc (a b c : string) : (a +:+ b) +:+ c = a +:+ b +:+ c.
Proof.
  induction a as [|x a IH]; [reflexivity|].
  change (String x ((a +:+ b) +:+ c) = String x (a +:+ b +:+ c)). f_equal. exact IH.
Qed.

(** X12. The stored conversations and the cached responses share one cache,
    and their keys can meet: [lastConversation:<userId>] is the cache key of
    the query [lastConversation:<q>] whenever the user id is [<q>:] followed
    by the serialized options. A truthy conversation stored for such a user
    is then what [queryEmbeddings] returns for that query, as if it were a
    cached response, and no collaborator is called. *)
Theorem conversation_served_as_answer (env : Collaborators) (q : string)
    (options : QueryEmbeddingsOptions) (conversation : jsval) (w : World) :
  Z.of_nat (size (cache w)) < 1000 ->
  truthy conversation = true ->
  (forall id, messageId options = Some id -> ~ marked_seen w id) ->
  let userId := q +:+ ":" +:+ stringify (options_object options) in
  let w1 := snd (setLastConversation userId conversation w) in
  exists w',
    queryEmbeddings env ("lastConversation:" +:+ q) options w1
      = (Ok (Some (Stored conversation)), w') /\
    trace w' = trace w ++ [queryMessage ("lastConversation:" +:+ q); cachedMessage].
Proof.
  intros Hsize Htruthy Hfresh userId w1. subst userId w1.
  unfold setLastConversation. rewrite cache_set_stores by exact Hsize. cbn [snd].
  set (w1 := mkWorld _ _ _ _).
  assert (Hkey : "lastConversation:" +:+ q +:+ ":" +:+ stringify (options_object options)
                 = cacheKey_of ("lastConversation:" +:+ q) options).
  { unfold cacheKey_of. symmetry. apply string_app_assoc. }
  destruct (seen_unmarked (messageId options) w1) as (w2 & Hseen & Hnow & Htr & Hc & _).
  { intros id Hid. exact (Hfresh id Hid). }
  unfold queryEmbeddings. rewrite queryEmbeddings_with_prelude, Hseen, Hnow, Hc.
  subst w1. cbn [now cache]. rewrite Hkey.
  rewrite (get_live _ _ _ (Stored conversation) (NodeCache.livetime (now w) 86400)).
  - cbn [from_option value_truthy]. rewrite Htruthy.
    eexists. split; [reflexivity|]. cbn [log trace]. rewrite Htr, <- app_assoc. reflexivity.
  - apply lookup_insert_eq.
  - change (NodeCache.livetime (now w) 86400) with (now w + 86400 * 1000).
    unfold NodeCache.expired. replace (now w + 86400 * 1000 <? now w)%Z with false
      by (symmetry; apply Z.ltb_ge; lia).
    apply andb_false_r.
Qed.

Lemma conversation_served_as_answer_witness :
  fst (queryEmbeddings env0 "lastConversation:bob" noOptions
         (snd (setLastConversation "bob:{}" (JStr "yesterday's chat") initial)))
    = Ok (Some (Stored (JStr "yesterday's chat"))).
Proof.
  destruct (conversation_served_as_answer env0 "bob" noOptions (JStr "yesterday's chat") initial)
    as (w' & Hrun & _).
  - vm_compute. reflexivity.
  - reflexivity.
  - intros id [=].
  - apply (f_equal fst) in Hrun. exact Hrun.
Defined.

(** ** The dedup window *)

(** X13. Duplicates are told by the message id alone. Once a turn with a
    non-empty message id has resolved through the retrieval branch, any call
    carrying that id, whatever its query and its other options, returns
    [null] and does nothing but write the console line for the next 300
    seconds, and is no longer suppressed after that. *)
Theorem dedup_window (env : Collaborators) (query1 query2 : string)
    (options1 options2 : QueryEmbeddingsOptions) (id : string) (w w' : World)
    (v : CacheValue) (added : list Event) (d : Z) :
  queryEmbeddings env query1 options1 w = (Ok (Some v), w') ->
  trace w' = trace w ++ added ->
  In GetDb added ->
  messageId options1 = Some id ->
  id <> EmptyString ->
  messageId options2 = Some id ->
  0 <= now w' ->
  0 <= d ->
  let again := queryEmbeddings env query2 options2 (elapse d w') in
  (d <= 300 * 1000 -> again = (Ok None, log (dupMessage id) (elapse d w'))) /\
  (300 * 1000 < d -> ~ returns_null (fst again)).
Proof.
  intros Hrun Htrace Hin Hid1 Hne Hid2 Hnow Hd again. subst again.
  assert (Htruthy : str_truthy id = true) by (destruct id; [contradiction|reflexivity]).
  assert (Hmark : messageCache w' !! id = Some (true, now w' + 300 * 1000)).
  { destruct (turn_endings env _ _ _ _ _ _ _ queryExternalAPI_quiet Hrun Htrace)
      as [(? & [=] & _)
         |[(v' & _ & -> & _)
          |[(e & [=] & _)
           |[(content & w0 & c & intent & wi & _ & Hall & _)
            |(before & memory & result & content & w0 & c & intent & wi
              & _ & _ & _ & _ & _ & _ & _ & _ & Hr)]]]].
    - destruct Hin as [[=]|[[=]|[]]].
    - rewrite Forall_forall in Hall. apply list_elem_of_In, Hall in Hin as [Hge _].
      destruct Hge as [[=]|[[=]|[[=]|[[=]|[=]]]]].
    - destruct Hr as [(_ & _ & Hm & _)|(e & [=] & _)]. exact (Hm id Hid1 Htruthy). }
  split; intros Hd'.
  - unfold queryEmbeddings. rewrite queryEmbeddings_with_prelude.
    destruct (seen_inv (messageId options2) (elapse d w'))
      as (dup & w1 & Hseen & _ & _ & _ & _ & Hdup & Hsame).
    rewrite Hseen.
    assert (dup = true) as ->.
    { apply Hdup. exists id, (now w' + 300 * 1000). cbn [elapse messageCache now].
      repeat (split; [assumption|]).
      unfold NodeCache.expired. rewrite (proj2 (Z.ltb_ge _ _)) by lia. apply andb_false_r. }
    rewrite (Hsame eq_refl), Hid2. reflexivity.
  - intros Hnull.
    destruct (not_null_unless_suppressed env _ _ _ _ _ _ queryExternalAPI_quiet
                (surjective_pairing _) Hnull)
      as (id' & t & Hid' & _ & Hl & Hexp & _).
    rewrite Hid2 in Hid'. injection Hid' as <-.
    cbn [elapse messageCache now] in Hl, Hexp. rewrite Hmark in Hl. injection Hl as <-.
    unfold NodeCache.expired in Hexp.
    rewrite (proj2 (Z.ltb_lt _ _)) in Hexp by lia.
    rewrite (proj2 (Z.eqb_neq _ _)) in Hexp by lia. discriminate Hexp.
Qed.

Lemma dedup_window_witness :
  fst (queryEmbeddings env0 "another question" (withMessageId "m1")
         (elapse 1000 (after env0 "refund?" (withMessageId "m1"))))
    = Ok None.
Proof.
  destruct (dedup_window env0 "refund?" "another question" (withMessageId "m1")
              (withMessageId "m1") "m1" initial (after env0 "refund?" (withMessageId "m1"))
              (Response (refundResponse []))
              (trace (after env0 "refund?" (withMessageId "m1"))) 1000)
    as [Hnull _].
  - vm_compute. reflexivity.
  - reflexivity.
  - vm_compute. do 3 right. left. reflexivity.
  - reflexivity.
  - discriminate.
  - reflexivity.
  - vm_compute. discriminate.
  - lia.
  - rewrite Hnull by lia. reflexivity.
Defined.

(** ** What a turn may call *)

Section Adds.

Context (P : Event -> Prop).

Lemma adds_quiet {A : Type} (m : M A) :
  (forall w r w', m w = (r, w') -> trace w' = trace w) -> adds P m.
Proof.
  intros Hq w r w' H. exists []. rewrite app_nil_r. split; [eapply Hq; exact H|constructor].
Qed.

Lemma adds_ret {A : Type} (a : A) : adds P (ret a).
Proof. apply adds_quiet. intros w r w' H. injection H as _ <-. reflexivity. Qed.

Lemma adds_throw {A : Type} (e : Error) : adds P (@throw A e).
Proof. apply adds_quiet. intros w r w' H. injection H as _ <-. reflexivity. Qed.

Lemma adds_lift {A : Type} (o : Outcome A) : adds P (lift o).
Proof. apply adds_quiet. intros w r w' H. injection H as _ <-. reflexivity. Qed.

(** What follows an [await] may rely on what the awaited computation
    resolved to. *)
Lemma adds_bind_ok {A B : Type} (Q : A -> Prop) (m : M A) (k : A -> M B) :
  adds P m ->
  (forall w a w1, m w = (Ok a, w1) -> Q a) ->
  (forall a, Q a -> adds P (k a)) ->
  adds P (bind m k).
Proof.
  intros Hm HQ Hk w r w' H.
  apply bind_inv in H as [(e & H1 & ->)|(a & w1 & H1 & H)].
  - eapply Hm. exact H1.
  - destruct (Hm _ _ _ H1) as (added1 & Ht1 & Hall1).
    destruct (Hk a (HQ _ _ _ H1) _ _ _ H) as (added2 & Ht2 & Hall2).
    exists (added1 ++ added2). split; [rewrite Ht2, Ht1, app_assoc; reflexivity|].
    apply Forall_app. split; assumption.
Qed.

Lemma adds_bind {A B : Type} (m : M A) (k : A -> M B) :
  adds P m -> (forall a, adds P (k a)) -> adds P (bind m k).
Proof.
  intros Hm Hk. apply (adds_bind_ok (fun _ => True)); [exact Hm|trivial|].
  intros a _. apply Hk.
Qed.

Lemma adds_call {A : Type} (ev : Event) (answer : World -> Outcome A) :
  P ev -> adds P (call ev answer).
Proof.
  intros Hev w r w' H. apply call_inv in H as [_ ->].
  exists [ev]. split; [reflexivity|]. repeat constructor. exact Hev.
Qed.

Lemma adds_console_log (message : string) (args : list jsval) :
  P (ConsoleLog message args) -> adds P (console_log message args).
Proof.
  intros Hev w r w' H. injection H as _ <-.
  exists [ConsoleLog message args]. split; [reflexivity|]. repeat constructor. exact Hev.
Qed.

Lemma adds_retry_default_call {A : Type} (ev : Event) (answer : World -> Outcome A) :
  P ev -> P (SetTimeout 1000) -> P (SetTimeout 2000) ->
  adds P (retry_default (call ev answer)).
Proof.
  intros Hev H1 H2 w r w' H.
  apply retry_default_call_trace in H as (attempts & Hle & Ht & _).
  eexists. split; [exact Ht|].
  destruct attempts as [|[|[|attempts]]]; [| | |lia]; cbn; repeat constructor; assumption.
Qed.

Lemma adds_cache_get key : adds P (cache_get key).
Proof.
  apply adds_quiet. intros w r w' H. unfold cache_get in H.
  destruct (NodeCache.get _ _ _). injection H as _ <-. reflexivity.
Qed.

Lemma adds_cache_set key v ttl : adds P (cache_set key v ttl).
Proof.
  apply adds_quiet. intros w r w' H. unfold cache_set in H.
  destruct (NodeCache.set _ _ _ _ _ _); injection H as _ <-; reflexivity.
Qed.

Lemma adds_messageCache_set key v : adds P (messageCache_set key v).
Proof.
  apply adds_quiet. intros w r w' H. unfold messageCache_set in H.
  destruct (NodeCache.set _ _ _ _ _ _); injection H as _ <-; reflexivity.
Qed.

Lemma adds_seen messageId : adds P (seen messageId).
Proof.
  apply adds_quiet. intros w r w' H.
  destruct (seen_inv messageId w) as (dup & w1 & Hseen & _ & Ht & _).
  rewrite Hseen in H. injection H as _ <-. exact Ht.
Qed.

Lemma adds_message_content completion : adds P (message_content completion).
Proof.
  apply adds_quiet. intros w r w' H.
  apply message_content_inv in H as [-> _]. reflexivity.
Qed.

Lemma adds_pureGreeting intent : adds P (pureGreeting intent).
Proof.
  apply adds_quiet. intros w r w' H. apply pureGreeting_inv in H as ->. reflexivity.
Qed.

End Adds.

(** The calls of a turn once the query is embedded. *)
Lemma classify_and_answer_adds (env : Collaborators) (query : string)
    (options : QueryEmbeddingsOptions) (cacheKey : string) (queryVector : option Vector) :
  (exists v w0, queryVector = Some v /\ embedQuery env query w0 = Ok v) ->
  adds (turn_event env query options)
    (await intent <~ analyzeUserIntent env query in
     await greeting <~ pureGreeting intent in
     if greeting then greetingBranch env query
     else retrievalBranch env queryExternalAPI query options cacheKey queryVector intent).
Proof.
  intros Hvector.
  set (P := turn_event env query options).
  assert (Hsleep1 : P (SetTimeout 1000)) by (left; reflexivity).
  assert (Hsleep2 : P (SetTimeout 2000)) by (right; reflexivity).
  (* classification *)
  apply adds_bind.
  { unfold analyzeUserIntent. apply adds_bind; [apply adds_call; left; reflexivity|].
    intros completion. apply adds_bind; [apply adds_message_content|].
    intros content. apply adds_lift. }
  intros intent. apply adds_bind; [apply adds_pureGreeting|]. intros [|].
  { (* greeting *)
    unfold greetingBranch. apply adds_bind.
    { apply adds_retry_default_call; [right; left; reflexivity|assumption|assumption]. }
    intros completion. apply adds_bind; [apply adds_message_content|].
    intros content. apply adds_ret. }
  (* retrieval *)
  unfold retrievalBranch. apply adds_bind.
  { intros w r w' H. rewrite queryVectorStore_mongodb in H.
    assert (Hagg : P (Aggregate "docs" "vectorDocsIndex" queryVector (or5 (topK (base options))))).
    { repeat (split; [reflexivity|]). exact Hvector. }
    destruct (getDb env w).
    - lazy zeta in H.
      destruct (aggregate env "docs" "vectorDocsIndex" queryVector (or5 (topK (base options)))
                  (log GetDb w));
        injection H as _ <-; exists [GetDb; Aggregate "docs" "vectorDocsIndex" queryVector
                                              (or5 (topK (base options)))];
        (split; [cbn; rewrite <- app_assoc; reflexivity|]);
        (constructor; [exact I|]); (constructor; [exact Hagg|]); constructor.
    - injection H as _ <-. exists [GetDb]. split; [reflexivity|].
      constructor; [exact I|constructor]. }
  intros vectorResults. apply adds_bind.
  { destruct vectorResults; [apply adds_ret|apply adds_throw]. }
  intros found. apply adds_bind.
  { destruct (default false (enableAPIQuery options)); [|apply adds_ret].
    unfold queryExternalAPI. apply adds_bind; [|intros; apply adds_ret].
    apply adds_console_log. do 3 right. left. split; [reflexivity|].
    eexists. reflexivity. }
  intros apiResults.
  apply (adds_bind_ok P (fun memory => exists w0, getMemory env (userId options) w0 = Ok memory)).
  { apply adds_call. reflexivity. }
  { intros w a w1 H. apply call_inv in H as [H _]. exists w. exact H. }
  intros memory Hmemory.
  apply (adds_bind_ok P (fun chatHistory =>
           exists memory w0, loadMemoryVariables env memory w0 = Ok chatHistory)).
  { apply adds_call. exact Hmemory. }
  { intros w a w1 H. apply call_inv in H as [H _]. exists memory, w. exact H. }
  intros chatHistory Hhistory.
  apply adds_bind; [apply adds_call; exact Hhistory|]. intros historySummary.
  lazy zeta.
  apply adds_bind.
  { apply adds_console_log. do 4 right. split; [reflexivity|]. eexists. reflexivity. }
  intros _. apply adds_bind.
  { apply adds_retry_default_call; [|assumption|assumption].
    do 2 right. eexists. reflexivity. }
  intros completion. apply adds_bind; [apply adds_message_content|]. intros output.
  apply adds_bind; [apply adds_call; split; [reflexivity|exact Hmemory]|]. intros _.
  apply adds_bind.
  { destruct (messageId options) as [id|]; [destruct (str_truthy id)|]; try apply adds_ret.
    apply adds_messageCache_set. }
  intros _. apply adds_bind; [apply adds_cache_set|]. intros _. apply adds_ret.
Qed.

(** Every call of a turn is one of [turn_event]. *)
Lemma turn_adds (env : Collaborators) (query : string) (options : QueryEmbeddingsOptions) :
  adds (turn_event env query options) (queryEmbeddings env query options).
Proof.
  set (P := turn_event env query options).
  assert (Hsleep1 : P (SetTimeout 1000)) by (left; reflexivity).
  assert (Hsleep2 : P (SetTimeout 2000)) by (right; reflexivity).
  unfold queryEmbeddings, queryEmbeddings_with.
  apply adds_bind; [apply adds_seen|]. intros [|].
  { apply adds_bind; [|intros; apply adds_ret].
    apply adds_console_log. left. split; reflexivity. }
  apply adds_bind; [apply adds_console_log; right; left; split; reflexivity|]. intros _.
  apply adds_bind; [apply adds_cache_get|]. intros cached.
  destruct (from_option value_truthy false cached).
  { apply adds_bind; [|intros; apply adds_ret].
    apply adds_console_log. do 2 right. left. split; reflexivity. }
  unfold answerQuery.
  (* embedding *)
  apply (adds_bind_ok P (fun queryVector =>
           exists v w0, queryVector = Some v /\ embedQuery env query w0 = Ok v)).
  { apply adds_retry_default_call; [reflexivity|assumption|assumption]. }
  { intros w a w1 H. apply retry_default_call in H as (_ & _ & _ & Hr).
    destruct a as [v|]; [|contradiction]. destruct Hr as [w0 Hw0]. exists v, w0.
    split; [reflexivity|exact Hw0]. }
  intros queryVector Hvector.
  apply classify_and_answer_adds. exact Hvector.
Qed.

(** ** Retry without attempts *)

(** C10, as the code has it. With [maxRetries] at most 0 the loop body never
    runs: the operation is not invoked, whatever it is, [retry] resolves to
    [undefined], and whoever awaits it goes on with [undefined], no
    rejection raised. With a count of 1 or more, and so with the default of
    three attempts that every call site of the module runs with, [retry]
    never resolves to [undefined]: what it resolves to is a value the
    operation resolved to. So no turn of [queryEmbeddings] hands [undefined]
    on from its embedding stage: the vector the aggregation is queried with
    is one the embedding service answered. *)
Theorem retry_without_attempts {T B : Type} (fn : M T) (maxRetries : Z)
    (k : option T -> M B) (w : World) :
  (maxRetries <= 0 ->
   retry fn maxRetries = ret None /\
   retry fn maxRetries w = (Ok None, w) /\
   (await v <~ retry fn maxRetries in k v) w = k None w) /\
  (1 <= maxRetries ->
   forall r w', retry fn maxRetries w = (Ok r, w') ->
     exists v w0 w1, r = Some v /\ fn w0 = (Ok v, w1)) /\
  (forall r w', retry_default fn w = (Ok r, w') ->
     exists v w0 w1, r = Some v /\ fn w0 = (Ok v, w1)) /\
  (forall (env : Collaborators) (query : string) (options : QueryEmbeddingsOptions)
          (w0 w' : World) (r : Outcome (option CacheValue)) (added : list Event),
     queryEmbeddings env query options w0 = (r, w') ->
     trace w' = trace w0 ++ added ->
     forall collection indexName queryVector limit,
       In (Aggregate collection indexName queryVector limit) added ->
       exists v wv, queryVector = Some v /\ embedQuery env query wv = Ok v).
Proof.
  split; [|split; [|split]].
  - intros Hn. unfold retry.
    replace (Z.to_nat maxRetries) with O by lia.
    repeat split.
  - intros Hn r w' Hrun. unfold retry in Hrun.
    replace (Z.to_nat maxRetries) with (S (Z.to_nat (maxRetries - 1))) in Hrun by lia.
    replace maxRetries with (0 + Z.of_nat (S (Z.to_nat (maxRetries - 1)))) in Hrun at 1 by lia.
    eapply retry_from_defined. exact Hrun.
  - intros r w' Hrun. unfold retry_default, retry in Hrun.
    change (Z.to_nat 3) with 3%nat in Hrun. change 3 with (0 + Z.of_nat 3) in Hrun at 1.
    eapply retry_from_defined. exact Hrun.
  - intros env query options w0 w' r added Hrun Htrace collection indexName queryVector limit Hin.
    destruct (turn_adds env query options _ _ _ Hrun) as (added' & Ht & Hall).
    rewrite Htrace in Ht. apply app_inv_head in Ht. subst added'.
    rewrite Forall_forall in Hall. apply list_elem_of_In, Hall in Hin.
    destruct Hin as (_ & _ & _ & Hvector). exact Hvector.
Qed.

(** C10 fails as stated: no retried stage of the module resolves to
    [undefined], in any world and whatever the collaborators do. *)
Lemma retry_without_attempts_fails : ~ retry_without_attempts_as_stated.
Proof.
  assert (Hdefined : forall (T : Type) (fn : M T) w w', retry_default fn w <> (Ok None, w')).
  { intros T fn w w' Hrun. unfold retry_default, retry in Hrun.
    change (Z.to_nat 3) with 3%nat in Hrun. change 3 with (0 + Z.of_nat 3) in Hrun at 1.
    apply retry_from_defined in Hrun as (v & _ & _ & Hv & _). discriminate Hv. }
  intros [_ (env & w & w' & [(k & queryVector & Hrun)|[(query & Hrun)|(request & Hrun)]])];
    exact (Hdefined _ _ _ _ Hrun).
Qed.

Lemma retry_without_attempts_witness :
  retry (call (EmbedQuery "hello") (embed_double "hello")) 0 initial = (Ok None, initial) /\
  (exists v,
     fst (retry_default (call (EmbedQuery "hello") (embed_double "hello")) initial)
       = Ok (Some v)) /\
  In (Aggregate "docs" "vectorDocsIndex" (Some [1; 0]%Q) (Fin 5))
     (trace (after env0 "refund?" noOptions)).
Proof.
  destruct (retry_without_attempts (call (EmbedQuery "hello") (embed_double "hello")) 0
              (fun v => ret v) initial)
    as (Hnone & _ & Hdefault & Hturn).
  split; [|split].
  - apply Hnone. lia.
  - destruct (Hdefault (Some [1; 0]%Q)
                       (snd (retry_default (call (EmbedQuery "hello") (embed_double "hello"))
                               initial)) eq_refl)
      as (v & _ & _ & Hv & _).
    exists v. rewrite <- Hv. reflexivity.
  - assert (Hin : exists queryVector,
               In (Aggregate "docs" "vectorDocsIndex" queryVector (Fin 5))
                  (trace (after env0 "refund?" noOptions))).
    { exists (Some [1; 0]%Q). vm_compute. do 4 right. left. reflexivity. }
    destruct Hin as [queryVector Hin].
    destruct (Hturn env0 "refund?" noOptions initial (after env0 "refund?" noOptions)
                (fst (queryEmbeddings env0 "refund?" noOptions initial))
                (trace (after env0 "refund?" noOptions))
                (surjective_pairing _) eq_refl _ _ _ _ Hin)
      as (v & wv & -> & Hv).
    injection Hv as <-. exact Hin.
Defined.

(** ** The calls of a turn *)

(** X14. What a turn never does. Every call a turn issues is one of a
    fixed few: it embeds nothing but the query, asks the model for nothing
    but the classification, the greeting and the answer, sleeps for one or
    two seconds and no longer at a time, queries no store but the [docs]
    collection of the database, and that with a vector the embedding service
    answered, never the Pinecone index, and reads and saves the memory of no
    user but [options.userId], the save under the query as input. *)
Theorem turn_events (env : Collaborators) (query : string) (options : QueryEmbeddingsOptions)
    (w w' : World) (r : Outcome (option CacheValue)) (added : list Event) :
  queryEmbeddings env query options w = (r, w') ->
  trace w' = trace w ++ added ->
  Forall (turn_event env query options) added /\
  (forall k queryVector, ~ In (PineconeQuery k queryVector) added) /\
  (forall text, In (EmbedQuery text) added -> text = query) /\
  (forall ms, In (SetTimeout ms) added -> ms = 1000 \/ ms = 2000) /\
  (forall user, In (GetMemory user) added -> user = userId options) /\
  (forall memory input output, In (SaveContext memory input output) added -> input = query).
Proof.
  intros Hrun Htrace.
  destruct (turn_adds env query options _ _ _ Hrun) as (added' & Ht & Hall).
  rewrite Htrace in Ht. apply app_inv_head in Ht. subst added'.
  split; [exact Hall|]. rewrite Forall_forall in Hall.
  repeat split.
  - intros k queryVector Hin. apply list_elem_of_In, Hall in Hin. exact Hin.
  - intros text Hin. apply list_elem_of_In, Hall in Hin. exact Hin.
  - intros ms Hin. apply list_elem_of_In, Hall in Hin. exact Hin.
  - intros user Hin. apply list_elem_of_In, Hall in Hin. exact Hin.
  - intros memory input output Hin. apply list_elem_of_In, Hall in Hin. apply Hin.
Qed.

Lemma turn_events_witness :
  Forall (turn_event env0 "refund?" withEnrichment) (trace (after env0 "refund?" withEnrichment)).
Proof.
  destruct (turn_events env0 "refund?" withEnrichment initial
              (after env0 "refund?" withEnrichment)
              (fst (queryEmbeddings env0 "refund?" withEnrichment initial))
              (trace (after env0 "refund?" withEnrichment)))
    as [Hall _].
  - apply surjective_pairing.
  - reflexivity.
  - exact Hall.
Defined.

(** ** The retrieval branch, call by call *)

Lemma retrievalBranch_resolved (env : Collaborators) (query : string)
    (options : QueryEmbeddingsOptions) (cacheKey : string) (queryVector : option Vector)
    (intent : jsval) (w w' : World) (v : option CacheValue) :
  retrievalBranch env queryExternalAPI query options cacheKey queryVector intent w = (Ok v, w') ->
  exists docs memory chatHistory historySummary attempts output,
    let contexts := contexts_of env query (or5 (topK (base options))) docs in
    let content := promptContent env query intent historySummary contexts in
    let result :=
      mkResponse contexts (if default false (enableAPIQuery options) then mockResponse else [])
                 output in
    v = Some (Response result) /\
    aggregate env "docs" "vectorDocsIndex" queryVector (or5 (topK (base options))) (log GetDb w)
      = Ok docs /\
    (1 <= attempts <= 3)%nat /\
    trace w' = trace w ++ retrieval_calls env query options queryVector contexts memory
                            chatHistory content attempts output /\
    Z.of_nat (size (cache w)) < cache_maxKeys /\
    cache w' = <[cacheKey := (Response result, NodeCache.livetime (now w') cache_stdTTL)]>
                 (cache w) /\
    messageCache w' = marked (messageId options) (now w') (messageCache w).
Proof.
  intros H. unfold retrievalBranch in H.
  (* retrieval *)
  apply bind_inv in H as [(e & _ & [=])|(vr & w1 & H1 & H)].
  rewrite queryVectorStore_mongodb in H1.
  destruct (getDb env w) as [u|e0]; [|discriminate]. lazy zeta in H1.
  destruct (aggregate env "docs" "vectorDocsIndex" queryVector (or5 (topK (base options)))
              (log GetDb w)) as [docs|e1] eqn:Hagg; [|discriminate].
  injection H1 as <- <-.
  apply bind_inv in H as [(e & _ & [=])|(found & w2 & H1 & H)].
  injection H1 as <- <-.
  fold (contexts_of env query (or5 (topK (base options))) docs) in H.
  set (contexts := contexts_of env query (or5 (topK (base options))) docs) in *.
  (* enrichment *)
  apply bind_inv in H as [(e & _ & [=])|(results & w2 & H1 & H)].
  assert (Hapi : results = (if default false (enableAPIQuery options) then mockResponse else [])
                 /\ trace w2 = trace w
                      ++ [GetDb; Aggregate "docs" "vectorDocsIndex" queryVector
                                   (or5 (topK (base options)))]
                      ++ (if default false (enableAPIQuery options)
                          then [ConsoleLog "Calling API: mockAPI with payload:"
                                  [payload_of query contexts]]
                          else [])
                 /\ cache w2 = cache w /\ messageCache w2 = messageCache w /\ now w2 = now w).
  { destruct (default false (enableAPIQuery options)).
    - rewrite queryExternalAPI_resolves in H1. injection H1 as <- <-.
      cbn. rewrite <- !app_assoc. repeat split.
    - injection H1 as <- <-. cbn. rewrite <- !app_assoc. repeat split. }
  destruct Hapi as (-> & Ht2 & Hc2 & Hm2 & Hn2). clear H1.
  (* memory *)
  apply bind_inv in H as [(e & _ & [=])|(memory & w3 & H1 & H)].
  apply call_inv in H1 as [_ ->].
  apply bind_inv in H as [(e & _ & [=])|(chatHistory & w3 & H1 & H)].
  apply call_inv in H1 as [_ ->].
  apply bind_inv in H as [(e & _ & [=])|(historySummary & w3 & H1 & H)].
  apply call_inv in H1 as [_ ->].
  lazy zeta in H.
  set (content := promptContent env query intent historySummary contexts) in *.
  apply bind_inv in H as [(e & _ & [=])|([] & w3 & H1 & H)].
  injection H1 as <-.
  (* generation *)
  apply bind_inv in H as [(e & _ & [=])|(completion & w4 & H1 & H)].
  apply retry_default_call_trace in H1 as (attempts & Hle & Ht4 & Hn4 & Hc4 & Hm4 & Hr).
  cbn [log trace cache messageCache now] in Ht4, Hn4, Hc4, Hm4.
  apply bind_inv in H as [(e & _ & [=])|(output & w5 & H1 & H)].
  apply message_content_inv in H1 as [-> _].
  (* the memory save and the closing writes *)
  apply bind_inv in H as [(e & _ & [=])|([] & w5 & H1 & H)].
  apply call_inv in H1 as [_ ->].
  lazy zeta in H.
  apply bind_inv in H as [(e & _ & [=])|([] & w5 & H1 & H)].
  assert (Hw5 : w5 = mkWorld (now w4) (trace w4 ++ [SaveContext memory query output]) (cache w4)
                       (marked (messageId options) (now w4) (messageCache w4))).
  { unfold marked. destruct (messageId options) as [id|]; [destruct (str_truthy id)|];
      try (injection H1 as <-; reflexivity).
    unfold messageCache_set, NodeCache.set in H1. cbn [log now trace cache messageCache] in H1.
    destruct (_ && _); [discriminate|]. injection H1 as <-. reflexivity. }
  clear H1. subst w5.
  apply bind_inv in H as [(e & _ & [=])|([] & w5 & H1 & H)].
  unfold cache_set, NodeCache.set in H1. cbn [now trace cache messageCache] in H1.
  destruct (_ && _) eqn:Hfull; [discriminate|]. injection H1 as <-.
  injection H as <- <-.
  exists docs, memory, chatHistory, historySummary, (S attempts), output.
  lazy zeta. fold contexts. fold content.
  cbn [now trace cache messageCache].
  split; [reflexivity|]. split; [reflexivity|]. split; [lia|].
  split; [|split; [|split]].
  - unfold retrieval_calls. rewrite Ht4, Ht2, <- !app_assoc. reflexivity.
  - rewrite Hc4, Hc2 in Hfull. apply andb_false_iff in Hfull as [Hfull|Hfull].
    + discriminate Hfull.
    + rewrite Z.geb_leb in Hfull. apply Z.leb_gt in Hfull. exact Hfull.
  - rewrite Hc4, Hc2. reflexivity.
  - rewrite Hm4, Hm2. reflexivity.
Qed.

Lemma answerQuery_starts (env : Collaborators) query options cacheKey w r w' :
  answerQuery env queryExternalAPI query options cacheKey w = (r, w') ->
  exists rest, trace w' = trace w ++ EmbedQuery query :: rest.
Proof.
  unfold answerQuery. intros H.
  apply bind_inv in H as [(e & H1 & ->)|(queryVector & w1 & H1 & H)];
    apply retry_default_call_trace in H1 as (attempts & _ & Ht & _ & _ & _ & Hr);
    destruct (attempts_trace_head (EmbedQuery query) 0 attempts) as [rest Hrest].
  - exists rest. rewrite Ht, Hrest. reflexivity.
  - assert (Hvector : exists v w0, queryVector = Some v /\ embedQuery env query w0 = Ok v).
    { destruct queryVector as [v|]; [|contradiction]. destruct Hr as [w0 Hw0]. eauto. }
    destruct (classify_and_answer_adds env query options cacheKey queryVector Hvector _ _ _ H)
      as (added & Ht' & _).
    exists (rest ++ added). rewrite Ht', Ht, Hrest, <- app_assoc. reflexivity.
Qed.

Lemma answerQuery_resolved (env : Collaborators) query options cacheKey w v w' :
  answerQuery env queryExternalAPI query options cacheKey w = (Ok v, w') ->
  exists embeds vector wv intent w2,
    (1 <= embeds <= 3)%nat /\
    embedQuery env query wv = Ok vector /\
    trace w2 = trace w ++ attempts_trace (EmbedQuery query) 0 embeds
                 ++ [ChatCompletionsCreate (intentRequest query)] /\
    cache w2 = cache w /\ messageCache w2 = messageCache w /\
    (greetingBranch env query w2 = (Ok v, w') \/
     retrievalBranch env queryExternalAPI query options cacheKey (Some vector) intent w2
       = (Ok v, w')).
Proof.
  unfold answerQuery. intros H.
  apply bind_inv in H as [(e & _ & [=])|(queryVector & w1 & H1 & H)].
  apply retry_default_call_trace in H1 as (attempts & Hle & Ht & _ & Hc & Hm & Hr).
  destruct queryVector as [vector|]; [|contradiction]. destruct Hr as [wv Hwv].
  apply bind_inv in H as [(e & _ & [=])|(intent & w2 & H1 & H)].
  apply analyzeUserIntent_inv in H1 as [-> _].
  apply bind_inv in H as [(e & _ & [=])|(greeting & w3 & H1 & H)].
  apply pureGreeting_inv in H1 as ->.
  exists (S attempts), vector, wv, intent, (log (ChatCompletionsCreate (intentRequest query)) w1).
  split; [lia|]. split; [exact Hwv|].
  split; [cbn; rewrite Ht, <- app_assoc; reflexivity|].
  split; [exact Hc|]. split; [exact Hm|].
  destruct greeting; [left|right]; exact H.
Qed.

(** A turn that queried the database went past the dedup test and the
    cache lookup, which removed at most a dead entry under the turn's key. *)
Lemma turn_computes (env : Collaborators) query options w r w' added :
  queryEmbeddings env query options w = (r, w') ->
  trace w' = trace w ++ added ->
  In GetDb added ->
  exists w0,
    now w0 = now w /\ trace w0 = trace w ++ [queryMessage query] /\
    messageCache w0 ⊆ messageCache w /\
    cache w0 ⊆ cache w /\
    ((forall v t, cache w !! cacheKey_of query options = Some (v, t) ->
                  NodeCache.expired (now w) t = false) -> cache w0 = cache w) /\
    answerQuery env queryExternalAPI query options (cacheKey_of query options) w0 = (r, w').
Proof.
  unfold queryEmbeddings. rewrite queryEmbeddings_with_prelude.
  destruct (seen_inv (messageId options) w)
    as (dup & w1 & -> & Hnow & Htrace & Hcache & Hmc & _ & Hsame).
  destruct dup.
  - intros H Ht Hin. injection H as _ <-. rewrite (Hsame eq_refl) in Ht. cbn in Ht.
    apply app_inv_head in Ht. subst added. destruct Hin as [[=]|[]].
  - destruct (NodeCache.get (now w1) (cacheKey_of query options) (cache w1))
      as [cached data] eqn:Hget.
    rewrite Hnow, Hcache in Hget. lazy zeta.
    destruct (from_option value_truthy false cached).
    + intros H Ht Hin. injection H as _ <-. cbn in Ht. rewrite Htrace, <- app_assoc in Ht.
      apply app_inv_head in Ht. subst added. destruct Hin as [[=]|[[=]|[]]].
    + intros H _ _.
      exists (mkWorld (now w1) (trace w1 ++ [queryMessage query]) data (messageCache w1)).
      cbn [now trace cache messageCache].
      split; [exact Hnow|]. split; [rewrite Htrace; reflexivity|].
      split; [exact Hmc|]. split; [eapply get_subseteq; exact Hget|].
      split; [|exact H]. intros Hlive. eapply get_unexpired; eassumption.
Qed.

Lemma not_GetDb_before_retrieval (env : Collaborators) query embeds added :
  Forall (greeting_event env query) added ->
  ~ In GetDb (queryMessage query :: attempts_trace (EmbedQuery query) 0 embeds
                ++ [ChatCompletionsCreate (intentRequest query)] ++ added).
Proof.
  intros Hall [Hin|Hin]; [discriminate Hin|].
  apply in_app_or in Hin as [Hin|Hin].
  - pose proof (attempts_trace_events (EmbedQuery query) 0 embeds) as Hev.
    rewrite Forall_forall in Hev. apply list_elem_of_In, Hev in Hin as [[=]|[=]].
  - apply in_app_or in Hin as [[[=]|[]]|Hin].
    rewrite Forall_forall in Hall. apply list_elem_of_In, Hall in Hin.
    destruct Hin as [[=]|[[=]|[[=]|[[=]|[=]]]]].
Qed.

(** The turn of [turn_computes], when it resolves: it went through the
    retrieval branch. *)
Lemma retrieval_turn_resolved (env : Collaborators) query options w w' v added :
  queryEmbeddings env query options w = (Ok v, w') ->
  trace w' = trace w ++ added ->
  In GetDb added ->
  exists w0 embeds vector wv intent w2,
    cache w0 ⊆ cache w /\
    ((forall v t, cache w !! cacheKey_of query options = Some (v, t) ->
                  NodeCache.expired (now w) t = false) -> cache w0 = cache w) /\
    (1 <= embeds <= 3)%nat /\
    embedQuery env query wv = Ok vector /\
    trace w2 = trace w ++ queryMessage query :: attempts_trace (EmbedQuery query) 0 embeds
                 ++ [ChatCompletionsCreate (intentRequest query)] /\
    cache w2 = cache w0 /\
    retrievalBranch env queryExternalAPI query options (cacheKey_of query options)
      (Some vector) intent w2 = (Ok v, w').
Proof.
  intros Hrun Htrace Hin.
  destruct (turn_computes env _ _ _ _ _ _ Hrun Htrace Hin)
    as (w0 & _ & Ht0 & _ & Hsub & Hsame & Hanswer).
  apply answerQuery_resolved in Hanswer
    as (embeds & vector & wv & intent & w2 & Hle & Hwv & Ht2 & Hc2 & _ & [Hg|Hr]).
  - exfalso. apply greetingBranch_inv in Hg as [Hext _].
    apply extends_added in Hext as (added_g & Htg & Hall & _).
    rewrite Htg, Ht2, Ht0, <- !app_assoc in Htrace. apply app_inv_head in Htrace.
    cbn [app] in Htrace. subst added.
    eapply (not_GetDb_before_retrieval env query embeds added_g); [|exact Hin].
    eapply Forall_impl; [exact Hall|]. intros ev [Hge _]. exact Hge.
  - exists w0, embeds, vector, wv, intent, w2.
    split; [exact Hsub|]. split; [exact Hsame|]. split; [exact Hle|]. split; [exact Hwv|].
    split; [rewrite Ht2, Ht0, <- !app_assoc; reflexivity|]. split; [exact Hc2|exact Hr].
Qed.



(** X16. While the result cache holds 1000 keys, none of them a dead entry
    under the turn's own key, no turn resolves through the retrieval branch:
    a turn that gets as far as the database rejects. *)
Theorem full_cache_loses_answers (env : Collaborators) (query : string)
    (options : QueryEmbeddingsOptions) (w w' : World) (r : Outcome (option CacheValue))
    (added : list Event) :
  1000 <= Z.of_nat (size (cache w)) ->
  (forall v t, cache w !! cacheKey_of query options = Some (v, t) ->
               NodeCache.expired (now w) t = false) ->
  queryEmbeddings env query options w = (r, w') ->
  trace w' = trace w ++ added ->
  In GetDb added ->
  exists e, r = Err e.
Proof.
  intros Hfull Hlive Hrun Htrace Hin. destruct r as [v|e]; [exfalso|exists e; reflexivity].
  destruct (retrieval_turn_resolved env _ _ _ _ _ _ Hrun Htrace Hin)
    as (w0 & embeds & vector & wv & intent & w2 & _ & Hsame & _ & _ & _ & Hc2 & Hr).
  apply retrievalBranch_resolved in Hr as (_ & _ & _ & _ & _ & _ & _ & _ & _ & _ & Hsize & _).
  rewrite Hc2, (Hsame Hlive) in Hsize. unfold cache_maxKeys in Hsize. lia.
Qed.

Lemma full_cache_loses_answers_witness :
  fst (queryEmbeddings env0 "refund?" (withMessageId "m1") full_world) = Err ECACHEFULL.
Proof.
  destruct (full_cache_loses_answers env0 "refund?" (withMessageId "m1") full_world
              (snd (queryEmbeddings env0 "refund?" (withMessageId "m1") full_world))
              (fst (queryEmbeddings env0 "refund?" (withMessageId "m1") full_world))
              (trace (snd (queryEmbeddings env0 "refund?" (withMessageId "m1") full_world))))
    as [e He].
  - vm_compute. discriminate.
  - intros v t H. vm_compute in H. discriminate H.
  - apply surjective_pairing.
  - reflexivity.
  - vm_compute. do 3 right. left. reflexivity.
  - rewrite He. vm_compute in He. symmetry. exact He.
Defined.

(** With the cache full the answer is generated, saved to the memory and
    the message id marked, and then lost: the caller gets [ECACHEFULL], and
    [null] when it asks again with the same message id. *)
Example full_cache_then_suppressed :
  let w' := snd (queryEmbeddings env0 "refund?" (withMessageId "m1") full_world) in
  last (trace w') = Some (SaveContext "anonymous" "refund?" (Some "Hi there!")) /\
  messageCache w' !! "m1" = Some (true, 300000) /\
  fst (queryEmbeddings env0 "refund?" (withMessageId "m1") w') = Ok None.
Proof. repeat split; vm_compute; reflexivity. Qed.

(** X17. A cached response is served for 3600 seconds and no longer. The
    same call made later than that, whatever its message id, is computed
    afresh: after the query line the turn asks for the embedding again. *)
Theorem cached_for_an_hour (env : Collaborators) (query : string)
    (options : QueryEmbeddingsOptions) (w w' : World) (v : CacheValue) (added : list Event)
    (d : Z) :
  queryEmbeddings env query options w = (Ok (Some v), w') ->
  trace w' = trace w ++ added ->
  In GetDb added ->
  0 <= now w' ->
  3600 * 1000 < d ->
  exists rest,
    trace (snd (queryEmbeddings env query options (elapse d w')))
      = trace w' ++ queryMessage query :: EmbedQuery query :: rest.
Proof.
  intros Hrun Htrace Hin Hnow Hd.
  destruct (turn_endings env _ _ _ _ _ _ _ queryExternalAPI_quiet Hrun Htrace)
    as [(id & [=] & _)
       |[(v' & _ & -> & _)
        |[(e & [=] & _)
         |[(content & w0 & c & intent & wi & _ & Hall & _)
          |(before & memory & result & content & w0 & c & intent & wi
            & _ & _ & _ & _ & _ & _ & _ & _ & Hr)]]]].
  { destruct Hin as [[=]|[[=]|[]]]. }
  { rewrite Forall_forall in Hall. apply list_elem_of_In, Hall in Hin as [Hge _].
    destruct Hge as [[=]|[[=]|[[=]|[[=]|[=]]]]]. }
  destruct Hr as [(_ & Hc & Hm & _)|(e & [=] & _)].
  change (NodeCache.livetime (now w') cache_stdTTL) with (now w' + 3600 * 1000) in Hc.
  change (NodeCache.livetime (now w') messageCache_stdTTL) with (now w' + 300 * 1000) in Hm.
  unfold queryEmbeddings. rewrite queryEmbeddings_with_prelude.
  destruct (seen_inv (messageId options) (elapse d w'))
    as (dup & w1 & -> & Hnow1 & Htrace1 & Hcache1 & _ & Hdup & _).
  cbn [elapse now trace cache messageCache] in *.
  destruct dup.
  { exfalso. destruct (proj1 Hdup eq_refl) as (id & t & Hid & Htruthy & Hl & Hexp).
    rewrite (Hm id Hid Htruthy) in Hl. injection Hl as <-.
    unfold NodeCache.expired in Hexp.
    rewrite (proj2 (Z.ltb_lt _ _)) in Hexp by lia.
    rewrite (proj2 (Z.eqb_neq _ _)) in Hexp by lia. discriminate Hexp. }
  rewrite Hnow1, Hcache1. unfold NodeCache.get at 1. rewrite Hc.
  unfold NodeCache.expired.
  rewrite (proj2 (Z.ltb_lt _ _)) by lia. rewrite (proj2 (Z.eqb_neq _ _)) by lia.
  cbn [negb andb from_option].
  destruct (answerQuery _ _ _ _ _ _) as [r2 w2] eqn:Hanswer.
  apply answerQuery_starts in Hanswer as [rest Hrest].
  exists rest. cbn [snd]. rewrite Hrest. cbn [trace]. rewrite Htrace1, <- app_assoc. reflexivity.
Qed.

Lemma cached_for_an_hour_witness :
  exists rest,
    trace (snd (queryEmbeddings env0 "refund?" noOptions
                  (elapse 3600001 (after env0 "refund?" noOptions))))
      = trace (after env0 "refund?" noOptions)
          ++ queryMessage "refund?" :: EmbedQuery "refund?" :: rest.
Proof.
  apply (cached_for_an_hour env0 "refund?" noOptions initial (after env0 "refund?" noOptions)
           (Response (refundResponse [])) (trace (after env0 "refund?" noOptions)) 3600001).
  - vm_compute. reflexivity.
  - reflexivity.
  - vm_compute. do 3 right. left. reflexivity.
  - vm_compute. discriminate.
  - lia.
Defined.
